(** * Scalabel 3D label canvas and session: a shallow embedding

    Sources embedded here:
    - [app/src/js/common/session.ts]: the key handlers and the status of the
      [Session] singleton;
    - the [Label3dCanvas] component: its constructor, [componentDidMount],
      [componentWillUnmount], [redraw], the six input handlers,
      [updateState], [renderThree] and [updateRenderer].  ([render] and
      [initializeRefs] only build the canvas element and attach it; their
      effect on the fields is kept as [set_canvas].)

    Modelling conventions.
    - A JavaScript [number] that is used as an identifier or an array index is
      an integer ([Z]); the value of [Math.min] and of the arithmetic on it
      may also be an infinity ([jsnum]).  A [number] that is a coordinate, a
      length or an angle is idealised as a real ([R]).
    - A JavaScript object used as a dictionary is a [gmap]; an absent key
      reads as [None] ([undefined]), and reading a property of [undefined]
      raises a [TypeError].
    - Methods are written in a state-and-exception monad over the [World]
      (the component, the session singleton, the camera heap and the freeze
      condition); a run also yields the log of the calls made to
      collaborators.  A raised exception keeps the mutations made before it,
      as in JavaScript.
    - Cameras are heap objects: the component, the label handler and the
      scene registry hold references to them. *)

From Stdlib Require Import ZArith List Bool Lia Reals Lra String Sorted.
From stdpp Require Import base option list functions gmap strings.

Local Open Scope Z_scope.

(** ** JavaScript numbers used as identifiers *)

Inductive jsnum : Type :=
| Num (z : Z)
| PosInfinity
| NegInfinity.

#[global] Instance jsnum_eq_dec : EqDecision jsnum.
Proof. solve_decision. Defined.

(** [Math.min(a, b)] on integers and infinities. *)
Definition js_min (a b : jsnum) : jsnum :=
  match a, b with
  | NegInfinity, _ | _, NegInfinity => NegInfinity
  | PosInfinity, y => y
  | x, PosInfinity => x
  | Num x, Num y => Num (Z.min x y)
  end.

(** [Math.min(...l)]: the minimum of no argument is [Infinity]. *)
Definition Math_min (l : list Z) : jsnum :=
  foldr (fun k acc => js_min (Num k) acc) PosInfinity l.

(** [a - b] where [a] is finite. *)
Definition js_sub (a : Z) (b : jsnum) : jsnum :=
  match b with
  | Num y => Num (a - y)
  | PosInfinity => NegInfinity
  | NegInfinity => PosInfinity
  end.

(** [ToInt32]: wrap to a signed 32-bit integer. *)
Definition toInt32 (z : Z) : Z :=
  let m := z mod 2 ^ 32 in
  if m <? 2 ^ 31 then m else m - 2 ^ 32.

(** The shift count of [1 << n]: [ToUint32(n) & 31]; infinities convert to 0. *)
Definition shiftCount (n : jsnum) : Z :=
  match n with
  | Num z => Z.land (z mod 2 ^ 32) 31
  | PosInfinity | NegInfinity => 0
  end.

(** [1 << n | 0] *)
Definition js_one_shl (n : jsnum) : Z :=
  toInt32 (Z.lor (toInt32 (Z.shiftl 1 (shiftCount n))) 0).

(** ** The parts of three.js the canvas uses *)

Module THREE.

Record Vector2 : Type := mkVector2 { v2x : R; v2y : R }.
Record Vector3 : Type := mkVector3 { vx : R; vy : R; vz : R }.
Record Quaternion : Type := mkQuaternion { qx : R; qy : R; qz : R; qw : R }.

(** [new THREE.Quaternion()] *)
Definition Quaternion_new : Quaternion := mkQuaternion 0 0 0 1.

(** [Quaternion.setFromAxisAngle(axis, angle)] (the axis is assumed
    normalised by three.js):
    [halfAngle = angle / 2, s = sin(halfAngle)],
    [x = axis.x * s, y = axis.y * s, z = axis.z * s, w = cos(halfAngle)]. *)
Definition setFromAxisAngle (axis : Vector3) (angle : R) : Quaternion :=
  let halfAngle := (angle / 2)%R in
  let s := sin halfAngle in
  mkQuaternion (vx axis * s) (vy axis * s) (vz axis * s) (cos halfAngle).

(** [Quaternion.multiply(q)] is [multiplyQuaternions(this, q)]. *)
Definition multiply (a b : Quaternion) : Quaternion :=
  let '(qax, qay, qaz, qaw) := (qx a, qy a, qz a, qw a) in
  let '(qbx, qby, qbz, qbw) := (qx b, qy b, qz b, qw b) in
  mkQuaternion
    (qax * qbw + qaw * qbx + qay * qbz - qaz * qby)
    (qay * qbw + qaw * qby + qaz * qbx - qax * qbz)
    (qaz * qbw + qaw * qbz + qax * qby - qay * qbx)
    (qaw * qbw - qax * qbx - qay * qby - qaz * qbz).

(** [THREE.Layers]: a 32-bit membership mask. *)
Record Layers : Type := mkLayers { mask : Z }.

(** [new THREE.Layers()]: member of layer 0. *)
Definition Layers_new : Layers := mkLayers 1.

(** [Layers.set(channel)]: [this.mask = 1 << channel | 0]. *)
Definition Layers_set (channel : jsnum) : Layers :=
  mkLayers (js_one_shl channel).

(** Intrinsics of a sensor (fields of [IntrinsicsType], which the canvas
    only passes on to the [IntrinsicCamera] constructor). *)
Record IntrinsicsType : Type := mkIntrinsics
  { focalLength : Vector2; focalCenter : Vector2 }.

(** The two kinds of camera the canvas creates. *)
Inductive Projection : Type :=
| PerspectiveCamera (fov aspect near far : R)
| IntrinsicCamera (intrinsics : IntrinsicsType) (width height : R).

(** A camera object: [Object3D] defaults are position 0, identity
    orientation and layer 0. *)
Record Camera : Type := mkCamera
  { projection : Projection;
    position : Vector3;
    quaternion : Quaternion;
    layers : Layers }.

Definition Camera_new (p : Projection) : Camera :=
  mkCamera p (mkVector3 0 0 0) Quaternion_new Layers_new.

Definition set_position (v : Vector3) (c : Camera) : Camera :=
  mkCamera (projection c) v (quaternion c) (layers c).
Definition set_quaternion (q : Quaternion) (c : Camera) : Camera :=
  mkCamera (projection c) (position c) q (layers c).
Definition set_layers (l : Layers) (c : Camera) : Camera :=
  mkCamera (projection c) (position c) (quaternion c) l.

(** A hit of a ray on a scene object. *)
Record Intersection : Type := mkIntersection
  { distance : R; object : nat }.

(** [THREE.Raycaster]: its three parameters and the ray last set by
    [setFromCamera] (the pointer coordinates and the camera it was set
    from). *)
Record Raycaster : Type := mkRaycaster
  { near : R; far : R; linePrecision : R;
    ray : option (Vector2 * Camera) }.

Definition setFromCamera (coords : Vector2) (c : Camera) (r : Raycaster)
  : Raycaster :=
  mkRaycaster (near r) (far r) (linePrecision r) (Some (coords, c)).

End THREE.

(** ** Browser objects *)

(** [HTMLCanvasElement]: identity, bounding client rectangle and size. *)
Record HTMLCanvasElement : Type := mkCanvas
  { canvas_node : nat;
    rect_left : R; rect_top : R;
    canvas_width : R; canvas_height : R }.

(** [HTMLImageElement]: only its size is read. *)
Record HTMLImageElement : Type := mkImage
  { image_width : R; image_height : R }.

Record MouseEvent : Type := mkMouseEvent { clientX : R; clientY : R }.
Record KeyboardEvent : Type := mkKeyboardEvent { key : string }.

(** Closures held by a component instance; two closures are the same
    listener exactly when they were created by the same instance. *)
Inductive Listener : Type :=
| KeyDownListener (instance : nat)
| KeyUpListener (instance : nat)
| DrawableUpdateCallback (instance : nat).

#[global] Instance Listener_eq_dec : EqDecision Listener.
Proof. solve_decision. Defined.

(** ** The application state the canvas reads ([functional/types]) *)

Inductive ViewerConfigTypeName : Type :=
| POINT_CLOUD
| IMAGE_3D
| OTHER_VIEWER (tag : string).

#[global] Instance ViewerConfigTypeName_eq_dec : EqDecision ViewerConfigTypeName.
Proof. solve_decision. Defined.

Record ExtrinsicsType : Type := mkExtrinsics
  { rotation : THREE.Quaternion; translation : THREE.Vector3 }.

Record SensorType : Type := mkSensor
  { intrinsics : option THREE.IntrinsicsType;
    extrinsics : option ExtrinsicsType }.

Record ViewerConfigType : Type := mkViewerConfig
  { type : ViewerConfigTypeName; sensor : Z; viewScale : R }.

Record LabelType : Type := mkLabel { sensors : list Z }.

(** [item.labels] is kept as an association list in the order of
    [Object.keys]. *)
Record ItemType : Type := mkItem { labels : list (Z * LabelType) }.

Record TaskType : Type := mkTask
  { items : list ItemType; sensors_of : gmap Z SensorType }.

Record Select : Type := mkSelect { item : Z }.

Record UserType : Type := mkUser
  { select : Select; viewerConfigs : gmap Z ViewerConfigType }.

(** Modelled from the spec: [isCurrentFrameLoaded] of
    [functional/state_util] is not among the sources; the snapshot carries
    "a current frame loaded for sensor S predicate", kept here as the field
    [frameLoaded]. *)
Record State : Type := mkState
  { task : TaskType; user : UserType; frameLoaded : Z -> bool }.

Definition isCurrentFrameLoaded (state : State) (s : Z) : bool :=
  frameLoaded state s.

(** Modelled from the spec: [getCurrentViewerConfig] of
    [functional/state_util] is not among the sources; it is the per-viewer
    configuration of the snapshot, looked up by viewer id. *)
Definition getCurrentViewerConfig (state : State) (viewerId : Z)
  : option ViewerConfigType :=
  viewerConfigs (user state) !! viewerId.

(** [a[i]] on a JavaScript array: [undefined] outside of it. *)
Definition js_index {A : Type} (a : list A) (i : Z) : option A :=
  if 0 <=? i then a !! Z.to_nat i else None.

(** [Object.keys(o).map((key) => Number(key))] *)
Definition keys_as_numbers {A : Type} (o : gmap Z A) : list Z :=
  (map_to_list o).*1.

(** ** session.ts *)

Module Session.

Inductive ConnectionStatus : Type := SAVED | SAVING | RECONNECTING | UNSAVED.

#[global] Instance ConnectionStatus_eq_dec : EqDecision ConnectionStatus.
Proof. solve_decision. Defined.

(** What the canvas reads of [Label3DList]: the shapes of each label it
    holds and the shapes that can be hit by a ray. *)
Record Label3DList : Type := mkLabel3DList
  { shapes_of : gmap Z (list nat);
    raycastableShapes : list nat }.

(** The fields of the singleton that the two sources use.
    [activeViewerId] is read by the canvas. *)
Record t : Type := mk
  { status : ConnectionStatus;
    keyDownMap : gmap string bool;
    images : list (gmap Z HTMLImageElement);
    label3dList : Label3DList;
    activeViewerId : Z }.

(** Calls the session makes to code it is given. *)
Inductive Call : Type :=
| ApplyStatusEffects
| Callback (e : KeyboardEvent).

Definition set_status (st : ConnectionStatus) (s : t) : t :=
  mk st (keyDownMap s) (images s) (label3dList s) (activeViewerId s).

Definition set_keyDownMap (m : gmap string bool) (s : t) : t :=
  mk (status s) m (images s) (label3dList s) (activeViewerId s).

Definition updateStatus (s : t) (newStatus : ConnectionStatus)
  : ConnectionStatus * t * list Call :=
  (newStatus, set_status newStatus s, [ApplyStatusEffects]).

Definition onKeyDown (s : t) (e : KeyboardEvent) : t * list Call :=
  if decide (status s = RECONNECTING) then (s, [])
  else
    let key := key e in
    (set_keyDownMap (<[key := true]> (keyDownMap s)) s, [Callback e]).

Definition onKeyUp (s : t) (e : KeyboardEvent) : t * list Call :=
  let key := key e in
  (set_keyDownMap (delete key (keyDownMap s)) s, [Callback e]).

(** [isKeyDown(key)]: [None] is [undefined]. *)
Definition isKeyDown (s : t) (key : string) : option bool :=
  keyDownMap s !! key.

End Session.

(** Whether a reference is neither [null] nor [undefined]. *)
Definition defined {A : Type} (o : option A) : bool :=
  match o with Some _ => true | None => false end.

(** JavaScript truthiness of a value that is a boolean or [undefined]. *)
Definition truthy (v : option bool) : bool :=
  match v with Some b => b | None => false end.

(** ** The [Label3dCanvas] component *)

(** Calls made by the canvas to its collaborators (the document, React, the
    renderer, the scene registry, the label handler) and mutations of camera
    objects, in the order they are made. *)
Inductive Effect : Type :=
| SuperComponentDidMount
| SuperComponentWillUnmount
| AddEventListener (type : string) (listener : Listener)
| RemoveEventListener (type : string) (listener : Listener)
| Subscribe (callback : Listener)
| Unsubscribe (callback : Listener)
| ForceUpdate
| StopPropagation
| RendererClear
| RendererRender (camera : nat)
| RendererSetSize (width height : R)
| UpdateThreeCameraAndRenderer (camera : nat)
| CameraPositionSet (camera : nat) (v : THREE.Vector3)
| CameraQuaternionSet (camera : nat) (q : THREE.Quaternion)
| CameraQuaternionMultiply (camera : nat) (q : THREE.Quaternion)
| CameraLayersSet (camera : nat) (channel : jsnum)
| CameraUpdateMatrixWorld (camera : nat) (force : bool)
| RaycasterSetFromCamera (coords : THREE.Vector2) (camera : nat)
| IntersectObjects (shapes : list nat) (recursive : bool)
| ShapeLayersEnable (shape : nat) (channel : Z)
| SetActiveCamera (camera : nat)
| OnDrawableUpdate
| HandlerSetCamera (camera : nat)
| HandlerOnMouseDown (x y : R)
| HandlerOnMouseUp
| HandlerOnMouseMove (x y : R) (hit : option THREE.Intersection)
| HandlerOnDoubleClick
| HandlerOnKeyDown (e : KeyboardEvent)
| HandlerOnKeyUp (e : KeyboardEvent)
| HandlerUpdateState (state : State) (item : Z) (viewer : Z).

(** The calls that reach the Interaction Delegate ([Label3DHandler]). *)
Definition is_handler_call (ev : Effect) : bool :=
  match ev with
  | HandlerSetCamera _ | HandlerOnMouseDown _ _ | HandlerOnMouseUp
  | HandlerOnMouseMove _ _ _ | HandlerOnDoubleClick | HandlerOnKeyDown _
  | HandlerOnKeyUp _ | HandlerUpdateState _ _ _ => true
  | _ => false
  end.

(** The calls that draw or announce a change of the drawables. *)
Definition is_redraw (ev : Effect) : bool :=
  match ev with
  | RendererClear | RendererRender _ | OnDrawableUpdate | ForceUpdate => true
  | _ => false
  end.

(** The values a selector finds in a log, in order. *)
Fixpoint collect {B : Type} (f : Effect -> option B) (log : list Effect)
  : list B :=
  match log with
  | [] => []
  | ev :: log' =>
      match f ev with
      | Some b => b :: collect f log'
      | None => collect f log'
      end
  end.

(** The layer assignments made to cameras: which camera, which layer. *)
Definition layer_assignment (ev : Effect) : option (nat * jsnum) :=
  match ev with CameraLayersSet c ch => Some (c, ch) | _ => None end.

(** The cameras published to the registry with [setActiveCamera]. *)
Definition published (ev : Effect) : option nat :=
  match ev with SetActiveCamera c => Some c | _ => None end.

(** The calls made to the label handler. *)
Definition handler_calls (ev : Effect) : option Effect :=
  if is_handler_call ev then Some ev else None.

(** The draws and change announcements. *)
Definition redraws (ev : Effect) : option Effect :=
  if is_redraw ev then Some ev else None.

(** Registrations and deregistrations of a given listener, by kind. *)
Definition added (ty : string) (l : Listener) (ev : Effect) : option unit :=
  match ev with
  | AddEventListener ty' l' =>
      if bool_decide (ty' = ty /\ l' = l) then Some tt else None
  | _ => None
  end.

Definition removed (ty : string) (l : Listener) (ev : Effect) : option unit :=
  match ev with
  | RemoveEventListener ty' l' =>
      if bool_decide (ty' = ty /\ l' = l) then Some tt else None
  | _ => None
  end.

Definition subscribed (cb : Listener) (ev : Effect) : option unit :=
  match ev with
  | Subscribe cb' => if bool_decide (cb' = cb) then Some tt else None
  | _ => None
  end.

Definition unsubscribed (cb : Listener) (ev : Effect) : option unit :=
  match ev with
  | Unsubscribe cb' => if bool_decide (cb' = cb) then Some tt else None
  | _ => None
  end.

Inductive JSError : Type := TypeError (what : string).

Inductive Completion (A : Type) : Type :=
| Normal (a : A)
| Throw (e : JSError).
Arguments Normal {A} a.
Arguments Throw {A} e.

Definition is_normal {A : Type} (c : Completion A) : bool :=
  match c with Normal _ => true | Throw _ => false end.

(** Code of the repository and of three.js that the canvas calls and that is
    not among the sources: the label handler with its private state, the
    pointer-to-NDC conversion, the ray intersection and the point-cloud
    camera update. *)
Class Collaborators : Type := mkCollaborators
  { HandlerState : Type;
    handler_onMouseDown : HandlerState -> R -> R -> HandlerState * bool;
    handler_onMouseUp : HandlerState -> HandlerState * bool;
    handler_onMouseMove :
      HandlerState -> R -> R -> option THREE.Intersection -> HandlerState * bool;
    handler_onDoubleClick : HandlerState -> HandlerState * bool;
    handler_onKeyDown : HandlerState -> KeyboardEvent -> HandlerState * bool;
    handler_onKeyUp : HandlerState -> KeyboardEvent -> HandlerState * bool;
    handler_updateState : HandlerState -> State -> Z -> Z -> HandlerState;
    handler_new : HandlerState;
    convertMouseToNDC : R -> R -> HTMLCanvasElement -> R * R;
    intersectObjects :
      THREE.Raycaster -> list nat -> bool -> list THREE.Intersection;
    updateThreeCameraAndRenderer :
      ViewerConfigType -> THREE.Camera -> HTMLCanvasElement -> THREE.Camera }.

Module Label3dCanvas.

Record Props : Type := mkProps { props_display : option nat; props_id : Z }.

Section Canvas.
Context `{C : Collaborators}.

(** The label handler object: the camera it was given and its own state. *)
Record Label3DHandler : Type := mkHandler
  { handler_camera : nat; handler_state : HandlerState }.

(** The fields of a [Label3dCanvas] instance.  [instance] stands for the
    identity of the closures the constructor creates, [state] is the React
    state kept by the base class. *)
Record t : Type := mk
  { instance : nat;
    props : Props;
    state : State;
    canvas : option HTMLCanvasElement;
    display : option nat;
    scale : R;
    renderer : option nat;
    camera : nat;
    _raycaster : THREE.Raycaster;
    _keyDownMap : gmap string bool;
    _labelHandler : Label3DHandler }.

(** Modelled from the spec: [checkFreeze] of the base class [DrawableCanvas]
    is not among the sources; the "freeze check" is a condition of the
    environment, kept here as the field [freeze]. *)
Record World : Type := mkWorld
  { this : t;
    session : Session.t;
    heap : nat -> THREE.Camera;
    next : nat;
    freeze : bool }.

Definition set_this (c : t) (w : World) : World :=
  mkWorld c (session w) (heap w) (next w) (freeze w).
Definition set_heap (h : nat -> THREE.Camera) (n : nat) (w : World) : World :=
  mkWorld (this w) (session w) h n (freeze w).

Definition set_display (d : option nat) (c : t) : t :=
  mk (instance c) (props c) (state c) (canvas c) d (scale c) (renderer c)
     (camera c) (_raycaster c) (_keyDownMap c) (_labelHandler c).
Definition set_camera (r : nat) (c : t) : t :=
  mk (instance c) (props c) (state c) (canvas c) (display c) (scale c)
     (renderer c) r (_raycaster c) (_keyDownMap c) (_labelHandler c).
Definition set_raycaster (r : THREE.Raycaster) (c : t) : t :=
  mk (instance c) (props c) (state c) (canvas c) (display c) (scale c)
     (renderer c) (camera c) r (_keyDownMap c) (_labelHandler c).
Definition set_keyDownMap (m : gmap string bool) (c : t) : t :=
  mk (instance c) (props c) (state c) (canvas c) (display c) (scale c)
     (renderer c) (camera c) (_raycaster c) m (_labelHandler c).
Definition set_labelHandler (h : Label3DHandler) (c : t) : t :=
  mk (instance c) (props c) (state c) (canvas c) (display c) (scale c)
     (renderer c) (camera c) (_raycaster c) (_keyDownMap c) h.

(** Assignments made outside of the methods embedded below: by the base
    class (the snapshot kept in [this.state]) and by [initializeRefs] (the
    canvas that was attached and the renderer created for it). *)
Definition set_state (st : State) (c : t) : t :=
  mk (instance c) (props c) st (canvas c) (display c) (scale c) (renderer c)
     (camera c) (_raycaster c) (_keyDownMap c) (_labelHandler c).
Definition set_canvas (cv : option HTMLCanvasElement) (r : option nat) (c : t)
  : t :=
  mk (instance c) (props c) (state c) cv (display c) (scale c) r
     (camera c) (_raycaster c) (_keyDownMap c) (_labelHandler c).

(** *** The monad of methods *)

Definition M (A : Type) : Type := World -> Completion A * World * list Effect.

Definition ret {A : Type} (a : A) : M A := fun w => (Normal a, w, []).

Definition bind {A B : Type} (m : M A) (k : A -> M B) : M B := fun w =>
  match m w with
  | (Normal a, w1, l1) =>
      match k a w1 with (r, w2, l2) => (r, w2, l1 ++ l2) end
  | (Throw e, w1, l1) => (Throw e, w1, l1)
  end.

Definition throw {A : Type} (e : JSError) : M A := fun w => (Throw e, w, []).
Definition gets {A : Type} (f : World -> A) : M A := fun w => (Normal (f w), w, []).
Definition modify (f : World -> World) : M unit := fun w => (Normal tt, f w, []).
Definition emit (ev : Effect) : M unit := fun w => (Normal tt, w, [ev]).

Notation "x <- c1 ;; c2" := (bind c1 (fun x => c2))
  (at level 20, c1 at level 99, c2 at level 200, only parsing).
Notation "c1 >> c2" := (bind c1 (fun _ => c2))
  (at level 100, c2 at level 200, only parsing, right associativity).

Definition when (b : bool) (c : M unit) : M unit := if b then c else ret tt.

(** [for (const x of l) body] *)
Fixpoint for_of {A : Type} (l : list A) (body : A -> M unit) : M unit :=
  match l with
  | [] => ret tt
  | x :: l' => body x >> for_of l' body
  end.

(** [o.p] where [o] may be [undefined]. *)
Definition prop {A B : Type} (what : string) (p : A -> B) (o : option A) : M B :=
  match o with
  | Some a => ret (p a)
  | None => throw (TypeError what)
  end.

Definition get_this : M t := gets this.
Definition modify_this (f : t -> t) : M unit :=
  modify (fun w => set_this (f (this w)) w).

(** [new C(...)] for a camera class: a fresh object on the heap. *)
Definition new_camera (p : THREE.Projection) : M nat := fun w =>
  (Normal (next w),
   set_heap (<[next w := THREE.Camera_new p]> (heap w)) (S (next w)) w,
   []).

Definition get_camera (r : nat) : M THREE.Camera := gets (fun w => heap w r).

(** A method of a camera object that changes it in place. *)
Definition camera_do (r : nat) (ev : Effect) (f : THREE.Camera -> THREE.Camera)
  : M unit :=
  modify (fun w => set_heap (<[r := f (heap w r)]> (heap w)) (next w) w) >>
  emit ev.

Definition position_set (r : nat) (x y z : R) : M unit :=
  let v := THREE.mkVector3 x y z in
  camera_do r (CameraPositionSet r v) (THREE.set_position v).

Definition quaternion_set (r : nat) (x y z w : R) : M unit :=
  let q := THREE.mkQuaternion x y z w in
  camera_do r (CameraQuaternionSet r q) (THREE.set_quaternion q).

Definition quaternion_multiply (r : nat) (q : THREE.Quaternion) : M unit :=
  camera_do r (CameraQuaternionMultiply r q)
    (fun c => THREE.set_quaternion (THREE.multiply (THREE.quaternion c) q) c).

Definition layers_set (r : nat) (channel : jsnum) : M unit :=
  camera_do r (CameraLayersSet r channel)
    (THREE.set_layers (THREE.Layers_set channel)).

(** A call of a method of the label handler that reports whether it consumed
    the event (or changed something). *)
Definition handler_call (ev : Effect)
    (method : HandlerState -> HandlerState * bool) : M bool :=
  c <- get_this ;;
  let h := _labelHandler c in
  let '(st, r) := method (handler_state h) in
  modify_this (set_labelHandler (mkHandler (handler_camera h) st)) >>
  emit ev >>
  ret r.

Definition checkFreeze : M bool := gets freeze.

(** *** The methods *)

Definition normalizeCoordinatesToCanvas (x y : R) (canvas : HTMLCanvasElement)
  : R * R :=
  ((x - rect_left canvas)%R, (y - rect_top canvas)%R).

(** The generic camera of the constructor and of [updateState]:
    [new THREE.PerspectiveCamera(45, 1, 0.1, 1000)]. *)
Definition generic_projection : THREE.Projection :=
  THREE.PerspectiveCamera 45 1 (1 / 10) 1000.

(** [new Label3dCanvas(props)] in an environment made of the session, the
    freeze condition and the camera heap; [st] is the React state the base
    class holds.  The raycaster is the [new THREE.Raycaster()] after the
    three assignments to [near], [far] and [linePrecision]. *)
Definition constructor (inst : nat) (p : Props) (st : State)
    (s : Session.t) (fz : bool) (h : nat -> THREE.Camera) (n : nat) : World :=
  let cam := n in
  {| this :=
       {| instance := inst; props := p; state := st;
          camera := cam;
          _labelHandler := mkHandler cam handler_new;
          display := None;
          canvas := None;
          scale := 1;
          renderer := None;
          _raycaster :=
            {| THREE.near := 1; THREE.far := 100;
               THREE.linePrecision := 2 / 100; THREE.ray := None |};
          _keyDownMap := ∅ |};
     session := s;
     heap := <[cam := THREE.Camera_new generic_projection]> h;
     next := S n;
     freeze := fz |}.

Definition componentDidMount : M unit :=
  c <- get_this ;;
  emit SuperComponentDidMount >>
  emit (AddEventListener "keydown" (KeyDownListener (instance c))) >>
  emit (AddEventListener "keyup" (KeyUpListener (instance c))) >>
  emit (Subscribe (DrawableUpdateCallback (instance c))).

Definition componentWillUnmount : M unit :=
  c <- get_this ;;
  emit SuperComponentWillUnmount >>
  emit (RemoveEventListener "keydown" (KeyDownListener (instance c))) >>
  emit (RemoveEventListener "keyup" (KeyUpListener (instance c))) >>
  emit (Unsubscribe (DrawableUpdateCallback (instance c))).

Definition renderThree : M unit :=
  c <- get_this ;;
  let state := state c in
  sensor <- prop "sensor" sensor (viewerConfigs (user (state)) !! props_id (props c)) ;;
  if defined (renderer c) && isCurrentFrameLoaded state sensor
  then emit (RendererRender (camera c))
  else if defined (renderer c) then emit RendererClear
  else ret tt.

Definition updateRenderer : M unit :=
  c <- get_this ;;
  match canvas c, renderer c with
  | Some canvas, Some _ =>
      match getCurrentViewerConfig (state c) (props_id (props c)) with
      | Some config =>
          match type config with
          | POINT_CLOUD =>
              modify (fun w =>
                set_heap (<[camera c :=
                             updateThreeCameraAndRenderer config
                               (heap w (camera c)) canvas]> (heap w))
                         (next w) w) >>
              emit (UpdateThreeCameraAndRenderer (camera c))
          | IMAGE_3D =>
              let sensor := sensor config in
              match sensors_of (task (state c)) !! sensor with
              | Some s =>
                  let extrinsics := extrinsics s in
                  position_set (camera c) 0 0 0 >>
                  match extrinsics with
                  | Some extrinsics =>
                      quaternion_set (camera c)
                        (THREE.qx (rotation extrinsics))
                        (THREE.qy (rotation extrinsics))
                        (THREE.qz (rotation extrinsics))
                        (THREE.qw (rotation extrinsics)) >>
                      quaternion_multiply (camera c)
                        (THREE.setFromAxisAngle (THREE.mkVector3 1 0 0) PI) >>
                      position_set (camera c)
                        (THREE.vx (translation extrinsics))
                        (THREE.vy (translation extrinsics))
                        (THREE.vz (translation extrinsics))
                  | None => ret tt
                  end >>
                  emit (RendererSetSize (canvas_width canvas) (canvas_height canvas))
              | None => ret tt
              end
          | OTHER_VIEWER _ => ret tt
          end
      | None => ret tt
      end
  | _, _ => ret tt
  end.

Definition redraw : M bool :=
  c <- get_this ;;
  match canvas c with
  | Some _ =>
      sensor <- prop "sensor" sensor
                  (viewerConfigs (user (state c)) !! props_id (props c)) ;;
      if isCurrentFrameLoaded (state c) sensor
      then updateRenderer >> renderThree
      else if defined (renderer c) then emit RendererClear
      else ret tt
  | None => ret tt
  end >>
  ret true.


Definition onMouseDown (e : MouseEvent) : M unit :=
  c <- get_this ;;
  match canvas c with
  | None => ret tt
  | Some canvas =>
      frozen <- checkFreeze ;;
      if frozen then ret tt
      else
        let normalized :=
          normalizeCoordinatesToCanvas (clientX e) (clientY e) canvas in
        let NDC := convertMouseToNDC normalized.1 normalized.2 canvas in
        let x := NDC.1 in
        let y := NDC.2 in
        consumed <- handler_call (HandlerOnMouseDown x y)
                      (fun h => handler_onMouseDown h x y) ;;
        when consumed (emit StopPropagation)
  end.

Definition onMouseUp (e : MouseEvent) : M unit :=
  c <- get_this ;;
  match canvas c with
  | None => ret tt
  | Some _ =>
      frozen <- checkFreeze ;;
      if frozen then ret tt
      else
        consumed <- handler_call HandlerOnMouseUp handler_onMouseUp ;;
        when consumed (emit StopPropagation)
  end.

Definition onMouseMove (e : MouseEvent) : M unit :=
  c <- get_this ;;
  match canvas c with
  | None => ret tt
  | Some canvas =>
      frozen <- checkFreeze ;;
      if frozen then ret tt
      else
        let normalized :=
          normalizeCoordinatesToCanvas (clientX e) (clientY e) canvas in
        let newX := normalized.1 in
        let newY := normalized.2 in
        let NDC := convertMouseToNDC newX newY canvas in
        let x := NDC.1 in
        let y := NDC.2 in
        emit (CameraUpdateMatrixWorld (camera c) true) >>
        cam <- get_camera (camera c) ;;
        modify_this
          (fun c => set_raycaster
             (THREE.setFromCamera (THREE.mkVector2 x y) cam (_raycaster c)) c) >>
        emit (RaycasterSetFromCamera (THREE.mkVector2 x y) (camera c)) >>
        shapes <- gets (fun w =>
                    Session.raycastableShapes (Session.label3dList (session w))) ;;
        raycaster <- gets (fun w => _raycaster (this w)) ;;
        let intersects := intersectObjects raycaster shapes false in
        emit (IntersectObjects shapes false) >>
        consumed <-
          match intersects with
          | first :: _ =>
              handler_call (HandlerOnMouseMove x y (Some first))
                (fun h => handler_onMouseMove h x y (Some first))
          | [] =>
              handler_call (HandlerOnMouseMove x y None)
                (fun h => handler_onMouseMove h x y None)
          end ;;
        when consumed (emit StopPropagation) >>
        emit OnDrawableUpdate
  end.

Definition onKeyDown (e : KeyboardEvent) : M unit :=
  frozen <- checkFreeze ;;
  active <- gets (fun w => Session.activeViewerId (session w)) ;;
  c <- get_this ;;
  if frozen || negb (bool_decide (active = props_id (props c))) then ret tt
  else
    modify_this (fun c => set_keyDownMap (<[key e := true]> (_keyDownMap c)) c) >>
    changed <- handler_call (HandlerOnKeyDown e) (fun h => handler_onKeyDown h e) ;;
    when changed (emit OnDrawableUpdate).

Definition onKeyUp (e : KeyboardEvent) : M unit :=
  frozen <- checkFreeze ;;
  active <- gets (fun w => Session.activeViewerId (session w)) ;;
  c <- get_this ;;
  if frozen || negb (bool_decide (active = props_id (props c))) then ret tt
  else
    modify_this (fun c => set_keyDownMap (<[key e := true]> (_keyDownMap c)) c) >>
    changed <- handler_call (HandlerOnKeyUp e) (fun h => handler_onKeyUp h e) ;;
    when changed (emit OnDrawableUpdate).

Definition onDoubleClick (e : MouseEvent) : M unit :=
  consumed <- handler_call HandlerOnDoubleClick handler_onDoubleClick ;;
  when consumed (emit StopPropagation).

(** The layer given to the camera by [updateState]:
    [this.props.id - Math.min(...Object.keys(viewerConfigs).map(Number))]. *)
Definition layer_channel (id : Z) (configs : gmap Z ViewerConfigType) : jsnum :=
  js_sub id (Math_min (keys_as_numbers configs)).

(** [this.state], as read inside a method that has a parameter [state]. *)
Definition this_state (c : t) : State := state c.

Definition updateState (state : State) : M unit :=
  c <- get_this ;;
  when (negb (bool_decide (display c = props_display (props c))))
    (modify_this (set_display (props_display (props c))) >>
     emit ForceUpdate) >>
  c <- get_this ;;
  let id := props_id (props c) in
  layers_set (camera c)
    (layer_channel id (viewerConfigs (user (this_state c)))) >>
  let item_ := js_index (items (task state)) (item (select (user state))) in
  let viewerConfig := viewerConfigs (user (this_state c)) !! id in
  sensorId <- prop "sensor" sensor viewerConfig ;;
  item_labels <- prop "labels" labels item_ ;;
  label3dList <- gets (fun w => Session.label3dList (session w)) ;;
  for_of item_labels (fun '(label_id, label) =>
    when (bool_decide (sensorId ∈ sensors label))
      match Session.shapes_of label3dList !! label_id with
      | Some shapes =>
          for_of shapes (fun shape => emit (ShapeLayersEnable shape id))
      | None => ret tt
      end) >>
  when (bool_decide (is_Some (viewerConfigs (user (this_state c)) !! id)))
    (ty <- prop "type" type viewerConfig ;;
     (if bool_decide (ty = IMAGE_3D) then
        vsensor <- prop "sensor" sensor viewerConfig ;;
        when (bool_decide (is_Some (sensors_of (task (this_state c)) !! vsensor)))
          (let sensor_ := sensors_of (task (this_state c)) !! sensorId in
           intr <- prop "intrinsics" intrinsics sensor_ ;;
           match intr with
           | Some intr =>
               if isCurrentFrameLoaded state vsensor then
                 images_item <- gets (fun w =>
                   js_index (Session.images (session w))
                            (item (select (user state)))) ;;
                 image <- prop "[sensor]" (fun m => m !! vsensor) images_item ;;
                 width <- prop "width" image_width image ;;
                 height <- prop "height" image_height image ;;
                 cam <- new_camera (THREE.IntrinsicCamera intr width height) ;;
                 modify_this (set_camera cam)
               else ret tt
           | None => ret tt
           end)
      else
        cam <- new_camera generic_projection ;;
        modify_this (set_camera cam)) >>
     modify_this (fun c =>
       set_labelHandler
         (mkHandler (camera c) (handler_state (_labelHandler c))) c) >>
     c <- get_this ;;
     emit (HandlerSetCamera (camera c))) >>
  active <- gets (fun w => Session.activeViewerId (session w)) ;;
  c <- get_this ;;
  when (bool_decide (active = id)) (emit (SetActiveCamera (camera c))) >>
  modify_this (fun c =>
    set_labelHandler
      (mkHandler (handler_camera (_labelHandler c))
         (handler_updateState (handler_state (_labelHandler c))
            state (item (select (user state))) id)) c) >>
  emit (HandlerUpdateState state (item (select (user state))) id).

(** *** What a run of a method leaves behind *)

Definition completion {A : Type} (r : Completion A * World * list Effect)
  : Completion A := r.1.1.
Definition world_after {A : Type} (r : Completion A * World * list Effect)
  : World := r.1.2.
Definition log_of {A : Type} (r : Completion A * World * list Effect)
  : list Effect := r.2.

(** [post m Q w]: the run of [m] from [w] satisfies [Q]. *)
Definition post {A : Type} (m : M A)
    (Q : Completion A -> World -> list Effect -> Prop) (w : World) : Prop :=
  Q (completion (m w)) (world_after (m w)) (log_of (m w)).

(** The shapes whose layer [updateState] enables: those of the labels of the
    item that are seen by the sensor and are known to the registry. *)
Definition enabled_shapes (sensorId : Z) (registry : Session.Label3DList)
    (item_labels : list (Z * LabelType)) : list nat :=
  flat_map (fun '(label_id, label) =>
    if bool_decide (sensorId ∈ sensors label)
    then default [] (Session.shapes_of registry !! label_id)
    else []) item_labels.

(** [Session.images[state.user.select.item][sensor]], when both lookups
    find something. *)
Definition image_of (s : Session.t) (st : State) (sensorId : Z)
  : option HTMLImageElement :=
  js_index (Session.images s) (item (select (user st))) ≫= (.!! sensorId).

(** *** The life of a viewer *)

(** The operations of a viewer that are embedded above. *)
Inductive Operation : Type :=
| ComponentDidMount
| ComponentWillUnmount
| Redraw
| RenderThree
| UpdateState (state : State)
| OnMouseDown (e : MouseEvent)
| OnMouseUp (e : MouseEvent)
| OnMouseMove (e : MouseEvent)
| OnDoubleClick (e : MouseEvent)
| OnKeyDown (e : KeyboardEvent)
| OnKeyUp (e : KeyboardEvent).

Definition perform (op : Operation) : M unit :=
  match op with
  | ComponentDidMount => componentDidMount
  | ComponentWillUnmount => componentWillUnmount
  | Redraw => redraw >> ret tt
  | RenderThree => renderThree
  | UpdateState state => updateState state
  | OnMouseDown e => onMouseDown e
  | OnMouseUp e => onMouseUp e
  | OnMouseMove e => onMouseMove e
  | OnDoubleClick e => onDoubleClick e
  | OnKeyDown e => onKeyDown e
  | OnKeyUp e => onKeyUp e
  end.

(** What happens around the viewer: the session and the freeze condition
    change. *)
Definition set_environment (s : Session.t) (fz : bool) (w : World) : World :=
  mkWorld (this w) s (heap w) (next w) fz.

(** The worlds a viewer can be in: it is constructed, its operations run,
    its environment changes, the base class stores a snapshot, a canvas is
    attached or detached. *)
Inductive reachable : World -> Prop :=
| reachable_constructor inst p st s fz h n :
    reachable (constructor inst p st s fz h n)
| reachable_perform w op :
    reachable w -> reachable (world_after (perform op w))
| reachable_environment w s fz :
    reachable w -> reachable (set_environment s fz w)
| reachable_state w st :
    reachable w -> reachable (set_this (set_state st (this w)) w)
| reachable_canvas w cv r :
    reachable w -> reachable (set_this (set_canvas cv r (this w)) w).

(** The raycaster keeps the parameters the constructor gave it, and the
    cameras the viewer and its label handler refer to are allocated. *)
Definition invariant (w : World) : Prop :=
  THREE.near (_raycaster (this w)) = 1%R
  /\ THREE.far (_raycaster (this w)) = 100%R
  /\ THREE.linePrecision (_raycaster (this w)) = (2 / 100)%R
  /\ (camera (this w) < next w)%nat
  /\ (handler_camera (_labelHandler (this w)) < next w)%nat.

(** The calls of one mount and of one unmount of instance [inst]. *)
Definition mount_log (inst : nat) : list Effect :=
  [SuperComponentDidMount;
   AddEventListener "keydown" (KeyDownListener inst);
   AddEventListener "keyup" (KeyUpListener inst);
   Subscribe (DrawableUpdateCallback inst)].

Definition unmount_log (inst : nat) : list Effect :=
  [SuperComponentWillUnmount;
   RemoveEventListener "keydown" (KeyDownListener inst);
   RemoveEventListener "keyup" (KeyUpListener inst);
   Unsubscribe (DrawableUpdateCallback inst)].

(** [n] mount/unmount cycles of the instance. *)
Fixpoint mount_cycles (n : nat) : M unit :=
  match n with
  | O => ret tt
  | S n' => componentDidMount >> componentWillUnmount >> mount_cycles n'
  end.

End Canvas.
End Label3dCanvas.

(** ** The document and the scene-update channel *)

(** The listeners registered on the document and the callbacks subscribed to
    the scene-update channel of the registry. *)
Record Registrations : Type := mkRegistrations
  { listeners : list (string * Listener);
    callbacks : list Listener }.

(** Removal of the first occurrence: [indexOf] followed by [splice]. *)
Fixpoint remove_first `{EqDecision A} (x : A) (l : list A) : list A :=
  match l with
  | [] => []
  | y :: l' => if decide (x = y) then l' else y :: remove_first x l'
  end.

(** [document.addEventListener] does not register twice a listener that is
    already registered for the type; [removeEventListener] removes it.

    Modelled from the spec: [Label3DList] is not among the sources; its
    channel is "a publish/subscribe channel with subscribe(callback) /
    unsubscribe(callback)": [subscribe] adds a registration of the callback
    and [unsubscribe] removes one. *)
Definition register (r : Registrations) (ev : Effect) : Registrations :=
  match ev with
  | AddEventListener ty l =>
      if bool_decide ((ty, l) ∈ listeners r) then r
      else mkRegistrations (listeners r ++ [(ty, l)]) (callbacks r)
  | RemoveEventListener ty l =>
      mkRegistrations (remove_first (ty, l) (listeners r)) (callbacks r)
  | Subscribe cb => mkRegistrations (listeners r) (callbacks r ++ [cb])
  | Unsubscribe cb =>
      mkRegistrations (listeners r) (remove_first cb (callbacks r))
  | _ => r
  end.

Definition registrations_after (r : Registrations) (log : list Effect)
  : Registrations :=
  foldl register r log.

(** An instance none of whose closures is registered. *)
Definition unregistered (inst : nat) (r : Registrations) : Prop :=
  (("keydown", KeyDownListener inst) ∉ listeners r)
  /\ (("keyup", KeyUpListener inst) ∉ listeners r)
  /\ (DrawableUpdateCallback inst ∉ callbacks r).

(** How many times a closure is registered. *)
Definition times_registered `{EqDecision A} (x : A) (l : list A) : nat :=
  length (filter (fun y => y = x) l).

(** ** Concrete collaborators, states and worlds used in examples *)

Module Fixtures.

(** Objects sit on the ray at a distance equal to their number; the
    intersection sorts the hits by distance, as three.js does. *)
Fixpoint insert_hit (h : nat) (l : list nat) : list nat :=
  match l with
  | [] => [h]
  | x :: l' => if (h <=? x)%nat then h :: l else x :: insert_hit h l'
  end.

Definition hit (n : nat) : THREE.Intersection :=
  THREE.mkIntersection (IZR (Z.of_nat n)) n.

(** A label handler that counts the calls it receives and consumes every
    event. *)
Definition counting : Collaborators :=
  {| HandlerState := nat;
     handler_onMouseDown h _ _ := (S h, true);
     handler_onMouseUp h := (S h, true);
     handler_onMouseMove h _ _ _ := (S h, true);
     handler_onDoubleClick h := (S h, true);
     handler_onKeyDown h _ := (S h, true);
     handler_onKeyUp h _ := (S h, true);
     handler_updateState h _ _ _ := S h;
     handler_new := O;
     convertMouseToNDC x y _ := (x, y);
     intersectObjects _ shapes _ := hit <$> foldr insert_hit [] shapes;
     updateThreeCameraAndRenderer _ c _ := c |}.

Definition intrinsics0 : THREE.IntrinsicsType :=
  THREE.mkIntrinsics (THREE.mkVector2 700 700) (THREE.mkVector2 320 240).

Definition extrinsics0 : ExtrinsicsType :=
  mkExtrinsics (THREE.mkQuaternion 0 0 0 1) (THREE.mkVector3 1 2 3).

(** Viewer 0 shows sensor 0 as an image with intrinsics, viewer 1 shows
    sensor 1 as a point cloud; item 0 is selected. *)
Definition state_with (loaded : Z -> bool) : State :=
  {| task :=
       {| items := [mkItem [(0, mkLabel [0])]];
          sensors_of :=
            {[ 0 := mkSensor (Some intrinsics0) (Some extrinsics0);
               1 := mkSensor None None ]} |};
     user :=
       {| select := mkSelect 0;
          viewerConfigs :=
            {[ 0 := mkViewerConfig IMAGE_3D 0 1;
               1 := mkViewerConfig POINT_CLOUD 1 1 ]} |};
     frameLoaded := loaded |}.

Definition state_loaded : State := state_with (fun _ => true).
Definition state_unloaded : State := state_with (fun _ => false).

(** The same snapshot with no item selected. *)
Definition state_no_item : State :=
  {| task := task state_loaded;
     user := {| select := mkSelect (-1);
                viewerConfigs := viewerConfigs (user state_loaded) |};
     frameLoaded := fun _ => true |}.

Definition session0 (active : Z) : Session.t :=
  {| Session.status := Session.UNSAVED;
     Session.keyDownMap := ∅;
     Session.images := [ {[ 0 := mkImage 640 480 ]} ];
     Session.label3dList :=
       {| Session.shapes_of := {[ 0 := [5; 2; 8]%nat ]};
          Session.raycastableShapes := [5; 2; 8]%nat |};
     Session.activeViewerId := active |}.

Definition heap0 : nat -> THREE.Camera :=
  fun _ => THREE.Camera_new (THREE.PerspectiveCamera 0 0 0 0).

(** A freshly constructed viewer [id] with state [st]; viewer 0 is the
    active viewer. *)
Definition fresh (id : Z) (st : State) (fz : bool)
  : Label3dCanvas.World (C := counting) :=
  Label3dCanvas.constructor (C := counting) 7 (Label3dCanvas.mkProps None id)
    st (session0 0) fz heap0 0.

(** The same viewer once the base class has stored the snapshot [st]. *)
Definition with_state (st : State) (w : Label3dCanvas.World (C := counting))
  : Label3dCanvas.World (C := counting) :=
  Label3dCanvas.set_this
    (Label3dCanvas.set_state st (Label3dCanvas.this w)) w.

Definition canvas0 : HTMLCanvasElement := mkCanvas 0 10 20 640 480.

(** The same viewer once a canvas is attached and its renderer created. *)
Definition attached (w : Label3dCanvas.World (C := counting))
  : Label3dCanvas.World (C := counting) :=
  Label3dCanvas.set_this
    (Label3dCanvas.set_canvas (Some canvas0) (Some O) (Label3dCanvas.this w)) w.

(** Viewer 0 after a reconciliation with its frame loaded, then told that
    the frame is no longer loaded. *)
Definition unloaded_after_loaded : Label3dCanvas.World (C := counting) :=
  with_state state_unloaded
    (Label3dCanvas.world_after
       (Label3dCanvas.updateState state_loaded (fresh 0 state_loaded false))).

End Fixtures.

(** ** Sequences of events and further selectors *)

(** A keyboard event as the session receives it. *)
Inductive KeyEvent : Type :=
| KeyDown (e : KeyboardEvent)
| KeyUp (e : KeyboardEvent).

Definition session_key (s : Session.t) (ev : KeyEvent)
  : Session.t * list Session.Call :=
  match ev with
  | KeyDown e => Session.onKeyDown s e
  | KeyUp e => Session.onKeyUp s e
  end.

(** The session after a sequence of keyboard events, with the calls made to
    the callback, in order. *)
Fixpoint session_keys (s : Session.t) (evs : list KeyEvent)
  : Session.t * list Session.Call :=
  match evs with
  | [] => (s, [])
  | ev :: evs' =>
      let r := session_key s ev in
      let r' := session_keys r.1 evs' in
      (r'.1, r.2 ++ r'.2)
  end.

(** The shapes whose layer is enabled, with the layer. *)
Definition shape_enabled (ev : Effect) : option (nat * Z) :=
  match ev with ShapeLayersEnable s ch => Some (s, ch) | _ => None end.

(** The requests for a forced update of the component. *)
Definition forced_update (ev : Effect) : option unit :=
  match ev with ForceUpdate => Some tt | _ => None end.

(** The requests to stop the propagation of the event. *)
Definition propagation_stopped (ev : Effect) : option unit :=
  match ev with StopPropagation => Some tt | _ => None end.

(** The announcements of a change of the drawables. *)
Definition drawable_update (ev : Effect) : option unit :=
  match ev with OnDrawableUpdate => Some tt | _ => None end.

(** The refreshes of the world matrix of a camera ([updateMatrixWorld]),
    with the camera and the [force] argument. *)
Definition matrix_updated (ev : Effect) : option (nat * bool) :=
  match ev with
  | CameraUpdateMatrixWorld c force => Some (c, force)
  | _ => None
  end.

(** The calls that set the pose, the layers or the projection parameters of
    a camera, with the camera. *)
Definition camera_set (ev : Effect) : option nat :=
  match ev with
  | CameraPositionSet c _ | CameraQuaternionSet c _
  | CameraQuaternionMultiply c _ | CameraLayersSet c _
  | UpdateThreeCameraAndRenderer c => Some c
  | _ => None
  end.

(** ** Further conditions on a viewer *)

(** Every key recorded in a key-down map reads as down. *)
Definition all_down (m : gmap string bool) : Prop :=
  map_Forall (fun _ v => v = true) m.

(** The six input handlers among the operations. *)
Definition is_input_handler (op : Label3dCanvas.Operation) : bool :=
  match op with
  | Label3dCanvas.OnMouseDown _ | Label3dCanvas.OnMouseUp _
  | Label3dCanvas.OnMouseMove _ | Label3dCanvas.OnDoubleClick _
  | Label3dCanvas.OnKeyDown _ | Label3dCanvas.OnKeyUp _ => true
  | _ => false
  end.

(** What [updateState] needs in order to complete: the viewer is configured,
    the selected item exists and, where an intrinsics camera is to be built,
    the image of the item for the sensor is in the session. *)
Definition reconcilable `{C : Collaborators}
    (w : Label3dCanvas.World) (st : State) : Prop :=
  exists vc it,
    viewerConfigs (user (Label3dCanvas.state (Label3dCanvas.this w)))
      !! Label3dCanvas.props_id (Label3dCanvas.props (Label3dCanvas.this w))
      = Some vc
    /\ js_index (items (task st)) (item (select (user st))) = Some it
    /\ (type vc = IMAGE_3D ->
        forall s intr,
          sensors_of (task (Label3dCanvas.state (Label3dCanvas.this w)))
            !! sensor vc = Some s ->
          intrinsics s = Some intr ->
          isCurrentFrameLoaded st (sensor vc) = true ->
          is_Some (Label3dCanvas.image_of (Label3dCanvas.session w) st (sensor vc))).

(** The closures of an instance, and the registration calls that concern
    them. *)
Definition closures_of (inst : nat) : list Listener :=
  [KeyDownListener inst; KeyUpListener inst; DrawableUpdateCallback inst].

Definition registration_of (inst : nat) (ev : Effect) : Prop :=
  match ev with
  | AddEventListener _ l | RemoveEventListener _ l
  | Subscribe l | Unsubscribe l => l ∈ closures_of inst
  | _ => True
  end.

(** ** Attaching the canvas: [initializeRefs] *)

(** Modelled from the spec: the code that [initializeRefs] calls and that is
    not among the sources.  The two bounds on the view scale and the
    rescaling of the canvas (the external scale-update routine, keyed by the
    ratio of the new scale to the previous one), which gives back the canvas
    as it has resized it and the new scale (the first and the fourth
    component of its result at the call site); and the bounding rectangle
    (width, height) of the display element.  Nothing is assumed of them. *)
Class Layout : Type := mkLayout
  { MIN_SCALE : R;
    MAX_SCALE : R;
    updateCanvasScale :
      State -> nat -> HTMLCanvasElement -> ViewerConfigType -> R ->
      HTMLCanvasElement * R;
    displayRect : nat -> R * R }.

Module Attachment.
Import Label3dCanvas.

(** The node React hands to the ref callback, with its node name. *)
Record ComponentRef : Type := mkComponentRef
  { node : HTMLCanvasElement; nodeName : string }.

(** The calls of [initializeRefs]: those of the methods it runs, the
    creation of a renderer for a canvas, the removal of the inline style of
    the canvas and the rescaling of the canvas in its display. *)
Inductive RefCall : Type :=
| Made (ev : Effect)
| NewWebGLRenderer (canvas : nat) (alpha antialias : bool)
| RemoveStyleAttribute (canvas : nat)
| UpdateCanvasScale (display canvas : nat) (zoomRatio : R) (upRes : bool).

Definition renderer_created (c : RefCall) : option nat :=
  match c with NewWebGLRenderer cv _ _ => Some cv | _ => None end.

Fixpoint collect_calls {B : Type} (f : RefCall -> option B) (log : list RefCall)
  : list B :=
  match log with
  | [] => []
  | c :: log' =>
      match f c with
      | Some b => b :: collect_calls f log'
      | None => collect_calls f log'
      end
  end.

Section Refs.
Context `{C : Collaborators} `{L : Layout}.

Definition set_scale (x : R) (c : t) : t :=
  mk (instance c) (props c) (state c) (canvas c) (display c) x (renderer c)
     (camera c) (_raycaster c) (_keyDownMap c) (_labelHandler c).

Definition set_canvas_size (width height : R) (cv : HTMLCanvasElement)
  : HTMLCanvasElement :=
  mkCanvas (canvas_node cv) (rect_left cv) (rect_top cv) width height.

(** The element [cv] with the geometry that a call left it. *)
Definition same_node (cv geometry : HTMLCanvasElement) : HTMLCanvasElement :=
  mkCanvas (canvas_node cv) (rect_left geometry) (rect_top geometry)
    (canvas_width geometry) (canvas_height geometry).

(** The monad of [initializeRefs]: as [M], with the wider log. *)
Definition M2 (A : Type) : Type :=
  World -> Completion A * World * list RefCall.

Definition ret2 {A : Type} (a : A) : M2 A := fun w => (Normal a, w, []).

Definition bind2 {A B : Type} (m : M2 A) (k : A -> M2 B) : M2 B := fun w =>
  match m w with
  | (Normal a, w1, l1) =>
      match k a w1 with (r, w2, l2) => (r, w2, l1 ++ l2) end
  | (Throw e, w1, l1) => (Throw e, w1, l1)
  end.

Definition lift {A : Type} (m : M A) : M2 A := fun w =>
  match m w with (r, w', l) => (r, w', Made <$> l) end.

Definition call (c : RefCall) : M2 unit := fun w => (Normal tt, w, [c]).

Notation "x <- c1 ;; c2" := (bind2 c1 (fun x => c2))
  (at level 20, c1 at level 99, c2 at level 200, only parsing).
Notation "c1 >> c2" := (bind2 c1 (fun _ => c2))
  (at level 100, c2 at level 200, only parsing, right associativity).

(** [post2 m Q w]: the run of [m] from [w] satisfies [Q]. *)
Definition post2 {A : Type} (m : M2 A)
    (Q : Completion A -> World -> list RefCall -> Prop) (w : World) : Prop :=
  Q (m w).1.1 (m w).1.2 (m w).2.

(** [this.canvas !== component], on the identity of the nodes. *)
Definition other_element (cv : option HTMLCanvasElement) (component : ComponentRef)
  : bool :=
  match cv with
  | Some c => negb (bool_decide (canvas_node c = canvas_node (node component)))
  | None => true
  end.

(** [a >= b] and [a < b] on numbers. *)
Definition geb (a b : R) : bool := if Rle_dec b a then true else false.
Definition ltb (a b : R) : bool := if Rlt_dec a b then true else false.

Definition initializeRefs (component : option ComponentRef) : M2 unit :=
  c <- lift get_this ;;
  sensor <- lift (prop "sensor" sensor
                    (viewerConfigs (user (state c)) !! props_id (props c))) ;;
  match component with
  | None => ret2 tt
  | Some component =>
      if negb (isCurrentFrameLoaded (state c) sensor) then ret2 tt
      else if bool_decide (nodeName component = "CANVAS") then
        (if other_element (canvas c) component then
           lift (modify_this
                   (set_canvas (Some (node component))
                      (Some (canvas_node (node component))))) >>
           call (NewWebGLRenderer (canvas_node (node component)) true true) >>
           call (Made ForceUpdate)
         else ret2 tt) >>
        c <- lift get_this ;;
        let viewerConfig :=
          getCurrentViewerConfig (state c) (props_id (props c)) in
        match canvas c, display c with
        | Some cv, Some d =>
            config <- lift (prop "type" (fun x => x) viewerConfig) ;;
            if bool_decide (type config = IMAGE_3D) then
              let img3dConfig := config in
              if geb (viewScale img3dConfig) MIN_SCALE
                 && ltb (viewScale img3dConfig) MAX_SCALE then
                let zoomRatio := (viewScale img3dConfig / scale c)%R in
                let newParams :=
                  updateCanvasScale (state c) d cv img3dConfig zoomRatio in
                call (UpdateCanvasScale d (canvas_node cv) zoomRatio false) >>
                lift (modify_this
                        (fun c => set_scale newParams.2
                                    (set_canvas (Some (same_node cv newParams.1))
                                       (renderer c) c)))
              else ret2 tt
            else
              call (RemoveStyleAttribute (canvas_node cv)) >>
              let displayRect := displayRect d in
              lift (modify_this
                      (fun c =>
                         set_canvas
                           (Some (set_canvas_size displayRect.1 displayRect.2 cv))
                           (renderer c) c))
        | None, Some _ =>
            lift (throw (TypeError "removeAttribute"))
        | _, None => ret2 tt
        end >>
        lift updateRenderer
      else ret2 tt
  end.

(** The worlds of a viewer whose canvas is attached by [initializeRefs]
    only. *)
Inductive attachable : World -> Prop :=
| attachable_constructor inst p st s fz h n :
    attachable (constructor inst p st s fz h n)
| attachable_perform w op :
    attachable w -> attachable (world_after (perform op w))
| attachable_initializeRefs w component :
    attachable w -> attachable (initializeRefs component w).1.2
| attachable_environment w s fz :
    attachable w -> attachable (set_environment s fz w)
| attachable_state w st :
    attachable w -> attachable (set_this (set_state st (this w)) w).

End Refs.
End Attachment.



(** ** Further concrete viewers *)

Module Scenes.

(** As [Fixtures.state_loaded], with a viewer 2 that shows sensor 1, which
    has neither intrinsics nor extrinsics, as an image. *)
Definition state_more : State :=
  {| task := task Fixtures.state_loaded;
     user :=
       {| select := mkSelect 0;
          viewerConfigs :=
            <[ 2 := mkViewerConfig IMAGE_3D 1 1 ]>
              (viewerConfigs (user Fixtures.state_loaded)) |};
     frameLoaded := fun _ => true |}.

(** A freshly constructed viewer [id] with state [st] that is given the
    display element 3, and the same viewer after a first reconciliation. *)
Definition with_display (id : Z) (st : State)
  : Label3dCanvas.World (C := Fixtures.counting) :=
  Label3dCanvas.constructor (C := Fixtures.counting) 7
    (Label3dCanvas.mkProps (Some 3%nat) id) st (Fixtures.session0 0) false
    Fixtures.heap0 0.


(** The canvas node that React hands to the ref callback. *)
Definition component0 : Attachment.ComponentRef :=
  Attachment.mkComponentRef Fixtures.canvas0 "CANVAS".

(** A layout whose rescaling multiplies the size of the canvas by the zoom
    ratio, and whose display elements measure 800 by 600. *)
Definition layout0 : Layout :=
  {| MIN_SCALE := 1;
     MAX_SCALE := 5;
     updateCanvasScale _ _ cv _ zoom :=
       (mkCanvas (canvas_node cv) (rect_left cv) (rect_top cv)
          (canvas_width cv * zoom) (canvas_height cv * zoom), zoom);
     displayRect _ := (800, 600)%R |}.

End Scenes.

(** * Properties *)

(** ** session.ts: the key handlers *)

Lemma Session_onKeyUp_clears (s : Session.t) (e : KeyboardEvent) :
  Session.isKeyDown (Session.onKeyUp s e).1 (key e) = None.
Proof.
  unfold Session.isKeyDown, Session.onKeyUp; simpl.
  apply lookup_delete_eq.
Qed.

Lemma Session_onKeyUp_other (s : Session.t) (e : KeyboardEvent) (k : string) :
  k ≠ key e ->
  Session.isKeyDown (Session.onKeyUp s e).1 k = Session.isKeyDown s k.
Proof.
  intros Hk. unfold Session.isKeyDown, Session.onKeyUp; simpl.
  by apply lookup_delete_ne.
Qed.

Lemma Session_onKeyDown_marks (s : Session.t) (e : KeyboardEvent) :
  Session.status s ≠ Session.RECONNECTING ->
  Session.onKeyDown s e =
    (Session.set_keyDownMap (<[key e := true]> (Session.keyDownMap s)) s,
     [Session.Callback e]).
Proof.
  intros Hs. unfold Session.onKeyDown.
  destruct (decide (Session.status s = Session.RECONNECTING)); [done | reflexivity].
Qed.

(** C10: once the status is RECONNECTING a key-down leaves the session as
    it is and does not call the callback; a key-up, whatever the status,
    removes the key from the key-down map, calls the callback with the event
    and leaves the status alone, so that the key no longer reads as down. *)
Theorem C10_session_key_handlers_gating
    (s : Session.t) (st : Session.ConnectionStatus) (e : KeyboardEvent) :
  let reconnecting := (Session.updateStatus s Session.RECONNECTING).1.2 in
  let any := (Session.updateStatus s st).1.2 in
  Session.status reconnecting = Session.RECONNECTING
  /\ Session.onKeyDown reconnecting e = (reconnecting, [])
  /\ Session.status any = st
  /\ Session.onKeyUp any e =
       (Session.set_keyDownMap (delete (key e) (Session.keyDownMap any)) any,
        [Session.Callback e])
  /\ Session.status (Session.onKeyUp any e).1 = st
  /\ Session.isKeyDown (Session.onKeyUp any e).1 (key e) = None
  /\ truthy (Session.isKeyDown (Session.onKeyUp any e).1 (key e)) = false.
Proof.
  intros reconnecting any.
  split; [reflexivity |]. split; [reflexivity |]. split; [reflexivity |].
  split; [reflexivity |]. split; [reflexivity |].
  pose proof (Session_onKeyUp_clears any e) as Hc.
  split; [exact Hc |]. by rewrite Hc.
Qed.

(** ** [Math.min] on the configured viewer ids *)

Lemma Math_min_spec (l : list Z) :
  match Math_min l with
  | Num m => m ∈ l /\ forall k, k ∈ l -> m <= k
  | PosInfinity => l = []
  | NegInfinity => False
  end.
Proof.
  induction l as [| x l IH]; simpl; [done |].
  destruct (Math_min l) as [m | |]; simpl.
  - destruct IH as [Hm Hle]. split.
    + destruct (Z.min_spec x m) as [[_ ->] | [_ ->]]; set_solver.
    + intros k [-> | Hk]%elem_of_cons; [lia |].
      specialize (Hle k Hk). lia.
  - subst l. split; [set_solver |].
    intros k [-> | Hk]%elem_of_cons; [lia | set_solver].
  - done.
Qed.

Lemma Math_min_least (l : list Z) (m : Z) :
  m ∈ l -> (forall k, k ∈ l -> m <= k) -> Math_min l = Num m.
Proof.
  intros Hm Hle. pose proof (Math_min_spec l) as Hs.
  destruct (Math_min l) as [m' | |].
  - destruct Hs as [Hm' Hle']. f_equal.
    specialize (Hle m' Hm'). specialize (Hle' m Hm). lia.
  - subst l. set_solver.
  - done.
Qed.

Lemma Math_min_same_elements (l l' : list Z) :
  (forall k, k ∈ l <-> k ∈ l') -> Math_min l = Math_min l'.
Proof.
  intros Heq. pose proof (Math_min_spec l) as Hs.
  destruct (Math_min l) as [m | |].
  - destruct Hs as [Hm Hle]. symmetry. apply Math_min_least.
    + by apply Heq.
    + intros k Hk. apply Hle. by apply Heq.
  - subst l. destruct l' as [| x l']; [done |].
    exfalso. apply (not_elem_of_nil x), Heq, list_elem_of_here.
  - done.
Qed.

Lemma elem_of_keys_as_numbers {A : Type} (o : gmap Z A) (k : Z) :
  k ∈ keys_as_numbers o <-> k ∈ dom o.
Proof.
  unfold keys_as_numbers. rewrite elem_of_dom. split.
  - intros ((k' & a) & -> & Hin)%list_elem_of_fmap.
    apply elem_of_map_to_list in Hin. eauto.
  - intros [a Ha]. apply list_elem_of_fmap. exists (k, a).
    split; [done |]. by apply elem_of_map_to_list.
Qed.

(** ** The [Label3dCanvas] component *)

Import Label3dCanvas.

Lemma layer_channel_least (id m : Z) (configs : gmap Z ViewerConfigType) :
  m ∈ dom configs -> (forall k, k ∈ dom configs -> m <= k) ->
  layer_channel id configs = Num (id - m).
Proof.
  intros Hm Hle. unfold layer_channel.
  rewrite (Math_min_least _ m); [done | |].
  - by apply elem_of_keys_as_numbers.
  - intros k Hk. apply Hle. by apply elem_of_keys_as_numbers.
Qed.

Lemma layer_channel_dom (id : Z) (configs configs' : gmap Z ViewerConfigType) :
  dom configs = dom configs' ->
  layer_channel id configs = layer_channel id configs'.
Proof.
  intros Hdom. unfold layer_channel. f_equal.
  apply Math_min_same_elements. intros k.
  rewrite !elem_of_keys_as_numbers, Hdom. done.
Qed.

(** Unfolding of the monad, for symbolic execution of a method. *)
Ltac unfold_monad :=
  cbv beta delta [bind ret throw gets modify emit when get_this modify_this
                  checkFreeze handler_call prop get_camera camera_do
                  position_set quaternion_set quaternion_multiply layers_set
                  new_camera] in *.

Section Rules.
Context `{C : Collaborators}.

Lemma bind_normal {A B : Type} (m : M A) (k : A -> M B) w a w1 l1 r w2 l2 :
  m w = (Normal a, w1, l1) -> k a w1 = (r, w2, l2) ->
  bind m k w = (r, w2, l1 ++ l2).
Proof. intros Hm Hk. unfold bind. rewrite Hm, Hk. reflexivity. Qed.

Lemma post_bind {A B : Type} (m : M A) (k : A -> M B) Q w :
  post m (fun r w1 l1 =>
    match r with
    | Normal a => post (k a) (fun r' w2 l2 => Q r' w2 (l1 ++ l2)) w1
    | Throw e => Q (Throw e) w1 l1
    end) w ->
  post (bind m k) Q w.
Proof.
  unfold post, completion, world_after, log_of, bind.
  destruct (m w) as [[[a | e] w1] l1]; simpl; [| done].
  destruct (k a w1) as [[r w2] l2]; simpl. done.
Qed.

Lemma post_ret {A : Type} (a : A) (Q : _ -> _ -> _ -> Prop) w :
  Q (Normal a) w [] -> post (ret a) Q w.
Proof. done. Qed.

Lemma post_throw {A : Type} e (Q : Completion A -> _ -> _ -> Prop) w :
  Q (Throw e) w [] -> post (throw e) Q w.
Proof. done. Qed.

Lemma post_gets {A : Type} (f : World -> A) (Q : _ -> _ -> _ -> Prop) w :
  Q (Normal (f w)) w [] -> post (gets f) Q w.
Proof. done. Qed.

Lemma post_modify (f : World -> World) (Q : _ -> _ -> _ -> Prop) w :
  Q (Normal tt) (f w) [] -> post (modify f) Q w.
Proof. done. Qed.

Lemma post_emit ev (Q : _ -> _ -> _ -> Prop) w :
  Q (Normal tt) w [ev] -> post (emit ev) Q w.
Proof. done. Qed.

Lemma post_new_camera p (Q : _ -> _ -> _ -> Prop) w :
  Q (Normal (next w))
    (set_heap (<[next w := THREE.Camera_new p]> (heap w)) (S (next w)) w) [] ->
  post (new_camera p) Q w.
Proof. done. Qed.

Lemma post_of_run {A : Type} (m : M A) (Q : _ -> _ -> _ -> Prop) w r w' l :
  m w = (r, w', l) -> Q r w' l -> post m Q w.
Proof. intros Hm HQ. unfold post. rewrite Hm. done. Qed.

Lemma for_of_emit {A : Type} (f : A -> Effect) (l : list A) (w : World) :
  for_of l (fun x => emit (f x)) w = (Normal tt, w, f <$> l).
Proof.
  induction l as [| x l IH]; [reflexivity |].
  simpl. erewrite bind_normal; [| reflexivity | apply IH]. reflexivity.
Qed.

(** The loop of [updateState] over the labels of the item: it completes,
    changes nothing in the world and enables a layer on each shape of
    [enabled_shapes]. *)
Lemma enable_loop (sensorId id : Z) (registry : Session.Label3DList)
    (item_labels : list (Z * LabelType)) (w : World) :
  for_of item_labels (fun '(label_id, label) =>
    when (bool_decide (sensorId ∈ sensors label))
      match Session.shapes_of registry !! label_id with
      | Some shapes =>
          for_of shapes (fun shape => emit (ShapeLayersEnable shape id))
      | None => ret tt
      end) w
  = (Normal tt, w,
     (fun s => ShapeLayersEnable s id)
       <$> enabled_shapes sensorId registry item_labels).
Proof.
  induction item_labels as [| [label_id label] l IH]; [reflexivity |].
  simpl. erewrite bind_normal; [| | apply IH].
  - rewrite fmap_app. reflexivity.
  - unfold when. destruct (bool_decide _); [| reflexivity].
    destruct (Session.shapes_of registry !! label_id) as [shapes |]; simpl.
    + apply for_of_emit.
    + reflexivity.
Qed.

Lemma collect_app {B : Type} (f : Effect -> option B) (l1 l2 : list Effect) :
  collect f (l1 ++ l2) = collect f l1 ++ collect f l2.
Proof.
  induction l1 as [| ev l1 IH]; [reflexivity |].
  simpl. destruct (f ev); simpl; by rewrite IH.
Qed.

Lemma collect_none {A B : Type} (f : Effect -> option B) (g : A -> Effect)
    (l : list A) :
  (forall a, f (g a) = None) -> collect f (g <$> l) = [].
Proof.
  intros Hf. induction l as [| a l IH]; [reflexivity |].
  simpl. by rewrite Hf.
Qed.

End Rules.

(** One step of symbolic execution of a method under [post]. *)
Ltac post_step :=
  lazymatch goal with
  | |- post (bind _ _) _ _ => apply post_bind
  | |- post (ret _) _ _ => apply post_ret
  | |- post (throw _) _ _ => apply post_throw
  | |- post (gets _) _ _ => apply post_gets
  | |- post get_this _ _ => apply post_gets
  | |- post checkFreeze _ _ => apply post_gets
  | |- post (get_camera _) _ _ => apply post_gets
  | |- post (modify _) _ _ => apply post_modify
  | |- post (modify_this _) _ _ => apply post_modify
  | |- post (emit _) _ _ => apply post_emit
  | |- post (new_camera _) _ _ => apply post_new_camera
  | |- post (for_of _ _) _ _ =>
      first [ eapply post_of_run; [apply enable_loop |]
            | eapply post_of_run; [apply for_of_emit |] ]
  | |- post (when ?b _) _ _ => unfold when at 1
  | |- post (prop _ _ ?o) _ _ => unfold prop at 1
  | |- post (camera_do _ _ _) _ _ => unfold camera_do at 1
  | |- post (layers_set _ _) _ _ => unfold layers_set at 1
  | |- post (position_set _ _ _ _) _ _ => unfold position_set at 1
  | |- post (quaternion_set _ _ _ _ _) _ _ => unfold quaternion_set at 1
  | |- post (quaternion_multiply _ _) _ _ => unfold quaternion_multiply at 1
  | |- post (handler_call _ _) _ _ => unfold handler_call at 1
  | |- post updateRenderer _ _ => unfold updateRenderer at 1
  | |- post renderThree _ _ => unfold renderThree at 1
  | |- post redraw _ _ => unfold redraw at 1
  | |- post componentDidMount _ _ => unfold componentDidMount at 1
  | |- post componentWillUnmount _ _ => unfold componentWillUnmount at 1
  | |- post (updateState _) _ _ => unfold updateState, this_state
  | |- post (onMouseDown _) _ _ => unfold onMouseDown at 1
  | |- post (onMouseUp _) _ _ => unfold onMouseUp at 1
  | |- post (onMouseMove _) _ _ => unfold onMouseMove at 1
  | |- post (onDoubleClick _) _ _ => unfold onDoubleClick at 1
  | |- post (onKeyDown _) _ _ => unfold onKeyDown at 1
  | |- post (onKeyUp _) _ _ => unfold onKeyUp at 1
  | |- post (if ?b then _ else _) _ _ => destruct b eqn:?
  | |- post (match ?x with _ => _ end) _ _ => destruct x eqn:?
  | |- post (let _ := _ in _) _ _ => cbv zeta
  end; cbv beta iota.

Ltac post_run := repeat post_step.

(** Turn the recorded tests into propositions and use the equations. *)
Ltac tidy_once :=
  simpl in *;
  repeat match goal with
  | H : negb _ = true |- _ => apply negb_true_iff in H
  | H : negb _ = false |- _ => apply negb_false_iff in H
  | H : _ || _ = false |- _ => apply orb_false_elim in H; destruct H
  | H : _ && _ = true |- _ => apply andb_prop in H; destruct H
  | H : bool_decide _ = true |- _ => apply bool_decide_eq_true in H
  | H : bool_decide _ = false |- _ => apply bool_decide_eq_false in H
  | H : is_Some None |- _ => by destruct H
  | H : ¬ is_Some (Some _) |- _ => by destruct H
  | H : ?x = Some _, H' : ?x = _ |- _ => rewrite H in H'
  | H : ?x = true, H' : ?x = false |- _ => by rewrite H in H'
  end;
  simplify_eq; simpl in *.

Ltac tidy := tidy_once; tidy_once.

(** Evaluate a selector on a log made of appended pieces. *)
Ltac collect_log :=
  repeat (progress (cbn [collect app];
                    rewrite ?collect_app, ?collect_none by done));
  cbn [layer_assignment published handler_calls redraws is_handler_call
       is_redraw].

Section Handlers.
Context `{C : Collaborators}.

(** *** Freeze gating of the handlers that check it *)

Lemma onMouseDown_frozen (w : World) (e : MouseEvent) :
  freeze w = true -> onMouseDown e w = (Normal tt, w, []).
Proof.
  intros Hf. unfold onMouseDown. unfold_monad. simpl.
  destruct (canvas (this w)); [rewrite Hf |]; reflexivity.
Qed.

Lemma onMouseUp_frozen (w : World) (e : MouseEvent) :
  freeze w = true -> onMouseUp e w = (Normal tt, w, []).
Proof.
  intros Hf. unfold onMouseUp. unfold_monad. simpl.
  destruct (canvas (this w)); [rewrite Hf |]; reflexivity.
Qed.

Lemma onMouseMove_frozen (w : World) (e : MouseEvent) :
  freeze w = true -> onMouseMove e w = (Normal tt, w, []).
Proof.
  intros Hf. unfold onMouseMove. unfold_monad. simpl.
  destruct (canvas (this w)); [rewrite Hf |]; reflexivity.
Qed.

Lemma onKeyDown_frozen (w : World) (e : KeyboardEvent) :
  freeze w = true -> onKeyDown e w = (Normal tt, w, []).
Proof.
  intros Hf. unfold onKeyDown. unfold_monad. simpl.
  rewrite Hf. reflexivity.
Qed.

Lemma onKeyUp_frozen (w : World) (e : KeyboardEvent) :
  freeze w = true -> onKeyUp e w = (Normal tt, w, []).
Proof.
  intros Hf. unfold onKeyUp. unfold_monad. simpl.
  rewrite Hf. reflexivity.
Qed.

(** Under the freeze condition these five handlers make no call to the
    label handler and ask for no drawing. *)
Lemma frozen_handlers_silent (w : World) (e : MouseEvent) (k : KeyboardEvent) :
  freeze w = true ->
  Forall (fun r : Completion unit * World * list Effect =>
            world_after r = w
            /\ collect handler_calls (log_of r) = []
            /\ collect redraws (log_of r) = [])
    [onMouseDown e w; onMouseUp e w; onMouseMove e w;
     onKeyDown k w; onKeyUp k w].
Proof.
  intros Hf.
  rewrite onMouseDown_frozen, onMouseUp_frozen, onMouseMove_frozen,
    onKeyDown_frozen, onKeyUp_frozen by done.
  repeat constructor.
Qed.

(** The double-click handler calls the label handler whatever the freeze
    condition and whether or not a canvas is attached. *)
Lemma onDoubleClick_calls_handler (w : World) (e : MouseEvent) :
  exists w' l,
    onDoubleClick e w = (Normal tt, w', HandlerOnDoubleClick :: l)
    /\ handler_state (_labelHandler (this w')) =
         (handler_onDoubleClick (handler_state (_labelHandler (this w)))).1.
Proof.
  unfold onDoubleClick. unfold_monad. simpl.
  destruct (handler_onDoubleClick _) as [st []]; simpl; eauto.
Qed.

(** *** The key handlers of the canvas *)

Lemma onKeyDown_inactive (w : World) (e : KeyboardEvent) :
  Session.activeViewerId (session w) ≠ props_id (props (this w)) ->
  onKeyDown e w = (Normal tt, w, []).
Proof.
  intros Ha. unfold onKeyDown. unfold_monad. simpl.
  rewrite bool_decide_eq_false_2 by done.
  rewrite orb_true_r. reflexivity.
Qed.

Lemma onKeyUp_inactive (w : World) (e : KeyboardEvent) :
  Session.activeViewerId (session w) ≠ props_id (props (this w)) ->
  onKeyUp e w = (Normal tt, w, []).
Proof.
  intros Ha. unfold onKeyUp. unfold_monad. simpl.
  rewrite bool_decide_eq_false_2 by done.
  rewrite orb_true_r. reflexivity.
Qed.

(** A key-up that is let through records the key as down. *)
Lemma onKeyUp_marks_key_down (w : World) (e : KeyboardEvent) :
  freeze w = false ->
  Session.activeViewerId (session w) = props_id (props (this w)) ->
  exists w' l,
    onKeyUp e w = (Normal tt, w', HandlerOnKeyUp e :: l)
    /\ _keyDownMap (this w') = <[key e := true]> (_keyDownMap (this w)).
Proof.
  intros Hf Ha. unfold onKeyUp. unfold_monad. simpl.
  rewrite Hf, bool_decide_eq_true_2 by done. simpl.
  destruct (handler_onKeyUp _ _) as [st []]; simpl; eauto.
Qed.

Lemma onKeyDown_marks_key_down (w : World) (e : KeyboardEvent) :
  freeze w = false ->
  Session.activeViewerId (session w) = props_id (props (this w)) ->
  exists w' l,
    onKeyDown e w = (Normal tt, w', HandlerOnKeyDown e :: l)
    /\ _keyDownMap (this w') = <[key e := true]> (_keyDownMap (this w)).
Proof.
  intros Hf Ha. unfold onKeyDown. unfold_monad. simpl.
  rewrite Hf, bool_decide_eq_true_2 by done. simpl.
  destruct (handler_onKeyDown _ _) as [st []]; simpl; eauto.
Qed.

End Handlers.

Section Reconciliation.
Context `{C : Collaborators}.

(** *** The camera kept by a reconciliation *)

(** A viewer fresh from its constructor holds the Generic camera. *)
Lemma constructor_camera_generic inst p st s fz h n :
  let w := constructor inst p st s fz h n in
  THREE.projection (heap w (camera (this w))) = generic_projection
  /\ handler_camera (_labelHandler (this w)) = camera (this w).
Proof. simpl. by rewrite fn_lookup_insert. Qed.

(** C1 (amended): for a viewer configured as image-with-intrinsics whose
    frame is not loaded, a reconciliation creates no camera and keeps the
    camera that was active before it, with its projection and its pose;
    the camera is Generic afterwards exactly when it was Generic before. *)
Theorem C1_unloaded_image3d_retains_camera
    (w : World) (st : State) (vc : ViewerConfigType) :
  viewerConfigs (user (state (this w))) !! props_id (props (this w)) = Some vc ->
  type vc = IMAGE_3D ->
  isCurrentFrameLoaded st (sensor vc) = false ->
  let w' := world_after (updateState st w) in
  camera (this w') = camera (this w)
  /\ next w' = next w
  /\ THREE.projection (heap w' (camera (this w'))) =
       THREE.projection (heap w (camera (this w)))
  /\ THREE.position (heap w' (camera (this w'))) =
       THREE.position (heap w (camera (this w)))
  /\ THREE.quaternion (heap w' (camera (this w'))) =
       THREE.quaternion (heap w (camera (this w)))
  /\ (THREE.projection (heap w' (camera (this w'))) = generic_projection
      <-> THREE.projection (heap w (camera (this w))) = generic_projection).
Proof.
  intros Hvc Hty Hfl.
  cut (post (updateState st) (fun _ w' _ =>
         camera (this w') = camera (this w) /\ next w' = next w
         /\ heap w' (camera (this w)) =
              THREE.set_layers
                (THREE.Layers_set
                   (layer_channel (props_id (props (this w)))
                      (viewerConfigs (user (state (this w))))))
                (heap w (camera (this w)))) w).
  { unfold post. intros (Hc & Hn & Hh). simpl.
    rewrite Hc, Hh. simpl. tauto. }
  unfold updateState, this_state.
  post_run; tidy; rewrite ?fn_lookup_insert; try done.
Qed.

(** What a reconciliation never touches. *)
Lemma updateState_frame (w : World) (st : State) :
  let w' := world_after (updateState st w) in
  state (this w') = state (this w) /\ props (this w') = props (this w)
  /\ session w' = session w /\ freeze w' = freeze w
  /\ canvas (this w') = canvas (this w) /\ renderer (this w') = renderer (this w)
  /\ _raycaster (this w') = _raycaster (this w)
  /\ _keyDownMap (this w') = _keyDownMap (this w)
  /\ instance (this w') = instance (this w).
Proof.
  change (post (updateState st) (fun _ w' _ =>
    state (this w') = state (this w) /\ props (this w') = props (this w)
    /\ session w' = session w /\ freeze w' = freeze w
    /\ canvas (this w') = canvas (this w) /\ renderer (this w') = renderer (this w)
    /\ _raycaster (this w') = _raycaster (this w)
    /\ _keyDownMap (this w') = _keyDownMap (this w)
    /\ instance (this w') = instance (this w)) w).
  unfold updateState, this_state.
  post_run; tidy; done.
Qed.

(** The one layer assignment of a reconciliation: it is made, whatever
    happens afterwards, to the camera held on entry. *)
Lemma updateState_layer_assignment (w : World) (st : State) :
  collect layer_assignment (log_of (updateState st w)) =
    [(camera (this w),
      layer_channel (props_id (props (this w)))
        (viewerConfigs (user (state (this w)))))].
Proof.
  change (post (updateState st) (fun _ _ l =>
    collect layer_assignment l =
      [(camera (this w),
        layer_channel (props_id (props (this w)))
          (viewerConfigs (user (state (this w)))))]) w).
  unfold updateState, this_state.
  post_run; tidy; collect_log; done.
Qed.

Lemma updateState_layers_of_entry_camera (w : World) (st : State) :
  (camera (this w) < next w)%nat ->
  THREE.layers (heap (world_after (updateState st w)) (camera (this w))) =
    THREE.Layers_set
      (layer_channel (props_id (props (this w)))
         (viewerConfigs (user (state (this w))))).
Proof.
  intros Hlt.
  change (post (updateState st) (fun _ w' _ =>
    THREE.layers (heap w' (camera (this w))) =
      THREE.Layers_set
        (layer_channel (props_id (props (this w)))
           (viewerConfigs (user (state (this w)))))) w).
  unfold updateState, this_state.
  post_run; tidy;
    rewrite ?fn_lookup_insert_ne by lia; rewrite ?fn_lookup_insert; done.
Qed.

(** C5: every reconciliation assigns one layer to the camera it holds, and
    the layer is the viewer's id minus the least configured viewer id; the
    viewer with the least id gets layer 0; the layer depends only on the id
    and on the set of configured ids, and a second reconciliation assigns
    the same layer again. *)
Theorem C5_layer_assignment_is_id_minus_least
    (w : World) (st st' : State) (m : Z) :
  let id := props_id (props (this w)) in
  let configs := viewerConfigs (user (state (this w))) in
  m ∈ dom configs -> (forall k, k ∈ dom configs -> m <= k) ->
  collect layer_assignment (log_of (updateState st w)) =
    [(camera (this w), Num (id - m))]
  /\ ((camera (this w) < next w)%nat ->
      THREE.layers (heap (world_after (updateState st w)) (camera (this w))) =
        THREE.Layers_set (Num (id - m)))
  /\ (id = m -> layer_channel id configs = Num 0)
  /\ (forall configs' : gmap Z ViewerConfigType,
        dom configs' = dom configs ->
        layer_channel id configs' = layer_channel id configs)
  /\ collect layer_assignment
       (log_of (updateState st' (world_after (updateState st w)))) =
       [(camera (this (world_after (updateState st w))), Num (id - m))].
Proof.
  intros id configs Hm Hle.
  assert (Hch : layer_channel id configs = Num (id - m))
    by by apply layer_channel_least.
  split; [| split; [| split; [| split]]].
  - rewrite updateState_layer_assignment. fold id configs. by rewrite Hch.
  - intros Hlt. rewrite updateState_layers_of_entry_camera by done.
    fold id configs. by rewrite Hch.
  - intros ->. rewrite Hch. f_equal. lia.
  - intros configs' Hdom. by apply layer_channel_dom.
  - rewrite updateState_layer_assignment.
    destruct (updateState_frame w st) as (-> & -> & _).
    fold id configs. by rewrite Hch.
Qed.

(** *** Publication of the camera *)

Lemma updateState_published (w : World) (st : State) :
  let r := updateState st w in
  collect published (log_of r) =
    if is_normal (completion r)
       && bool_decide (Session.activeViewerId (session w) = props_id (props (this w)))
    then [camera (this (world_after r))]
    else [].
Proof.
  change (post (updateState st) (fun r w' l =>
    collect published l =
      if is_normal r
         && bool_decide (Session.activeViewerId (session w) = props_id (props (this w)))
      then [camera (this w')]
      else []) w).
  unfold updateState, this_state.
  post_run; tidy; collect_log;
    rewrite ?bool_decide_eq_true_2, ?bool_decide_eq_false_2 by done; done.
Qed.

Lemma onKeyDown_calls (w : World) (e : KeyboardEvent) :
  collect published (log_of (onKeyDown e w)) = []
  /\ collect handler_calls (log_of (onKeyDown e w)) =
       if freeze w
          || negb (bool_decide
                     (Session.activeViewerId (session w) = props_id (props (this w))))
       then [] else [HandlerOnKeyDown e].
Proof.
  change (post (onKeyDown e) (fun _ _ l =>
    collect published l = []
    /\ collect handler_calls l =
         if freeze w
            || negb (bool_decide
                       (Session.activeViewerId (session w) = props_id (props (this w))))
         then [] else [HandlerOnKeyDown e]) w).
  unfold onKeyDown.
  post_run; tidy; collect_log;
    repeat match goal with H : _ = _ |- _ => rewrite H end; done.
Qed.

Lemma onKeyUp_calls (w : World) (e : KeyboardEvent) :
  collect published (log_of (onKeyUp e w)) = []
  /\ collect handler_calls (log_of (onKeyUp e w)) =
       if freeze w
          || negb (bool_decide
                     (Session.activeViewerId (session w) = props_id (props (this w))))
       then [] else [HandlerOnKeyUp e].
Proof.
  change (post (onKeyUp e) (fun _ _ l =>
    collect published l = []
    /\ collect handler_calls l =
         if freeze w
            || negb (bool_decide
                       (Session.activeViewerId (session w) = props_id (props (this w))))
         then [] else [HandlerOnKeyUp e]) w).
  unfold onKeyUp.
  post_run; tidy; collect_log;
    repeat match goal with H : _ = _ |- _ => rewrite H end; done.
Qed.

(** C7, as corrected: a reconciliation publishes a camera only if the viewer
    is the active viewer; a reconciliation that completes publishes the
    camera the viewer then holds, once, exactly when the viewer is the
    active viewer, and a reconciliation that faults publishes nothing, also
    for the active viewer; the key handlers never publish a camera and call
    the label handler only if the viewer is the active viewer. *)
Theorem C7_only_active_viewer_publishes
    (w : World) (st : State) (e : KeyboardEvent) :
  let id := props_id (props (this w)) in
  let active := Session.activeViewerId (session w) in
  let r := updateState st w in
  (forall cam, cam ∈ collect published (log_of r) -> active = id)
  /\ (completion r = Normal tt ->
      (collect published (log_of r) = [camera (this (world_after r))]
       <-> active = id))
  /\ (active <> id ->
      collect published (log_of r) = []
      /\ onKeyDown e w = (Normal tt, w, [])
      /\ onKeyUp e w = (Normal tt, w, []))
  /\ collect published (log_of (onKeyDown e w)) = []
  /\ collect published (log_of (onKeyUp e w)) = []
  /\ (forall ev, ev ∈ collect handler_calls (log_of (onKeyDown e w)) ->
        active = id)
  /\ (forall ev, ev ∈ collect handler_calls (log_of (onKeyUp e w)) ->
        active = id)
  /\ (completion r <> Normal tt -> collect published (log_of r) = []).
Proof.
  intros id active r.
  pose proof (updateState_published w st) as Hp. simpl in Hp.
  fold id active r in Hp.
  destruct (onKeyDown_calls w e) as [Hd1 Hd2].
  destruct (onKeyUp_calls w e) as [Hu1 Hu2].
  fold id active in Hd2, Hu2.
  repeat split.
  - intros cam Hin. rewrite Hp in Hin.
    destruct (bool_decide_reflect (active = id)); [done |].
    rewrite andb_false_r in Hin. by apply elem_of_nil in Hin.
  - intros Heq. rewrite Hp in Heq.
    destruct (bool_decide_reflect (active = id)); [done |].
    rewrite andb_false_r in Heq. done.
  - intros Ha. rewrite Hp, H. simpl.
    by rewrite bool_decide_eq_true_2.
  - rewrite Hp. rewrite (bool_decide_eq_false_2 _ H).
    by rewrite andb_false_r.
  - by apply onKeyDown_inactive.
  - by apply onKeyUp_inactive.
  - exact Hd1.
  - exact Hu1.
  - intros ev Hin. rewrite Hd2 in Hin.
    destruct (bool_decide_reflect (active = id)); [done |].
    rewrite orb_true_r in Hin. by apply elem_of_nil in Hin.
  - intros ev Hin. rewrite Hu2 in Hin.
    destruct (bool_decide_reflect (active = id)); [done |].
    rewrite orb_true_r in Hin. by apply elem_of_nil in Hin.
  - intros Hne. rewrite Hp.
    destruct (completion r) as [[] |]; [done | reflexivity].
Qed.

(** A camera that a reconciliation creates is the one the viewer holds
    afterwards, and it has the layers of a new object; the layer assigned at
    the start of the reconciliation went to the camera held on entry. *)
Lemma updateState_fresh_camera_layers (w : World) (st : State) :
  let w' := world_after (updateState st w) in
  next w' <> next w ->
  camera (this w') = next w
  /\ THREE.layers (heap w' (camera (this w'))) = THREE.Layers_new.
Proof.
  change (post (updateState st) (fun _ w' _ =>
    next w' <> next w ->
    camera (this w') = next w
    /\ THREE.layers (heap w' (camera (this w'))) = THREE.Layers_new) w).
  post_run; tidy; try done; intros _; rewrite fn_lookup_insert; done.
Qed.

(** *** Completion *)


Lemma renderThree_configured (w : World) (vc : ViewerConfigType) :
  viewerConfigs (user (state (this w))) !! props_id (props (this w)) = Some vc ->
  renderThree w =
    (Normal tt, w,
     if defined (renderer (this w))
        && isCurrentFrameLoaded (state (this w)) (sensor vc)
     then [RendererRender (camera (this w))]
     else if defined (renderer (this w)) then [RendererClear] else []).
Proof.
  intros Hvc. unfold renderThree. unfold_monad. simpl. rewrite Hvc. simpl.
  destruct (defined _ && isCurrentFrameLoaded _ _); [reflexivity |].
  destruct (defined _); reflexivity.
Qed.

Lemma redraw_configured (w : World) (vc : ViewerConfigType) :
  viewerConfigs (user (state (this w))) !! props_id (props (this w)) = Some vc ->
  completion (redraw w) = Normal true
  /\ (canvas (this w) = None -> redraw w = (Normal true, w, []))
  /\ (isCurrentFrameLoaded (state (this w)) (sensor vc) = false ->
      redraw w =
        (Normal true, w,
         if defined (canvas (this w)) && defined (renderer (this w))
         then [RendererClear] else [])).
Proof.
  intros Hvc. split; [| split].
  - change (post redraw (fun r _ _ => r = Normal true) w).
    unfold redraw. post_run; tidy; done.
  - intros Hc. unfold redraw. unfold_monad. simpl. by rewrite Hc.
  - intros Hfl. unfold redraw. unfold_monad. simpl.
    destruct (canvas (this w)); simpl; [| reflexivity].
    rewrite Hvc. simpl. rewrite Hfl.
    destruct (defined (renderer (this w))); reflexivity.
Qed.



End Reconciliation.

(** ** Invariants of a viewer *)

Section Invariants.
Context `{C : Collaborators}.

Lemma perform_invariant (op : Operation) (w : World) :
  invariant w -> invariant (world_after (perform op w)).
Proof.
  intros (Hn & Hf & Hp & Hc & Hh).
  change (post (perform op) (fun _ w' _ => invariant w') w).
  unfold invariant.
  destruct op; unfold perform; post_run; tidy; repeat split; auto; lia.
Qed.

Theorem reachable_invariant (w : World) : reachable w -> invariant w.
Proof.
  induction 1 as [| w op _ IH | w s fz _ IH | w st _ IH | w cv r _ IH].
  - unfold invariant. simpl. repeat split; lia.
  - by apply perform_invariant.
  - exact IH.
  - exact IH.
  - exact IH.
Qed.

End Invariants.

(** ** The hit test of a mouse move *)

Lemma sorted_head_nearest (hits : list THREE.Intersection)
    (first other : THREE.Intersection) :
  StronglySorted (fun a b => (THREE.distance a <= THREE.distance b)%R) hits ->
  head hits = Some first -> other ∈ hits ->
  (THREE.distance first <= THREE.distance other)%R.
Proof.
  intros Hs Hh Ho. destruct hits as [| h hits]; [done |].
  simpl in Hh. injection Hh as ->.
  apply StronglySorted_inv in Hs as [_ Hall].
  apply elem_of_cons in Ho as [-> | Ho]; [lra |].
  rewrite List.Forall_forall in Hall. apply Hall.
  by apply list_elem_of_In.
Qed.

Section HitTest.
Context `{C : Collaborators}.

(** The hit test of one mouse move that is let through. *)
Lemma onMouseMove_hit_test
    (w : World) (e : MouseEvent) (cv : HTMLCanvasElement) :
  canvas (this w) = Some cv ->
  freeze w = false ->
  let normalized := normalizeCoordinatesToCanvas (clientX e) (clientY e) cv in
  let ndc := convertMouseToNDC normalized.1 normalized.2 cv in
  let coords := THREE.mkVector2 ndc.1 ndc.2 in
  let cam := camera (this w) in
  let raycaster :=
    THREE.setFromCamera coords (heap w cam) (_raycaster (this w)) in
  let shapes := Session.raycastableShapes (Session.label3dList (session w)) in
  let hits := intersectObjects raycaster shapes false in
  let r := onMouseMove e w in
  completion r = Normal tt
  /\ (exists rest,
        log_of r =
          [CameraUpdateMatrixWorld cam true;
           RaycasterSetFromCamera coords cam;
           IntersectObjects shapes false;
           HandlerOnMouseMove ndc.1 ndc.2 (head hits)] ++ rest)
  /\ _raycaster (this (world_after r)) = raycaster.
Proof.
  intros Hcv Hfz normalized ndc coords cam raycaster shapes hits r.
  change (post (onMouseMove e) (fun c w' l =>
            c = Normal tt
            /\ (exists rest,
                  l = [CameraUpdateMatrixWorld cam true;
                       RaycasterSetFromCamera coords cam;
                       IntersectObjects shapes false;
                       HandlerOnMouseMove ndc.1 ndc.2 (head hits)] ++ rest)
            /\ _raycaster (this w') = raycaster) w).
  subst r hits shapes raycaster cam coords ndc normalized.
  post_run; tidy; try congruence.
  all: repeat match goal with
       | H : intersectObjects _ _ _ = _ |- _ => rewrite H
       end;
    (split; [done |]); (split; [eexists; simpl; reflexivity | done]).
Qed.

(** C6: on a mouse move that is let through, the viewer refreshes the world
    matrix of its camera, then sets the ray of its raycaster from the camera
    and the pointer, then intersects the ray with the shapes the registry
    holds at that moment (other shapes if the registry has changed since),
    and hands the first hit, or none, to the label handler.  The raycaster
    has near plane 1, far plane 100 and line precision 0.02.  When the hits
    come sorted by distance, as three.js returns them, the hit handed over
    is the nearest. *)
Theorem C6_mouse_move_hit_test
    (w : World) (e : MouseEvent) (cv : HTMLCanvasElement) (s' : Session.t) :
  reachable w ->
  canvas (this w) = Some cv ->
  freeze w = false ->
  let normalized := normalizeCoordinatesToCanvas (clientX e) (clientY e) cv in
  let ndc := convertMouseToNDC normalized.1 normalized.2 cv in
  let coords := THREE.mkVector2 ndc.1 ndc.2 in
  let cam := camera (this w) in
  let raycaster :=
    THREE.setFromCamera coords (heap w cam) (_raycaster (this w)) in
  let shapes := Session.raycastableShapes (Session.label3dList (session w)) in
  let hits := intersectObjects raycaster shapes false in
  let r := onMouseMove e w in
  let shapes' := Session.raycastableShapes (Session.label3dList s') in
  let hits' := intersectObjects raycaster shapes' false in
  completion r = Normal tt
  /\ (exists rest,
        log_of r =
          [CameraUpdateMatrixWorld cam true;
           RaycasterSetFromCamera coords cam;
           IntersectObjects shapes false;
           HandlerOnMouseMove ndc.1 ndc.2 (head hits)] ++ rest)
  /\ _raycaster (this (world_after r)) = raycaster
  /\ THREE.near raycaster = 1%R
  /\ THREE.far raycaster = 100%R
  /\ THREE.linePrecision raycaster = (2 / 100)%R
  /\ (StronglySorted
        (fun a b => (THREE.distance a <= THREE.distance b)%R) hits ->
      forall first other,
        head hits = Some first -> other ∈ hits ->
        (THREE.distance first <= THREE.distance other)%R)
  /\ (exists rest,
        log_of (onMouseMove e (set_environment s' false w)) =
          [CameraUpdateMatrixWorld cam true;
           RaycasterSetFromCamera coords cam;
           IntersectObjects shapes' false;
           HandlerOnMouseMove ndc.1 ndc.2 (head hits')] ++ rest).
Proof.
  intros Hre Hcv Hfz normalized ndc coords cam raycaster shapes hits r
    shapes' hits'.
  destruct (reachable_invariant w Hre) as (Hn & Hf & Hp & _).
  destruct (onMouseMove_hit_test w e cv Hcv Hfz) as (H1 & H2 & H3).
  destruct (onMouseMove_hit_test (set_environment s' false w) e cv Hcv eq_refl)
    as (_ & H4 & _).
  split; [exact H1 |]. split; [exact H2 |]. split; [exact H3 |].
  split; [exact Hn |]. split; [exact Hf |]. split; [exact Hp |].
  split; [| exact H4].
  intros Hs first other. by apply sorted_head_nearest.
Qed.

End HitTest.

(** ** Mounting and unmounting *)

Lemma remove_first_app `{EqDecision A} (x : A) (l l' : list A) :
  x ∉ l -> remove_first x (l ++ x :: l') = l ++ l'.
Proof.
  induction l as [| y l IH]; simpl; intros Hx.
  - by rewrite decide_True.
  - apply not_elem_of_cons in Hx as [Hne Hx].
    rewrite decide_False by done. by rewrite IH.
Qed.

Lemma times_registered_app `{EqDecision A} (x : A) (l l' : list A) :
  times_registered x (l ++ l') = (times_registered x l + times_registered x l')%nat.
Proof. unfold times_registered. by rewrite filter_app, length_app. Qed.

Lemma times_registered_absent `{EqDecision A} (x : A) (l : list A) :
  x ∉ l -> times_registered x l = 0%nat.
Proof.
  unfold times_registered. induction l as [| y l IH]; [done |].
  intros [Hne Hx]%not_elem_of_cons.
  rewrite filter_cons_False by congruence. by apply IH.
Qed.

Lemma times_registered_here `{EqDecision A} (x : A) :
  times_registered x [x] = 1%nat.
Proof. unfold times_registered. by rewrite filter_cons_True. Qed.

Lemma times_registered_other `{EqDecision A} (x y : A) :
  y <> x -> times_registered x [y] = 0%nat.
Proof. intros Hne. unfold times_registered. by rewrite filter_cons_False. Qed.

(** A mount registers each closure once; the unmount that follows leaves the
    registrations as they were before the mount. *)
Lemma mount_registers_once (inst : nat) (r : Registrations) :
  unregistered inst r ->
  let r' := registrations_after r (mount_log inst) in
  times_registered ("keydown", KeyDownListener inst) (listeners r') = 1%nat
  /\ times_registered ("keyup", KeyUpListener inst) (listeners r') = 1%nat
  /\ times_registered (DrawableUpdateCallback inst) (callbacks r') = 1%nat
  /\ registrations_after r' (unmount_log inst) = r.
Proof.
  intros (Hd & Hu & Hc). simpl.
  rewrite (bool_decide_eq_false_2 _ Hd). simpl.
  rewrite bool_decide_eq_false_2; simpl.
  2: { rewrite elem_of_app, list_elem_of_singleton. intros [? | ?]; [done | congruence]. }
  rewrite !times_registered_app, !times_registered_here.
  rewrite !times_registered_other by congruence.
  rewrite (times_registered_absent _ _ Hd), (times_registered_absent _ _ Hu),
    (times_registered_absent _ _ Hc).
  split; [reflexivity |]. split; [reflexivity |]. split; [reflexivity |].
  rewrite <- app_assoc. simpl.
  rewrite remove_first_app by done.
  rewrite remove_first_app by done.
  rewrite remove_first_app by done.
  rewrite !app_nil_r. by destruct r.
Qed.

Lemma registrations_after_app (r : Registrations) (l1 l2 : list Effect) :
  registrations_after r (l1 ++ l2) =
    registrations_after (registrations_after r l1) l2.
Proof. unfold registrations_after. apply foldl_app. Qed.

Lemma cycles_restore (inst : nat) (r : Registrations) (n : nat) :
  unregistered inst r ->
  registrations_after r
    (concat (replicate n (mount_log inst ++ unmount_log inst))) = r.
Proof.
  intros Hr. induction n as [| n IH]; [reflexivity |].
  cbn [replicate concat]. rewrite !registrations_after_app.
  destruct (mount_registers_once inst r Hr) as (_ & _ & _ & ->).
  exact IH.
Qed.

Section Mounting.
Context `{C : Collaborators}.

Lemma mount_cycles_run (w : World) (n : nat) :
  mount_cycles n w =
    (Normal tt, w,
     concat (replicate n (mount_log (instance (this w))
                          ++ unmount_log (instance (this w))))).
Proof.
  induction n as [| n IH]; [reflexivity |].
  cbn [mount_cycles replicate concat].
  erewrite bind_normal; [| reflexivity |].
  2: { erewrite bind_normal; [| reflexivity | apply IH]. reflexivity. }
  reflexivity.
Qed.

Lemma collect_cycles {B : Type} (f : Effect -> option B) (l : list Effect)
    (b : B) (n : nat) :
  collect f l = [b] -> length (collect f (concat (replicate n l))) = n.
Proof.
  intros Hl. induction n as [| n IH]; [reflexivity |].
  cbn [replicate concat]. rewrite collect_app, Hl. simpl. by rewrite IH.
Qed.

(** C9: [n] mount/unmount cycles of an instance complete, leave the
    component as it was and consist of [n] repetitions of the calls of a
    mount followed by the calls of the matching unmount: each of the two
    listeners is added [n] times and removed [n] times, the callback is
    subscribed [n] times and unsubscribed [n] times.  On a document and a
    channel where the instance is not registered, it is registered once
    after each mount and the registrations are as before after each
    unmount. *)
Theorem C9_mount_unmount_cycles_balanced
    (w : World) (n : nat) (r : Registrations) :
  let inst := instance (this w) in
  let log := log_of (mount_cycles n w) in
  completion (mount_cycles n w) = Normal tt
  /\ world_after (mount_cycles n w) = w
  /\ log = concat (replicate n (mount_log inst ++ unmount_log inst))
  /\ length (collect (added "keydown" (KeyDownListener inst)) log) = n
  /\ length (collect (removed "keydown" (KeyDownListener inst)) log) = n
  /\ length (collect (added "keyup" (KeyUpListener inst)) log) = n
  /\ length (collect (removed "keyup" (KeyUpListener inst)) log) = n
  /\ length (collect (subscribed (DrawableUpdateCallback inst)) log) = n
  /\ length (collect (unsubscribed (DrawableUpdateCallback inst)) log) = n
  /\ (unregistered inst r ->
      registrations_after r log = r
      /\ forall k, (k < n)%nat ->
         let before := registrations_after r (log_of (mount_cycles k w)) in
         let mounted := registrations_after before (mount_log inst) in
         times_registered ("keydown", KeyDownListener inst) (listeners mounted) = 1%nat
         /\ times_registered ("keyup", KeyUpListener inst) (listeners mounted) = 1%nat
         /\ times_registered (DrawableUpdateCallback inst) (callbacks mounted) = 1%nat
         /\ registrations_after mounted (unmount_log inst) = r).
Proof.
  intros inst log. unfold log.
  rewrite (mount_cycles_run w n). unfold completion, world_after, log_of. simpl.
  fold inst.
  split; [done |]. split; [done |]. split; [done |].
  repeat (split; [eapply collect_cycles; simpl;
                  rewrite ?bool_decide_eq_true_2 by done; reflexivity |]).
  intros Hr. split; [by apply cycles_restore |].
  intros k Hk. rewrite (mount_cycles_run w k). cbn [snd fst]. fold inst.
  rewrite cycles_restore by done.
  by apply mount_registers_once.
Qed.

End Mounting.

(** ** The pose given by the extrinsics *)

Lemma flip_about_x :
  THREE.setFromAxisAngle (THREE.mkVector3 1 0 0) PI = THREE.mkQuaternion 1 0 0 0.
Proof.
  unfold THREE.setFromAxisAngle. simpl.
  rewrite sin_PI2, cos_PI2. f_equal; lra.
Qed.

Lemma multiply_identity_left (q : THREE.Quaternion) :
  THREE.multiply (THREE.mkQuaternion 0 0 0 1) q = q.
Proof.
  destruct q as [x y z w]. unfold THREE.multiply. simpl. f_equal; lra.
Qed.

Section Pose.
Context `{C : Collaborators}.

(** C4: for a viewer in image-with-intrinsics mode whose sensor has
    extrinsics, [updateRenderer] sets the position of the camera to zero,
    then its orientation to the rotation of the sensor, then multiplies the
    orientation on the right by the half-turn about X, then sets the position
    to the translation of the sensor (and last resizes the renderer).  The
    pose that results is the translation and the rotation times the
    half-turn; for the identity rotation it is the half-turn alone. *)
Theorem C4_extrinsics_pose_order
    (w : World) (cv : HTMLCanvasElement) (rd : nat)
    (config : ViewerConfigType) (s : SensorType) (ex : ExtrinsicsType) :
  canvas (this w) = Some cv ->
  renderer (this w) = Some rd ->
  getCurrentViewerConfig (state (this w)) (props_id (props (this w))) =
    Some config ->
  type config = IMAGE_3D ->
  sensors_of (task (state (this w))) !! sensor config = Some s ->
  extrinsics s = Some ex ->
  let cam := camera (this w) in
  let flip := THREE.setFromAxisAngle (THREE.mkVector3 1 0 0) PI in
  let r := updateRenderer w in
  completion r = Normal tt
  /\ log_of r =
       [CameraPositionSet cam (THREE.mkVector3 0 0 0);
        CameraQuaternionSet cam (rotation ex);
        CameraQuaternionMultiply cam flip;
        CameraPositionSet cam (translation ex);
        RendererSetSize (canvas_width cv) (canvas_height cv)]
  /\ THREE.position (heap (world_after r) cam) = translation ex
  /\ THREE.quaternion (heap (world_after r) cam) =
       THREE.multiply (rotation ex) flip
  /\ flip = THREE.mkQuaternion 1 0 0 0
  /\ (rotation ex = THREE.mkQuaternion 0 0 0 1 ->
      THREE.quaternion (heap (world_after r) cam) = flip).
Proof.
  intros Hcv Hrd Hcfg Hty Hs Hex cam flip r.
  cut (post updateRenderer (fun c w' l =>
         c = Normal tt
         /\ l = [CameraPositionSet cam (THREE.mkVector3 0 0 0);
                 CameraQuaternionSet cam (rotation ex);
                 CameraQuaternionMultiply cam flip;
                 CameraPositionSet cam (translation ex);
                 RendererSetSize (canvas_width cv) (canvas_height cv)]
         /\ THREE.position (heap w' cam) = translation ex
         /\ THREE.quaternion (heap w' cam) = THREE.multiply (rotation ex) flip) w).
  { unfold post. fold r. intros (Hc & Hl & Hp & Hq).
    split; [exact Hc |]. split; [exact Hl |]. split; [exact Hp |].
    split; [exact Hq |]. split; [apply flip_about_x |].
    intros Hid. rewrite Hq, Hid. apply multiply_identity_left. }
  unfold getCurrentViewerConfig in Hcfg.
  post_run; unfold getCurrentViewerConfig in *; tidy;
    try congruence.
  rewrite !fn_lookup_insert. simpl.
  destruct ex as [[x y z q] [tx ty tz]]. simpl. done.
Qed.

End Pose.

(** *** C1 on a concrete viewer *)

Lemma C1_unloaded_image3d_retains_camera_witness :
  let w := Fixtures.unloaded_after_loaded in
  let st := Fixtures.state_unloaded in
  let vc := mkViewerConfig IMAGE_3D 0 1 in
  (viewerConfigs (user (state (this w))) !! props_id (props (this w)) = Some vc
   /\ type vc = IMAGE_3D
   /\ isCurrentFrameLoaded st (sensor vc) = false)
  /\ camera (this (world_after (updateState st w))) = camera (this w)
  /\ THREE.projection
       (heap (world_after (updateState st w))
          (camera (this (world_after (updateState st w))))) =
     THREE.projection (heap w (camera (this w))).
Proof.
  intros w st vc.
  assert (H1 : viewerConfigs (user (state (this w))) !! props_id (props (this w))
               = Some vc) by reflexivity.
  assert (H2 : type vc = IMAGE_3D) by reflexivity.
  assert (H3 : isCurrentFrameLoaded st (sensor vc) = false) by reflexivity.
  split; [auto |].
  destruct (C1_unloaded_image3d_retains_camera w st vc H1 H2 H3)
    as (Hc & _ & Hp & _).
  split; [exact Hc | exact Hp].
Defined.

(** C1 as stated fails: viewer 0 is configured as image-with-intrinsics, a
    first reconciliation with the frame loaded gives it an intrinsics-derived
    camera, and a second one with the frame no longer loaded completes and
    leaves that camera active; it is not the Generic camera. *)
Lemma C1_counterexample_camera_not_generic :
  let w := Fixtures.unloaded_after_loaded in
  let st := Fixtures.state_unloaded in
  let r := updateState st w in
  (exists vc,
     viewerConfigs (user (state (this w))) !! props_id (props (this w)) = Some vc
     /\ type vc = IMAGE_3D
     /\ isCurrentFrameLoaded st (sensor vc) = false)
  /\ completion r = Normal tt
  /\ THREE.projection (heap (world_after r) (camera (this (world_after r)))) =
       THREE.IntrinsicCamera Fixtures.intrinsics0 640 480
  /\ THREE.projection (heap (world_after r) (camera (this (world_after r)))) <>
       generic_projection.
Proof.
  intros w st r.
  assert (Hp : THREE.projection
                 (heap (world_after r) (camera (this (world_after r)))) =
               THREE.IntrinsicCamera Fixtures.intrinsics0 640 480)
    by reflexivity.
  split; [| split; [| split]].
  - exists (mkViewerConfig IMAGE_3D 0 1). repeat split; reflexivity.
  - reflexivity.
  - exact Hp.
  - rewrite Hp. discriminate.
Qed.

(** *** C5, C7 and C8 on concrete viewers *)

Lemma C5_layer_assignment_is_id_minus_least_witness :
  let w := Fixtures.fresh 1 Fixtures.state_loaded false in
  let configs := viewerConfigs (user (state (this w))) in
  (0 ∈ dom configs /\ forall k, k ∈ dom configs -> 0 <= k)
  /\ collect layer_assignment (log_of (updateState Fixtures.state_loaded w)) =
       [(camera (this w), Num (1 - 0))].
Proof.
  intros w configs.
  assert (Hdom : dom configs = {[0; 1]}).
  { unfold configs. simpl. rewrite dom_insert_L, dom_singleton_L. done. }
  assert (H0 : 0 ∈ dom configs) by (rewrite Hdom; set_solver).
  assert (Hle : forall k, k ∈ dom configs -> 0 <= k).
  { intros k. rewrite Hdom. intros [->%elem_of_singleton | ->%elem_of_singleton]%elem_of_union; lia. }
  split; [auto |].
  exact (proj1 (C5_layer_assignment_is_id_minus_least
                  w Fixtures.state_loaded Fixtures.state_loaded 0 H0 Hle)).
Defined.

Lemma C7_only_active_viewer_publishes_witness :
  let w := Fixtures.fresh 0 Fixtures.state_loaded false in
  let r := updateState Fixtures.state_loaded w in
  completion r = Normal tt
  /\ Session.activeViewerId (session w) = props_id (props (this w))
  /\ collect published (log_of r) = [camera (this (world_after r))].
Proof.
  intros w r.
  assert (Hc : completion r = Normal tt) by reflexivity.
  assert (Ha : Session.activeViewerId (session w) = props_id (props (this w)))
    by reflexivity.
  split; [exact Hc |]. split; [exact Ha |].
  destruct (C7_only_active_viewer_publishes
              w Fixtures.state_loaded (mkKeyboardEvent "a"))
    as (_ & Hiff & _).
  apply (Hiff Hc). exact Ha.
Defined.


(** C7 as stated fails: viewer 0 is the active viewer, but with no item
    selected its reconciliation faults at the labels of the item, before
    the publication is reached, and publishes no camera: publishing is not
    equivalent to being the active viewer. *)
Lemma C7_counterexample_active_viewer_faults_without_publishing :
  let w := Fixtures.fresh 0 Fixtures.state_no_item false in
  let r := updateState Fixtures.state_no_item w in
  Session.activeViewerId (session w) = props_id (props (this w))
  /\ completion r = Throw (TypeError "labels")
  /\ collect published (log_of r) = []
  /\ ~ (collect published (log_of r) = [camera (this (world_after r))]
        <-> Session.activeViewerId (session w) = props_id (props (this w))).
Proof.
  intros w r.
  assert (Ha : Session.activeViewerId (session w) = props_id (props (this w)))
    by reflexivity.
  assert (Hp : collect published (log_of r) = []) by reflexivity.
  split; [exact Ha |]. split; [reflexivity |]. split; [exact Hp |].
  intros [_ Hiff]. specialize (Hiff Ha). rewrite Hp in Hiff. discriminate Hiff.
Qed.


(** *** The freeze condition and the key-down map on a concrete viewer *)

(** C2 at a failing input: viewer 0 has a canvas and the freeze condition
    holds.  The five handlers that check the condition do nothing, and the
    double-click handler calls the label handler, whose state changes, and
    stops the propagation of the event. *)
Theorem C2_double_click_not_gated_by_freeze :
  let w := Fixtures.attached (Fixtures.fresh 0 Fixtures.state_loaded true) in
  let e := mkMouseEvent 15 25 in
  let k := mkKeyboardEvent "a" in
  freeze w = true
  /\ onMouseDown e w = (Normal tt, w, [])
  /\ onMouseUp e w = (Normal tt, w, [])
  /\ onMouseMove e w = (Normal tt, w, [])
  /\ onKeyDown k w = (Normal tt, w, [])
  /\ onKeyUp k w = (Normal tt, w, [])
  /\ log_of (onDoubleClick e w) = [HandlerOnDoubleClick; StopPropagation]
  /\ handler_state (_labelHandler (this w)) = 0%nat
  /\ handler_state (_labelHandler (this (world_after (onDoubleClick e w)))) = 1%nat.
Proof.
  intros w e k.
  assert (Hf : freeze w = true) by reflexivity.
  split; [exact Hf |].
  split; [by apply onMouseDown_frozen |].
  split; [by apply onMouseUp_frozen |].
  split; [by apply onMouseMove_frozen |].
  split; [by apply onKeyDown_frozen |].
  split; [by apply onKeyUp_frozen |].
  repeat split; reflexivity.
Qed.

(** C3 at a failing input: viewer 0 is the active viewer and is not frozen.
    The session's key-up handler removes the key from its map; the canvas's
    key-up handler leaves the key marked as down, and marks it as down even
    if it was not. *)
Theorem C3_canvas_key_up_marks_key_down :
  let w := Fixtures.fresh 0 Fixtures.state_loaded false in
  let e := mkKeyboardEvent "a" in
  let s := session w in
  Session.isKeyDown (Session.onKeyDown s e).1 "a" = Some true
  /\ Session.isKeyDown (Session.onKeyUp (Session.onKeyDown s e).1 e).1 "a" = None
  /\ _keyDownMap (this w) !! "a" = None
  /\ _keyDownMap (this (world_after (onKeyDown e w))) !! "a" = Some true
  /\ _keyDownMap
       (this (world_after (onKeyUp e (world_after (onKeyDown e w))))) !! "a" =
     Some true
  /\ _keyDownMap (this (world_after (onKeyUp e w))) !! "a" = Some true.
Proof.
  intros w e s. repeat split; reflexivity.
Qed.

(** *** C4, C6 and C9 on a concrete viewer *)

(** Identity rotation and translation (1, 2, 3): the camera ends at
    (1, 2, 3) with the half-turn about X as its orientation. *)
Lemma C4_extrinsics_pose_order_witness :
  let w := Fixtures.attached (Fixtures.fresh 0 Fixtures.state_loaded false) in
  let r := updateRenderer w in
  (canvas (this w) = Some Fixtures.canvas0
   /\ renderer (this w) = Some O
   /\ extrinsics (mkSensor (Some Fixtures.intrinsics0) (Some Fixtures.extrinsics0))
      = Some Fixtures.extrinsics0)
  /\ THREE.position (heap (world_after r) (camera (this w))) =
       THREE.mkVector3 1 2 3
  /\ THREE.quaternion (heap (world_after r) (camera (this w))) =
       THREE.mkQuaternion 1 0 0 0.
Proof.
  intros w r.
  assert (H1 : canvas (this w) = Some Fixtures.canvas0) by reflexivity.
  assert (H2 : renderer (this w) = Some O) by reflexivity.
  assert (H3 : getCurrentViewerConfig (state (this w)) (props_id (props (this w)))
               = Some (mkViewerConfig IMAGE_3D 0 1)) by reflexivity.
  assert (H4 : type (mkViewerConfig IMAGE_3D 0 1) = IMAGE_3D) by reflexivity.
  assert (H5 : sensors_of (task (state (this w)))
                 !! sensor (mkViewerConfig IMAGE_3D 0 1) =
               Some (mkSensor (Some Fixtures.intrinsics0)
                              (Some Fixtures.extrinsics0))) by reflexivity.
  assert (H6 : extrinsics (mkSensor (Some Fixtures.intrinsics0)
                                    (Some Fixtures.extrinsics0)) =
               Some Fixtures.extrinsics0) by reflexivity.
  split; [auto |].
  destruct (C4_extrinsics_pose_order w _ _ _ _ _ H1 H2 H3 H4 H5 H6)
    as (_ & _ & Hp & _ & Hflip & Hq).
  split; [exact Hp |].
  fold r in Hq. rewrite (Hq eq_refl). exact Hflip.
Defined.

(** Objects 5, 2 and 8 lie on the ray: the label handler is given the hit
    on object 2, which is nearer than the hit on object 8. *)
Lemma C6_mouse_move_hit_test_witness :
  let w := Fixtures.attached (Fixtures.fresh 0 Fixtures.state_loaded false) in
  let e := mkMouseEvent 15 25 in
  (reachable w /\ canvas (this w) = Some Fixtures.canvas0 /\ freeze w = false)
  /\ (exists rest,
        log_of (onMouseMove e w) =
          [CameraUpdateMatrixWorld (camera (this w)) true;
           RaycasterSetFromCamera (THREE.mkVector2 (15 - 10) (25 - 20))
             (camera (this w));
           IntersectObjects [5; 2; 8]%nat false;
           HandlerOnMouseMove (15 - 10) (25 - 20) (Some (Fixtures.hit 2))]
          ++ rest)
  /\ (THREE.distance (Fixtures.hit 2) <= THREE.distance (Fixtures.hit 8))%R.
Proof.
  intros w e.
  assert (H1 : reachable w).
  { unfold w, Fixtures.attached, Fixtures.fresh.
    apply reachable_canvas, reachable_constructor. }
  assert (H2 : canvas (this w) = Some Fixtures.canvas0) by reflexivity.
  assert (H3 : freeze w = false) by reflexivity.
  assert (Hs : StronglySorted
                 (fun a b => (THREE.distance a <= THREE.distance b)%R)
                 [Fixtures.hit 2; Fixtures.hit 5; Fixtures.hit 8]).
  { repeat first [ apply SSorted_cons | apply SSorted_nil
                 | apply List.Forall_cons | apply List.Forall_nil ];
      unfold Fixtures.hit; cbn [THREE.distance]; apply IZR_le; lia. }
  assert (Hin : Fixtures.hit 8 ∈
                  [Fixtures.hit 2; Fixtures.hit 5; Fixtures.hit 8])
    by (do 2 apply list_elem_of_further; apply list_elem_of_here).
  split; [auto |].
  destruct (C6_mouse_move_hit_test w e Fixtures.canvas0 (session w) H1 H2 H3)
    as (_ & Hlog & _ & _ & _ & _ & Hnear & _).
  split; [exact Hlog |].
  exact (Hnear Hs (Fixtures.hit 2) (Fixtures.hit 8) eq_refl Hin).
Defined.

Lemma C9_mount_unmount_cycles_balanced_witness :
  let w := Fixtures.fresh 0 Fixtures.state_loaded false in
  let r := mkRegistrations [] [] in
  unregistered (instance (this w)) r
  /\ registrations_after r (log_of (mount_cycles 3 w)) = r.
Proof.
  intros w r.
  assert (Hr : unregistered (instance (this w)) r).
  { repeat split; apply not_elem_of_nil. }
  split; [exact Hr |].
  destruct (C9_mount_unmount_cycles_balanced w 3 r)
    as (_ & _ & _ & _ & _ & _ & _ & _ & _ & Hreg).
  exact (proj1 (Hreg Hr)).
Defined.

(** * Further properties of the code *)

(** ** session.ts *)

Lemma session_keys_reconnecting (s : Session.t) (evs : list KeyEvent) :
  Session.status s = Session.RECONNECTING ->
  let r := session_keys s evs in
  Session.status r.1 = Session.RECONNECTING
  /\ Session.keyDownMap r.1 ⊆ Session.keyDownMap s
  /\ Forall (fun c => exists e, c = Session.Callback e /\ KeyUp e ∈ evs) r.2.
Proof.
  revert s. induction evs as [| ev evs IH]; intros s Hs.
  - simpl. split; [done |]. split; [done | constructor].
  - cbn [session_keys]. destruct ev as [e | e]; cbn [session_key].
    + unfold Session.onKeyDown. rewrite decide_True by done. cbn [fst snd].
      destruct (IH s Hs) as (H1 & H2 & H3).
      split; [exact H1 |]. split; [exact H2 |].
      cbn [app]. eapply Forall_impl; [exact H3 |].
      intros c (e' & -> & Hin). exists e'. split; [done |].
      by apply list_elem_of_further.
    + unfold Session.onKeyUp. cbn [fst snd].
      destruct (IH (Session.set_keyDownMap
                      (delete (key e) (Session.keyDownMap s)) s) Hs)
        as (H1 & H2 & H3).
      split; [exact H1 |]. split.
      * etrans; [exact H2 |]. simpl. apply delete_subseteq.
      * cbn [app]. constructor.
        -- exists e. split; [done | apply list_elem_of_here].
        -- eapply Forall_impl; [exact H3 |].
           intros c (e' & -> & Hin). exists e'. split; [done |].
           by apply list_elem_of_further.
Qed.

(** X1: a key-down followed by the key-up of the same key gives back the
    session as it was, when the status is not RECONNECTING and the key was
    not down; the callback is called once for each of the two events. *)
Theorem X1_session_key_down_up_round_trip (s : Session.t) (e : KeyboardEvent) :
  Session.status s <> Session.RECONNECTING ->
  Session.isKeyDown s (key e) = None ->
  session_keys s [KeyDown e; KeyUp e] =
    (s, [Session.Callback e; Session.Callback e])
  /\ Session.isKeyDown (Session.onKeyDown s e).1 (key e) = Some true.
Proof.
  intros Hs Hk. unfold Session.isKeyDown in Hk.
  cbn [session_keys session_key].
  rewrite (Session_onKeyDown_marks s e Hs). cbn [fst snd].
  unfold Session.onKeyUp, Session.isKeyDown. simpl.
  rewrite delete_insert_id by done. rewrite lookup_insert_eq.
  split; [| done]. by destruct s.
Qed.

(** X2: a key-down that is repeated (as a held key does) leaves the key-down
    map as the first one left it, and neither handler changes whether any
    other key reads as down. *)
Theorem X2_session_key_down_repeat_and_other_keys
    (s : Session.t) (e : KeyboardEvent) (k : string) :
  Session.keyDownMap (session_keys s [KeyDown e; KeyDown e]).1 =
    Session.keyDownMap (Session.onKeyDown s e).1
  /\ (k <> key e ->
      Session.isKeyDown (Session.onKeyDown s e).1 k = Session.isKeyDown s k
      /\ Session.isKeyDown (Session.onKeyUp s e).1 k = Session.isKeyDown s k).
Proof.
  split.
  - cbn [session_keys session_key]. unfold Session.onKeyDown.
    destruct (decide (Session.status s = Session.RECONNECTING)) as [Hs | Hs];
      cbn [fst snd].
    + by rewrite decide_True.
    + simpl. rewrite decide_False by done. simpl.
      by rewrite insert_insert_eq.
  - intros Hk. split; [| by apply Session_onKeyUp_other].
    unfold Session.isKeyDown, Session.onKeyDown.
    destruct (decide _); [done |]. simpl. by rewrite lookup_insert_ne.
Qed.

(** X3: while the status is RECONNECTING, whatever keyboard events arrive,
    in whatever order, no key becomes down: the key-down map can only lose
    keys, the status stays, and the callback is called for key-ups only. *)
Theorem X3_session_keys_while_reconnecting
    (s : Session.t) (evs : list KeyEvent) (k : string) :
  let reconnecting := (Session.updateStatus s Session.RECONNECTING).1.2 in
  let r := session_keys reconnecting evs in
  Session.status r.1 = Session.RECONNECTING
  /\ Session.keyDownMap r.1 ⊆ Session.keyDownMap s
  /\ (Session.isKeyDown s k = None -> Session.isKeyDown r.1 k = None)
  /\ Forall (fun c => exists e, c = Session.Callback e /\ KeyUp e ∈ evs) r.2.
Proof.
  intros reconnecting r.
  destruct (session_keys_reconnecting reconnecting evs eq_refl)
    as (H1 & H2 & H3).
  split; [exact H1 |]. split; [exact H2 |]. split; [| exact H3].
  unfold Session.isKeyDown. intros Hk.
  by eapply lookup_weaken_None.
Qed.

Lemma X1_session_key_down_up_round_trip_witness :
  let s := Fixtures.session0 0 in
  let e := mkKeyboardEvent "a" in
  (Session.status s <> Session.RECONNECTING
   /\ Session.isKeyDown s (key e) = None)
  /\ session_keys s [KeyDown e; KeyUp e] =
       (s, [Session.Callback e; Session.Callback e]).
Proof.
  intros s e.
  assert (H1 : Session.status s <> Session.RECONNECTING) by discriminate.
  assert (H2 : Session.isKeyDown s (key e) = None) by reflexivity.
  split; [auto |].
  exact (proj1 (X1_session_key_down_up_round_trip s e H1 H2)).
Defined.

Lemma X2_session_key_down_repeat_and_other_keys_witness :
  let s := Fixtures.session0 0 in
  let e := mkKeyboardEvent "a" in
  "b" <> key e
  /\ Session.isKeyDown (Session.onKeyDown s e).1 "b" = Session.isKeyDown s "b".
Proof.
  intros s e.
  assert (H1 : "b" <> key e) by discriminate.
  split; [exact H1 |].
  exact (proj1 (proj2 (X2_session_key_down_repeat_and_other_keys s e "b") H1)).
Defined.

Lemma X3_session_keys_while_reconnecting_witness :
  let s := Fixtures.session0 0 in
  let e := mkKeyboardEvent "a" in
  let reconnecting := (Session.updateStatus s Session.RECONNECTING).1.2 in
  Session.isKeyDown s "a" = None
  /\ Session.isKeyDown
       (session_keys reconnecting [KeyDown e; KeyUp e; KeyDown e]).1 "a" = None.
Proof.
  intros s e reconnecting.
  assert (H1 : Session.isKeyDown s "a" = None) by reflexivity.
  split; [exact H1 |].
  destruct (X3_session_keys_while_reconnecting s
              [KeyDown e; KeyUp e; KeyDown e] "a") as (_ & _ & Hk & _).
  exact (Hk H1).
Defined.

(** ** The input handlers of the canvas *)

Section InputHandlers.
Context `{C : Collaborators}.

(** X4: a mouse-down or mouse-up that is let through makes one call to the
    label handler (the mouse-down with the pointer converted from its
    position relative to the canvas), stops the propagation of the event
    exactly when the label handler consumed it, and changes nothing but the
    state of the label handler. *)
Theorem X4_mouse_buttons_stop_propagation_iff_consumed
    (w : World) (e : MouseEvent) (cv : HTMLCanvasElement) :
  canvas (this w) = Some cv ->
  freeze w = false ->
  let normalized := normalizeCoordinatesToCanvas (clientX e) (clientY e) cv in
  let ndc := convertMouseToNDC normalized.1 normalized.2 cv in
  let h := _labelHandler (this w) in
  let down := handler_onMouseDown (handler_state h) ndc.1 ndc.2 in
  let up := handler_onMouseUp (handler_state h) in
  onMouseDown e w =
    (Normal tt,
     set_this (set_labelHandler (mkHandler (handler_camera h) down.1) (this w)) w,
     HandlerOnMouseDown ndc.1 ndc.2 :: if down.2 then [StopPropagation] else [])
  /\ onMouseUp e w =
       (Normal tt,
        set_this (set_labelHandler (mkHandler (handler_camera h) up.1) (this w)) w,
        HandlerOnMouseUp :: if up.2 then [StopPropagation] else []).
Proof.
  intros Hcv Hfz normalized ndc h down up.
  subst down up h ndc normalized.
  unfold onMouseDown, onMouseUp. unfold_monad. simpl.
  rewrite Hcv, Hfz. simpl. split.
  - destruct (handler_onMouseDown _ _ _) as [st []]; reflexivity.
  - destruct (handler_onMouseUp _) as [st []]; reflexivity.
Qed.

(** X5: a mouse move that is let through announces a change of the drawables
    once, as its last call, whether or not the label handler consumed the
    event; it stops the propagation exactly when the label handler consumed
    it; the one call it makes on a camera refreshes the world matrix of the
    camera the viewer holds, and the viewer goes on holding that camera and
    its key-down map. *)
Theorem X5_mouse_move_always_announces_update
    (w : World) (e : MouseEvent) (cv : HTMLCanvasElement) :
  canvas (this w) = Some cv ->
  freeze w = false ->
  let normalized := normalizeCoordinatesToCanvas (clientX e) (clientY e) cv in
  let ndc := convertMouseToNDC normalized.1 normalized.2 cv in
  let coords := THREE.mkVector2 ndc.1 ndc.2 in
  let raycaster :=
    THREE.setFromCamera coords (heap w (camera (this w))) (_raycaster (this w)) in
  let shapes := Session.raycastableShapes (Session.label3dList (session w)) in
  let hits := intersectObjects raycaster shapes false in
  let consumed :=
    (handler_onMouseMove (handler_state (_labelHandler (this w)))
       ndc.1 ndc.2 (head hits)).2 in
  let r := onMouseMove e w in
  last (log_of r) = Some OnDrawableUpdate
  /\ collect drawable_update (log_of r) = [tt]
  /\ collect propagation_stopped (log_of r) = (if consumed then [tt] else [])
  /\ collect handler_calls (log_of r) = [HandlerOnMouseMove ndc.1 ndc.2 (head hits)]
  /\ collect matrix_updated (log_of r) = [(camera (this w), true)]
  /\ collect camera_set (log_of r) = []
  /\ camera (this (world_after r)) = camera (this w)
  /\ _keyDownMap (this (world_after r)) = _keyDownMap (this w).
Proof.
  intros Hcv Hfz normalized ndc coords raycaster shapes hits consumed r.
  change (post (onMouseMove e) (fun _ w' l =>
    last l = Some OnDrawableUpdate
    /\ collect drawable_update l = [tt]
    /\ collect propagation_stopped l = (if consumed then [tt] else [])
    /\ collect handler_calls l = [HandlerOnMouseMove ndc.1 ndc.2 (head hits)]
    /\ collect matrix_updated l = [(camera (this w), true)]
    /\ collect camera_set l = []
    /\ camera (this w') = camera (this w)
    /\ _keyDownMap (this w') = _keyDownMap (this w)) w).
  subst r consumed hits shapes raycaster coords ndc normalized.
  post_run; tidy; try congruence.
  all: repeat match goal with
       | H : intersectObjects _ _ _ = _ |- _ => rewrite H
       end; cbn [head];
    repeat match goal with
       | H : handler_onMouseMove _ _ _ _ = _ |- _ => rewrite H
       end; done.
Qed.

(** X6: a key event that is let through (the viewer is active and not
    frozen) makes one call to the label handler and announces a change of
    the drawables exactly when the label handler reports a change; it never
    stops the propagation of the event. *)
Theorem X6_key_events_announce_iff_changed (w : World) (e : KeyboardEvent) :
  freeze w = false ->
  Session.activeViewerId (session w) = props_id (props (this w)) ->
  let h := handler_state (_labelHandler (this w)) in
  log_of (onKeyDown e w) =
    HandlerOnKeyDown e ::
      (if (handler_onKeyDown h e).2 then [OnDrawableUpdate] else [])
  /\ log_of (onKeyUp e w) =
       HandlerOnKeyUp e ::
         (if (handler_onKeyUp h e).2 then [OnDrawableUpdate] else []).
Proof.
  intros Hf Ha h. subst h.
  unfold onKeyDown, onKeyUp. unfold_monad. simpl.
  rewrite Hf, bool_decide_eq_true_2 by done. simpl. split.
  - destruct (handler_onKeyDown _ _) as [st []]; reflexivity.
  - destruct (handler_onKeyUp _ _) as [st []]; reflexivity.
Qed.

End InputHandlers.

(** ** What the operations of a viewer keep *)

Lemma insert_true_grows (m : gmap string bool) (k : string) :
  all_down m -> all_down (<[k := true]> m) /\ m ⊆ <[k := true]> m.
Proof.
  intros Hm. split.
  - by apply map_Forall_insert_2.
  - apply map_subseteq_spec. intros i x Hi.
    destruct (decide (i = k)) as [-> | Hne].
    + rewrite lookup_insert_eq. f_equal. symmetry. by eapply Hm.
    + by rewrite lookup_insert_ne.
Qed.

Section Kept.
Context `{C : Collaborators}.

Lemma perform_key_down_map (op : Operation) (w : World) :
  all_down (_keyDownMap (this w)) ->
  all_down (_keyDownMap (this (world_after (perform op w))))
  /\ _keyDownMap (this w) ⊆ _keyDownMap (this (world_after (perform op w))).
Proof.
  intros Hm.
  change (post (perform op) (fun _ w' _ =>
    all_down (_keyDownMap (this w'))
    /\ _keyDownMap (this w) ⊆ _keyDownMap (this w')) w).
  destruct op; unfold perform; post_run; tidy;
    first [ by apply insert_true_grows | done ].
Qed.

Lemma reachable_all_down (w : World) :
  reachable w -> all_down (_keyDownMap (this w)).
Proof.
  induction 1 as [| w op _ IH | w s fz _ IH | w st _ IH | w cv r _ IH];
    try exact IH.
  - simpl. apply map_Forall_empty.
  - by apply perform_key_down_map.
Qed.

(** X7: no operation of a viewer ever takes a key out of the canvas's
    key-down map: whatever operation runs, every key that read as down
    before still reads as down after it, and every key the map records
    reads as down. *)
Theorem X7_canvas_key_down_map_only_grows
    (w : World) (op : Operation) (k : string) :
  reachable w ->
  let w' := world_after (perform op w) in
  all_down (_keyDownMap (this w))
  /\ _keyDownMap (this w) ⊆ _keyDownMap (this w')
  /\ (_keyDownMap (this w) !! k = Some true ->
      _keyDownMap (this w') !! k = Some true)
  /\ (is_Some (_keyDownMap (this w') !! k) ->
      _keyDownMap (this w') !! k = Some true).
Proof.
  intros Hre w'.
  pose proof (reachable_all_down w Hre) as Hall.
  destruct (perform_key_down_map op w Hall) as [Hall' Hsub].
  split; [exact Hall |]. split; [exact Hsub |]. split.
  - intros Hk. by eapply lookup_weaken.
  - intros [v Hv]. rewrite Hv. f_equal. by eapply Hall'.
Qed.

(** X8: the six input handlers never set the pose, the layers or the
    projection of a camera, never publish a camera and never allocate or
    replace one.  The only call they make on a camera is
    [updateMatrixWorld(true)], made by [onMouseMove] on the camera the viewer
    holds; and they assign none of the viewer's fields camera, display,
    canvas, renderer and props. *)
Theorem X8_input_handlers_never_set_or_replace_camera
    (w : World) (op : Operation) :
  is_input_handler op = true ->
  let r := perform op w in
  let w' := world_after r in
  collect camera_set (log_of r) = []
  /\ collect published (log_of r) = []
  /\ (collect matrix_updated (log_of r) = []
      \/ collect matrix_updated (log_of r) = [(camera (this w), true)]
         /\ exists e, op = OnMouseMove e)
  /\ next w' = next w
  /\ camera (this w') = camera (this w)
  /\ handler_camera (_labelHandler (this w')) =
       handler_camera (_labelHandler (this w))
  /\ display (this w') = display (this w)
  /\ canvas (this w') = canvas (this w)
  /\ renderer (this w') = renderer (this w)
  /\ props (this w') = props (this w).
Proof.
  intros Hop.
  change (post (perform op) (fun _ w' l =>
    collect camera_set l = []
    /\ collect published l = []
    /\ (collect matrix_updated l = []
        \/ collect matrix_updated l = [(camera (this w), true)]
           /\ exists e, op = OnMouseMove e)
    /\ next w' = next w
    /\ camera (this w') = camera (this w)
    /\ handler_camera (_labelHandler (this w')) =
         handler_camera (_labelHandler (this w))
    /\ display (this w') = display (this w)
    /\ canvas (this w') = canvas (this w)
    /\ renderer (this w') = renderer (this w)
    /\ props (this w') = props (this w)) w).
  destruct op; try discriminate Hop; unfold perform; post_run; tidy;
    repeat split; try done; eauto.
Qed.

Lemma perform_handler_camera (op : Operation) (w : World) :
  handler_camera (_labelHandler (this w)) = camera (this w) ->
  handler_camera (_labelHandler (this (world_after (perform op w)))) =
    camera (this (world_after (perform op w))).
Proof.
  intros Hh.
  change (post (perform op) (fun _ w' _ =>
    handler_camera (_labelHandler (this w')) = camera (this w')) w).
  destruct op; unfold perform; post_run; tidy; done.
Qed.

(** X9: the label handler always holds the camera the viewer holds: from the
    constructor on and after every operation, also one that faults, the
    camera given to the label handler is the viewer's current camera. *)
Theorem X9_label_handler_holds_current_camera (w : World) :
  reachable w ->
  handler_camera (_labelHandler (this w)) = camera (this w)
  /\ forall op,
       handler_camera (_labelHandler (this (world_after (perform op w)))) =
         camera (this (world_after (perform op w))).
Proof.
  intros Hre.
  assert (Hh : handler_camera (_labelHandler (this w)) = camera (this w)).
  { induction Hre as [| w op _ IH | w s fz _ IH | w st _ IH | w cv r _ IH];
      try exact IH.
    - reflexivity.
    - by apply perform_handler_camera. }
  split; [exact Hh |]. intros op. by apply perform_handler_camera.
Qed.

End Kept.

(** ** More on the reconciliation *)

Lemma elem_of_enabled_shapes (sensorId : Z) (registry : Session.Label3DList)
    (item_labels : list (Z * LabelType)) (shape : nat) :
  shape ∈ enabled_shapes sensorId registry item_labels <->
  exists label_id label shapes,
    (label_id, label) ∈ item_labels
    /\ sensorId ∈ sensors label
    /\ Session.shapes_of registry !! label_id = Some shapes
    /\ shape ∈ shapes.
Proof.
  unfold enabled_shapes. rewrite list_elem_of_In, in_flat_map. split.
  - intros ([label_id label] & Hin & Hs). apply list_elem_of_In in Hin.
    apply list_elem_of_In in Hs.
    destruct (bool_decide_reflect (sensorId ∈ sensors label)) as [Hsen |];
      [| by apply elem_of_nil in Hs].
    destruct (Session.shapes_of registry !! label_id) as [shapes |] eqn:Hr;
      [| by apply elem_of_nil in Hs].
    by exists label_id, label, shapes.
  - intros (label_id & label & shapes & Hin & Hsen & Hr & Hs).
    exists (label_id, label). split; [by apply list_elem_of_In |].
    apply list_elem_of_In. rewrite bool_decide_eq_true_2, Hr by done. done.
Qed.

Lemma collect_shape_enabled (id : Z) (l : list nat) :
  collect shape_enabled ((fun s => ShapeLayersEnable s id) <$> l) =
    (fun s => (s, id)) <$> l.
Proof. induction l as [| x l IH]; [done |]. simpl. f_equal. exact IH. Qed.

Section MoreReconciliation.
Context `{C : Collaborators}.

Lemma updateState_display (w : World) (st : State) :
  let r := updateState st w in
  display (this (world_after r)) = props_display (props (this w))
  /\ collect forced_update (log_of r) =
       if bool_decide (display (this w) = props_display (props (this w)))
       then [] else [tt].
Proof.
  change (post (updateState st) (fun _ w' l =>
    display (this w') = props_display (props (this w))
    /\ collect forced_update l =
         if bool_decide (display (this w) = props_display (props (this w)))
         then [] else [tt]) w).
  post_run; tidy; collect_log;
    rewrite ?bool_decide_eq_true_2, ?bool_decide_eq_false_2 by done; done.
Qed.

(** X10: a reconciliation, also one that faults, leaves the viewer with the
    display of its props and asks React for a forced update exactly when the
    display it held was another one; a reconciliation that follows asks for
    none. *)
Theorem X10_display_reconciled_once (w : World) (st st' : State) :
  let r := updateState st w in
  display (this (world_after r)) = props_display (props (this w))
  /\ (display (this w) = props_display (props (this w)) ->
      collect forced_update (log_of r) = [])
  /\ (display (this w) <> props_display (props (this w)) ->
      collect forced_update (log_of r) = [tt])
  /\ collect forced_update (log_of (updateState st' (world_after r))) = [].
Proof.
  intros r. destruct (updateState_display w st) as [Hd Hf]. fold r in Hd, Hf.
  split; [exact Hd |]. split; [| split].
  - intros Heq. by rewrite Hf, bool_decide_eq_true_2.
  - intros Hne. by rewrite Hf, bool_decide_eq_false_2.
  - destruct (updateState_display (world_after r) st') as [_ Hf'].
    rewrite Hf'. destruct (updateState_frame w st) as (_ & Hp & _).
    fold r in Hp. rewrite Hp, Hd. by rewrite bool_decide_eq_true_2.
Qed.

Lemma updateState_shapes (w : World) (st : State)
    (vc : ViewerConfigType) (it : ItemType) :
  viewerConfigs (user (state (this w))) !! props_id (props (this w)) = Some vc ->
  js_index (items (task st)) (item (select (user st))) = Some it ->
  collect shape_enabled (log_of (updateState st w)) =
    (fun s => (s, props_id (props (this w))))
      <$> enabled_shapes (sensor vc) (Session.label3dList (session w)) (labels it).
Proof.
  intros Hvc Hit.
  change (post (updateState st) (fun _ _ l =>
    collect shape_enabled l =
      (fun s => (s, props_id (props (this w))))
        <$> enabled_shapes (sensor vc) (Session.label3dList (session w))
              (labels it)) w).
  post_run; tidy; try congruence;
    repeat (progress (cbn [collect app shape_enabled];
                      rewrite ?collect_app, ?collect_shape_enabled));
    cbn [collect shape_enabled]; rewrite ?app_nil_r; done.
Qed.

(** X11: for a configured viewer and an existing selected item, a
    reconciliation enables a layer on a shape exactly when the shape belongs
    to a label of the item that the registry knows and whose sensors include
    the viewer's sensor; the layer enabled is the viewer's id.  This holds
    also when the reconciliation faults later on. *)
Theorem X11_layers_enabled_on_shapes_seen_by_sensor
    (w : World) (st : State) (vc : ViewerConfigType) (it : ItemType)
    (shape : nat) (ch : Z) :
  viewerConfigs (user (state (this w))) !! props_id (props (this w)) = Some vc ->
  js_index (items (task st)) (item (select (user st))) = Some it ->
  (shape, ch) ∈ collect shape_enabled (log_of (updateState st w)) <->
  ch = props_id (props (this w))
  /\ exists label_id label shapes,
       (label_id, label) ∈ labels it
       /\ sensor vc ∈ sensors label
       /\ Session.shapes_of (Session.label3dList (session w)) !! label_id =
            Some shapes
       /\ shape ∈ shapes.
Proof.
  intros Hvc Hit. rewrite (updateState_shapes w st vc it Hvc Hit).
  rewrite list_elem_of_fmap. split.
  - intros (s & Heq & Hs). injection Heq as -> ->. split; [done |].
    by apply elem_of_enabled_shapes.
  - intros (-> & Hs). exists shape. split; [done |].
    by apply elem_of_enabled_shapes.
Qed.

Lemma perform_handler_camera_of_updateState (w : World) (st : State) :
  completion (updateState st w) = Normal tt ->
  handler_camera (_labelHandler (this (world_after (updateState st w)))) =
    camera (this (world_after (updateState st w))).
Proof.
  change (post (updateState st) (fun r w' _ =>
    r = Normal tt ->
    handler_camera (_labelHandler (this w')) = camera (this w')) w).
  post_run; tidy; done.
Qed.

(** X12: the layer given to the camera is the viewer's id minus the least
    configured id, while the layer enabled on the shapes is the viewer's id
    itself: the two are the same layer exactly when the least configured
    viewer id is 0. *)
Theorem X12_camera_layer_and_shape_layer
    (w : World) (st : State) (vc : ViewerConfigType) (it : ItemType) (m : Z) :
  let id := props_id (props (this w)) in
  let configs := viewerConfigs (user (state (this w))) in
  configs !! id = Some vc ->
  js_index (items (task st)) (item (select (user st))) = Some it ->
  m ∈ dom configs -> (forall k, k ∈ dom configs -> m <= k) ->
  let log := log_of (updateState st w) in
  collect layer_assignment log = [(camera (this w), Num (id - m))]
  /\ (forall shape ch, (shape, ch) ∈ collect shape_enabled log -> ch = id)
  /\ (Num (id - m) = Num id <-> m = 0).
Proof.
  intros id configs Hvc Hit Hm Hle log. split; [| split].
  - unfold log. rewrite updateState_layer_assignment. fold id configs.
    by rewrite (layer_channel_least id m configs).
  - intros shape ch Hin. unfold log in Hin.
    rewrite (updateState_shapes w st vc it Hvc Hit) in Hin.
    apply list_elem_of_fmap in Hin as (s0 & Heq & _). by injection Heq.
  - split; [intros [= Heq] | intros ->; f_equal]; lia.
Qed.

(** The camera a completed reconciliation leaves, by case. *)
Lemma updateState_camera_cases
    (w : World) (st : State) (vc : ViewerConfigType) (it : ItemType) :
  viewerConfigs (user (state (this w))) !! props_id (props (this w)) = Some vc ->
  js_index (items (task st)) (item (select (user st))) = Some it ->
  let w' := world_after (updateState st w) in
  (type vc <> IMAGE_3D ->
   completion (updateState st w) = Normal tt
   /\ camera (this w') = next w /\ next w' = S (next w)
   /\ heap w' (next w) = THREE.Camera_new generic_projection)
  /\ (type vc = IMAGE_3D ->
      forall s intr img,
        sensors_of (task (state (this w))) !! sensor vc = Some s ->
        intrinsics s = Some intr ->
        isCurrentFrameLoaded st (sensor vc) = true ->
        image_of (session w) st (sensor vc) = Some img ->
        completion (updateState st w) = Normal tt
        /\ camera (this w') = next w /\ next w' = S (next w)
        /\ heap w' (next w) =
             THREE.Camera_new
               (THREE.IntrinsicCamera intr (image_width img) (image_height img)))
  /\ (type vc = IMAGE_3D ->
      (sensors_of (task (state (this w))) !! sensor vc = None
       \/ exists s, sensors_of (task (state (this w))) !! sensor vc = Some s
                    /\ intrinsics s = None) ->
      completion (updateState st w) = Normal tt
      /\ camera (this w') = camera (this w) /\ next w' = next w).
Proof.
  intros Hvc Hit w'. split; [| split].
  - intros Hty.
    change (post (updateState st) (fun r w' _ =>
      r = Normal tt /\ camera (this w') = next w /\ next w' = S (next w)
      /\ heap w' (next w) = THREE.Camera_new generic_projection) w).
    post_run; tidy; try congruence; rewrite ?fn_lookup_insert; done.
  - intros Hty s intr img Hs Hintr Hfl Himg.
    change (post (updateState st) (fun r w' _ =>
      r = Normal tt /\ camera (this w') = next w /\ next w' = S (next w)
      /\ heap w' (next w) =
           THREE.Camera_new
             (THREE.IntrinsicCamera intr (image_width img) (image_height img))) w).
    unfold image_of in Himg.
    post_run; tidy; try congruence;
      repeat match goal with
      | H : js_index _ _ = _ |- _ => rewrite H in Himg
      end; simpl in Himg; try congruence;
      rewrite ?fn_lookup_insert;
      try (repeat split; congruence);
      exfalso; eauto.
  - intros Hty Hcase.
    change (post (updateState st) (fun r w' _ =>
      r = Normal tt /\ camera (this w') = camera (this w) /\ next w' = next w) w).
    post_run; tidy; try done;
      destruct Hcase as [Hn | (s0 & Hs0 & Hi0)]; congruence.
Qed.

(** X13: for a configured viewer that is not in image-with-intrinsics mode,
    every reconciliation that finds the selected item completes and gives
    the viewer a new Generic camera with the pose and the layers of a new
    object, whatever camera it held: the pose and the layer put on the
    camera before are not carried over, and one more camera is allocated at
    each reconciliation. *)
Theorem X13_reconciliation_replaces_generic_camera
    (w : World) (st : State) (vc : ViewerConfigType) (it : ItemType) :
  viewerConfigs (user (state (this w))) !! props_id (props (this w)) = Some vc ->
  js_index (items (task st)) (item (select (user st))) = Some it ->
  type vc <> IMAGE_3D ->
  let w' := world_after (updateState st w) in
  completion (updateState st w) = Normal tt
  /\ camera (this w') = next w
  /\ next w' = S (next w)
  /\ heap w' (camera (this w')) = THREE.Camera_new generic_projection
  /\ THREE.layers (heap w' (camera (this w'))) = THREE.Layers_new
  /\ THREE.position (heap w' (camera (this w'))) = THREE.mkVector3 0 0 0.
Proof.
  intros Hvc Hit Hty w'.
  destruct (updateState_camera_cases w st vc it Hvc Hit) as (H1 & _).
  destruct (H1 Hty) as (Hc & Hcam & Hn & Hh).
  fold w' in Hcam, Hn, Hh.
  split; [exact Hc |]. split; [exact Hcam |]. split; [exact Hn |].
  rewrite Hcam, Hh. done.
Qed.

(** X14: for a viewer in image-with-intrinsics mode whose sensor has
    intrinsics, whose frame is loaded and whose image is in the session, a
    reconciliation that finds the selected item completes and gives the
    viewer a new intrinsics camera built from the intrinsics of the sensor
    and the width and height of the image. *)
Theorem X14_reconciliation_builds_intrinsic_camera
    (w : World) (st : State) (vc : ViewerConfigType) (it : ItemType)
    (s : SensorType) (intr : THREE.IntrinsicsType) (img : HTMLImageElement) :
  viewerConfigs (user (state (this w))) !! props_id (props (this w)) = Some vc ->
  js_index (items (task st)) (item (select (user st))) = Some it ->
  type vc = IMAGE_3D ->
  sensors_of (task (state (this w))) !! sensor vc = Some s ->
  intrinsics s = Some intr ->
  isCurrentFrameLoaded st (sensor vc) = true ->
  image_of (session w) st (sensor vc) = Some img ->
  let w' := world_after (updateState st w) in
  completion (updateState st w) = Normal tt
  /\ camera (this w') = next w
  /\ THREE.projection (heap w' (camera (this w'))) =
       THREE.IntrinsicCamera intr (image_width img) (image_height img)
  /\ handler_camera (_labelHandler (this w')) = camera (this w').
Proof.
  intros Hvc Hit Hty Hs Hintr Hfl Himg w'.
  destruct (updateState_camera_cases w st vc it Hvc Hit) as (_ & H2 & _).
  destruct (H2 Hty s intr img Hs Hintr Hfl Himg) as (Hc & Hcam & Hn & Hh).
  fold w' in Hcam, Hn, Hh.
  split; [exact Hc |]. split; [exact Hcam |]. split.
  - rewrite Hcam, Hh. done.
  - unfold w'. by apply perform_handler_camera_of_updateState.
Qed.

(** X15: for a viewer in image-with-intrinsics mode whose sensor is not
    among the sensors of the task, or has no intrinsics, a reconciliation
    that finds the selected item completes and keeps the camera the viewer
    held, also when the frame is loaded. *)
Theorem X15_reconciliation_without_intrinsics_keeps_camera
    (w : World) (st : State) (vc : ViewerConfigType) (it : ItemType) :
  viewerConfigs (user (state (this w))) !! props_id (props (this w)) = Some vc ->
  js_index (items (task st)) (item (select (user st))) = Some it ->
  type vc = IMAGE_3D ->
  (sensors_of (task (state (this w))) !! sensor vc = None
   \/ exists s, sensors_of (task (state (this w))) !! sensor vc = Some s
                /\ intrinsics s = None) ->
  let w' := world_after (updateState st w) in
  completion (updateState st w) = Normal tt
  /\ camera (this w') = camera (this w)
  /\ next w' = next w.
Proof.
  intros Hvc Hit Hty Hcase w'.
  destruct (updateState_camera_cases w st vc it Hvc Hit) as (_ & _ & H3).
  exact (H3 Hty Hcase).
Qed.

Lemma updateState_completes_iff (w : World) (st : State) :
  completion (updateState st w) = Normal tt <-> reconcilable w st.
Proof.
  change (post (updateState st) (fun r _ _ =>
    r = Normal tt <-> reconcilable w st) w).
  post_run; tidy; unfold reconcilable, image_of.
  all: split; [intros Hr; try discriminate Hr | intros (vc & it & Hvc & Hit & Himg)].
  all: try (do 2 eexists; split; [eassumption |]; split; [eassumption |];
            intros Hty s0 intr0 Hs0 Hi0 Hfl0; simplify_eq; try congruence;
            try (by exfalso; eauto);
            repeat match goal with
            | H : js_index _ _ = _ |- _ => rewrite H
            end; simpl;
            repeat match goal with
            | H : _ !! _ = Some _ |- _ => rewrite H
            end; by eauto).
  all: try done; simplify_eq.
  all: try (exfalso;
            match goal with
            | Hty : type _ = IMAGE_3D |- _ =>
                specialize (Himg Hty _ _ ltac:(eassumption) ltac:(eassumption)
                              ltac:(eassumption))
            end;
            repeat match goal with
            | H : js_index _ _ = _ |- _ => rewrite H in Himg
            end; simpl in Himg;
            repeat match goal with
            | H : _ !! _ = None |- _ => rewrite H in Himg
            end;
            by destruct Himg).
Qed.

Lemma updateState_handler_calls (w : World) (st : State) :
  let r := updateState st w in
  collect handler_calls (log_of r) =
    if is_normal (completion r)
    then [HandlerSetCamera (camera (this (world_after r)));
          HandlerUpdateState st (item (select (user st)))
            (props_id (props (this w)))]
    else [].
Proof.
  change (post (updateState st) (fun r w' l =>
    collect handler_calls l =
      if is_normal r
      then [HandlerSetCamera (camera (this w'));
            HandlerUpdateState st (item (select (user st)))
              (props_id (props (this w)))]
      else []) w).
  post_run; tidy; collect_log; done.
Qed.

(** X16: a reconciliation completes exactly when the viewer is configured,
    the selected item exists and the image needed for an intrinsics camera
    is in the session.  When it completes it gives the label handler the
    camera the viewer then holds and, as its last call, the snapshot with
    the selected item and the viewer id; when it faults it makes no call to
    the label handler and publishes no camera. *)
Theorem X16_reconciliation_completes_iff_reconcilable (w : World) (st : State) :
  let r := updateState st w in
  (completion r = Normal tt <-> reconcilable w st)
  /\ (reconcilable w st ->
      collect handler_calls (log_of r) =
        [HandlerSetCamera (camera (this (world_after r)));
         HandlerUpdateState st (item (select (user st)))
           (props_id (props (this w)))]
      /\ last (log_of r) =
           Some (HandlerUpdateState st (item (select (user st)))
                   (props_id (props (this w)))))
  /\ (~ reconcilable w st ->
      collect handler_calls (log_of r) = []
      /\ collect published (log_of r) = []).
Proof.
  intros r.
  pose proof (updateState_completes_iff w st) as Hiff. fold r in Hiff.
  pose proof (updateState_handler_calls w st) as Hh. simpl in Hh. fold r in Hh.
  pose proof (updateState_published w st) as Hp. simpl in Hp. fold r in Hp.
  split; [exact Hiff |]. split.
  - intros Hre. apply Hiff in Hre. rewrite Hh, Hre. split; [done |].
    revert Hre. unfold r.
    change (post (updateState st) (fun r _ l =>
      r = Normal tt ->
      last l = Some (HandlerUpdateState st (item (select (user st)))
                       (props_id (props (this w))))) w).
    post_run; tidy; try done; intros _;
      repeat (rewrite last_cons || rewrite last_app); simpl; done.
  - intros Hnot.
    destruct (completion r) as [[] | err] eqn:Hc.
    + exfalso. by apply Hnot, Hiff.
    + rewrite Hh, Hp. done.
Qed.

End MoreReconciliation.

(** ** Drawing *)

Section Drawing.
Context `{C : Collaborators}.

Lemma post_eq {A : Type} (m : M A) (w : World)
    (x : Completion A * World * list Effect) :
  post m (fun r w' l => (r, w', l) = x) w -> m w = x.
Proof.
  unfold post, completion, world_after, log_of.
  by destruct (m w) as [[r w'] l].
Qed.

Lemma updateRenderer_frame (w : World) :
  let w' := world_after (updateRenderer w) in
  completion (updateRenderer w) = Normal tt
  /\ this w' = this w /\ session w' = session w /\ next w' = next w
  /\ freeze w' = freeze w
  /\ forall k, k <> camera (this w) -> heap w' k = heap w k.
Proof.
  change (post updateRenderer (fun r w' _ =>
    r = Normal tt
    /\ this w' = this w /\ session w' = session w /\ next w' = next w
    /\ freeze w' = freeze w
    /\ forall k, k <> camera (this w) -> heap w' k = heap w k) w).
  post_run; tidy; repeat split; try done;
    intros k Hk; by rewrite ?fn_lookup_insert_ne.
Qed.

Lemma updateRenderer_pose
    (w : World) (cv : HTMLCanvasElement) (rd : nat)
    (config : ViewerConfigType) (s : SensorType) (ex : ExtrinsicsType) :
  canvas (this w) = Some cv ->
  renderer (this w) = Some rd ->
  getCurrentViewerConfig (state (this w)) (props_id (props (this w))) =
    Some config ->
  type config = IMAGE_3D ->
  sensors_of (task (state (this w))) !! sensor config = Some s ->
  extrinsics s = Some ex ->
  let cam := camera (this w) in
  let r := updateRenderer w in
  heap (world_after r) cam =
    THREE.mkCamera (THREE.projection (heap w cam)) (translation ex)
      (THREE.multiply (rotation ex)
         (THREE.setFromAxisAngle (THREE.mkVector3 1 0 0) PI))
      (THREE.layers (heap w cam))
  /\ log_of r =
       [CameraPositionSet cam (THREE.mkVector3 0 0 0);
        CameraQuaternionSet cam (rotation ex);
        CameraQuaternionMultiply cam
          (THREE.setFromAxisAngle (THREE.mkVector3 1 0 0) PI);
        CameraPositionSet cam (translation ex);
        RendererSetSize (canvas_width cv) (canvas_height cv)].
Proof.
  intros Hcv Hrd Hcfg Hty Hs Hex cam r.
  change (post updateRenderer (fun _ w' l =>
    heap w' cam =
      THREE.mkCamera (THREE.projection (heap w cam)) (translation ex)
        (THREE.multiply (rotation ex)
           (THREE.setFromAxisAngle (THREE.mkVector3 1 0 0) PI))
        (THREE.layers (heap w cam))
    /\ l = [CameraPositionSet cam (THREE.mkVector3 0 0 0);
            CameraQuaternionSet cam (rotation ex);
            CameraQuaternionMultiply cam
              (THREE.setFromAxisAngle (THREE.mkVector3 1 0 0) PI);
            CameraPositionSet cam (translation ex);
            RendererSetSize (canvas_width cv) (canvas_height cv)]) w).
  subst cam r. unfold getCurrentViewerConfig in Hcfg.
  post_run; unfold getCurrentViewerConfig in *; tidy; try congruence.
  rewrite !fn_lookup_insert. simpl.
  destruct ex as [[x y z q] [tx ty tz]]. simpl. done.
Qed.

(** X17: for a viewer in image-with-intrinsics mode whose sensor has
    extrinsics, updating the renderer twice leaves the camera with the pose
    that updating it once gave: the orientation is set from the sensor each
    time, so the half-turn about X is not accumulated over redraws. *)
Theorem X17_pose_update_is_idempotent
    (w : World) (cv : HTMLCanvasElement) (rd : nat)
    (config : ViewerConfigType) (s : SensorType) (ex : ExtrinsicsType) :
  canvas (this w) = Some cv ->
  renderer (this w) = Some rd ->
  getCurrentViewerConfig (state (this w)) (props_id (props (this w))) =
    Some config ->
  type config = IMAGE_3D ->
  sensors_of (task (state (this w))) !! sensor config = Some s ->
  extrinsics s = Some ex ->
  let w1 := world_after (updateRenderer w) in
  let w2 := world_after (updateRenderer w1) in
  heap w2 (camera (this w)) = heap w1 (camera (this w))
  /\ log_of (updateRenderer w1) = log_of (updateRenderer w)
  /\ forall k, heap w2 k = heap w1 k.
Proof.
  intros Hcv Hrd Hcfg Hty Hs Hex w1 w2.
  destruct (updateRenderer_frame w) as (_ & Hthis & _).
  fold w1 in Hthis.
  destruct (updateRenderer_pose w cv rd config s ex Hcv Hrd Hcfg Hty Hs Hex)
    as [Hh1 Hl1].
  assert (Hpose2 := updateRenderer_pose w1 cv rd config s ex).
  rewrite Hthis in Hpose2.
  destruct (Hpose2 Hcv Hrd Hcfg Hty Hs Hex) as [Hh2 Hl2].
  fold w1 in Hh1. fold w2 in Hh2.
  assert (Hsame : heap w2 (camera (this w)) = heap w1 (camera (this w))).
  { rewrite Hh2, Hh1. reflexivity. }
  split; [exact Hsame |]. split; [by rewrite Hl2, Hl1 |].
  intros k. destruct (decide (k = camera (this w))) as [-> | Hne];
    [exact Hsame |].
  destruct (updateRenderer_frame w1) as (_ & _ & _ & _ & _ & Hother).
  apply Hother. by rewrite Hthis.
Qed.

(** X18: updating the renderer does nothing at all, and does not fault, when
    there is no canvas, or no renderer, or the viewer is not configured, or
    its type is neither point cloud nor image-with-intrinsics, or it is in
    image-with-intrinsics mode with a sensor that is not among the sensors
    of the task. *)
Theorem X18_renderer_update_skipped (w : World) :
  (canvas (this w) = None
   \/ renderer (this w) = None
   \/ getCurrentViewerConfig (state (this w)) (props_id (props (this w))) = None
   \/ (exists config,
         getCurrentViewerConfig (state (this w)) (props_id (props (this w))) =
           Some config
         /\ ((exists tag, type config = OTHER_VIEWER tag)
             \/ (type config = IMAGE_3D
                 /\ sensors_of (task (state (this w))) !! sensor config = None)))) ->
  updateRenderer w = (Normal tt, w, []).
Proof.
  intros Hcase. unfold updateRenderer. unfold_monad. simpl.
  destruct (canvas (this w)) as [cv |] eqn:Hcv; [| reflexivity].
  destruct (renderer (this w)) as [rd |] eqn:Hrd; [| reflexivity].
  destruct Hcase as [? | [? | [Hn | (config & Hcfg & Hc)]]]; try discriminate.
  - by rewrite Hn.
  - rewrite Hcfg. destruct Hc as [[tag Ht] | [Ht Hs]]; rewrite Ht; [done |].
    by rewrite Hs.
Qed.

(** X19: for a viewer in image-with-intrinsics mode whose sensor has no
    extrinsics, updating the renderer moves the camera to the origin and
    resizes the renderer to the canvas, and leaves the orientation of the
    camera as it was. *)
Theorem X19_pose_update_without_extrinsics
    (w : World) (cv : HTMLCanvasElement) (rd : nat)
    (config : ViewerConfigType) (s : SensorType) :
  canvas (this w) = Some cv ->
  renderer (this w) = Some rd ->
  getCurrentViewerConfig (state (this w)) (props_id (props (this w))) =
    Some config ->
  type config = IMAGE_3D ->
  sensors_of (task (state (this w))) !! sensor config = Some s ->
  extrinsics s = None ->
  let cam := camera (this w) in
  let r := updateRenderer w in
  log_of r =
    [CameraPositionSet cam (THREE.mkVector3 0 0 0);
     RendererSetSize (canvas_width cv) (canvas_height cv)]
  /\ THREE.position (heap (world_after r) cam) = THREE.mkVector3 0 0 0
  /\ THREE.quaternion (heap (world_after r) cam) = THREE.quaternion (heap w cam)
  /\ THREE.projection (heap (world_after r) cam) = THREE.projection (heap w cam).
Proof.
  intros Hcv Hrd Hcfg Hty Hs Hex cam r.
  change (post updateRenderer (fun _ w' l =>
    l = [CameraPositionSet cam (THREE.mkVector3 0 0 0);
         RendererSetSize (canvas_width cv) (canvas_height cv)]
    /\ THREE.position (heap w' cam) = THREE.mkVector3 0 0 0
    /\ THREE.quaternion (heap w' cam) = THREE.quaternion (heap w cam)
    /\ THREE.projection (heap w' cam) = THREE.projection (heap w cam)) w).
  subst cam r. unfold getCurrentViewerConfig in Hcfg.
  post_run; unfold getCurrentViewerConfig in *; tidy; try congruence.
  rewrite !fn_lookup_insert. done.
Qed.

Lemma updateRenderer_no_renderer (w : World) :
  renderer (this w) = None -> updateRenderer w = (Normal tt, w, []).
Proof.
  intros Hn. unfold updateRenderer. unfold_monad. simpl. rewrite Hn.
  by destruct (canvas (this w)).
Qed.

(** X20: for a configured viewer with a canvas and a loaded frame, a redraw
    completes with [true]; it first updates the renderer and then, if there
    is a renderer, renders the scene with the camera the viewer holds; with
    no renderer it makes no call at all. *)
Theorem X20_redraw_updates_then_renders
    (w : World) (vc : ViewerConfigType) (cv : HTMLCanvasElement) :
  viewerConfigs (user (state (this w))) !! props_id (props (this w)) = Some vc ->
  canvas (this w) = Some cv ->
  isCurrentFrameLoaded (state (this w)) (sensor vc) = true ->
  redraw w =
    (Normal true, world_after (updateRenderer w),
     log_of (updateRenderer w)
       ++ if defined (renderer (this w))
          then [RendererRender (camera (this w))] else [])
  /\ (renderer (this w) = None -> redraw w = (Normal true, w, [])).
Proof.
  intros Hvc Hcv Hfl.
  assert (Hmain : redraw w =
    (Normal true, world_after (updateRenderer w),
     log_of (updateRenderer w)
       ++ if defined (renderer (this w))
          then [RendererRender (camera (this w))] else [])).
  { destruct (updateRenderer_frame w) as (Hc & Hthis & _).
    destruct (updateRenderer w) as [[c w1] l1] eqn:Hu.
    unfold completion, world_after, log_of in *. simpl in Hc, Hthis. subst c.
    cbn [fst snd].
    apply post_eq. unfold redraw.
    repeat (lazymatch goal with
            | |- post updateRenderer _ _ => fail
            | _ => post_step
            end).
    all: tidy; try congruence.
    eapply post_of_run; [exact Hu |]. cbv beta iota.
    eapply post_of_run.
    { apply renderThree_configured with (vc := vc). by rewrite Hthis. }
    cbv beta iota. apply post_ret.
    rewrite Hthis, Hfl, andb_true_r, app_nil_r.
    by destruct (defined (renderer (this w))). }
  split; [exact Hmain |].
  intros Hn. rewrite Hmain, Hn. simpl.
  rewrite (updateRenderer_no_renderer w Hn). reflexivity.
Qed.

(** X21: [renderThree] changes nothing in the viewer or around it, also
    when it faults.  For a configured viewer it renders with the viewer's
    camera exactly when there is a renderer and the frame is loaded, and
    clears exactly when there is a renderer and the frame is not loaded; for
    a viewer that is not configured it faults before any call. *)
Theorem X21_renderThree_reads_only (w : World) :
  world_after (renderThree w) = w
  /\ (forall vc,
        viewerConfigs (user (state (this w))) !! props_id (props (this w)) =
          Some vc ->
        (RendererRender (camera (this w)) ∈ log_of (renderThree w) <->
         defined (renderer (this w)) = true
         /\ isCurrentFrameLoaded (state (this w)) (sensor vc) = true)
        /\ (RendererClear ∈ log_of (renderThree w) <->
            defined (renderer (this w)) = true
            /\ isCurrentFrameLoaded (state (this w)) (sensor vc) = false))
  /\ (viewerConfigs (user (state (this w))) !! props_id (props (this w)) = None ->
      renderThree w = (Throw (TypeError "sensor"), w, [])).
Proof.
  split; [| split].
  - change (post renderThree (fun _ w' _ => w' = w) w). post_run; done.
  - intros vc Hvc. rewrite (renderThree_configured w vc Hvc). simpl.
    destruct (defined (renderer (this w)));
      destruct (isCurrentFrameLoaded (state (this w)) (sensor vc)); simpl;
      rewrite ?list_elem_of_singleton, ?elem_of_nil; split; split;
      try done; intros H; try discriminate H; try (by destruct H).
  - intros Hn. unfold renderThree. unfold_monad. simpl. by rewrite Hn.
Qed.

End Drawing.

(** ** Several instances, repeated mounts *)

Lemma times_registered_remove_first_ne `{EqDecision A} (x y : A) (l : list A) :
  y <> x -> times_registered x (remove_first y l) = times_registered x l.
Proof.
  intros Hne. unfold times_registered.
  induction l as [| z l IH]; [done |]. simpl.
  destruct (decide (y = z)) as [<- | Hyz].
  - by rewrite filter_cons_False.
  - destruct (decide (z = x)) as [-> | Hzx].
    + rewrite !filter_cons_True by done. simpl. by rewrite IH.
    + rewrite !filter_cons_False by done. exact IH.
Qed.

Lemma times_registered_snoc_ne `{EqDecision A} (x y : A) (l : list A) :
  y <> x -> times_registered x (l ++ [y]) = times_registered x l.
Proof.
  intros Hne.
  rewrite times_registered_app, times_registered_other by done. lia.
Qed.

Lemma register_other_instance (inst inst' : nat) (r : Registrations)
    (ev : Effect) (ty : string) (l' : Listener) :
  inst' <> inst -> l' ∈ closures_of inst' -> registration_of inst ev ->
  times_registered (ty, l') (listeners (register r ev)) =
    times_registered (ty, l') (listeners r)
  /\ times_registered l' (callbacks (register r ev)) =
       times_registered l' (callbacks r).
Proof.
  intros Hne Hl' Hev.
  assert (Hdiff : forall l, l ∈ closures_of inst -> l <> l').
  { intros l Hl ->. unfold closures_of in *.
    repeat (apply elem_of_cons in Hl as [Hl | Hl]);
      repeat (apply elem_of_cons in Hl' as [Hl' | Hl']);
      try (by apply elem_of_nil in Hl); try (by apply elem_of_nil in Hl');
      congruence. }
  destruct ev; simpl in *; try done.
  - destruct (bool_decide _); simpl; [done |]. split; [| done].
    apply times_registered_snoc_ne. intros [= _ Heq]. by apply (Hdiff _ Hev).
  - split; [| done]. apply times_registered_remove_first_ne.
    intros [= _ Heq]. by apply (Hdiff _ Hev).
  - split; [done |]. apply times_registered_snoc_ne. by apply Hdiff.
  - split; [done |]. apply times_registered_remove_first_ne. by apply Hdiff.
Qed.

Lemma registrations_other_instance (inst inst' : nat) (log : list Effect)
    (r : Registrations) (ty : string) (l' : Listener) :
  inst' <> inst -> l' ∈ closures_of inst' -> Forall (registration_of inst) log ->
  times_registered (ty, l') (listeners (registrations_after r log)) =
    times_registered (ty, l') (listeners r)
  /\ times_registered l' (callbacks (registrations_after r log)) =
       times_registered l' (callbacks r).
Proof.
  intros Hne Hl' Hlog. revert r.
  induction Hlog as [| ev log Hev _ IH]; intros r; [done |].
  cbn [registrations_after foldl]. fold (registrations_after (register r ev) log).
  destruct (IH (register r ev)) as [-> ->].
  by apply (register_other_instance inst inst').
Qed.

Section SeveralInstances.
Context `{C : Collaborators}.

Lemma mount_logs_of_instance (w : World) (n : nat) :
  componentDidMount w = (Normal tt, w, mount_log (instance (this w)))
  /\ componentWillUnmount w = (Normal tt, w, unmount_log (instance (this w)))
  /\ Forall (registration_of (instance (this w))) (mount_log (instance (this w)))
  /\ Forall (registration_of (instance (this w))) (unmount_log (instance (this w)))
  /\ Forall (registration_of (instance (this w))) (log_of (mount_cycles n w)).
Proof.
  assert (Hm : Forall (registration_of (instance (this w)))
                 (mount_log (instance (this w)))).
  { repeat constructor; simpl; unfold closures_of; set_solver. }
  assert (Hu : Forall (registration_of (instance (this w)))
                 (unmount_log (instance (this w)))).
  { repeat constructor; simpl; unfold closures_of; set_solver. }
  split; [reflexivity |]. split; [reflexivity |].
  split; [exact Hm |]. split; [exact Hu |].
  rewrite mount_cycles_run. unfold log_of. cbn [snd].
  induction n as [| n IH]; [constructor |].
  cbn [replicate concat]. rewrite !Forall_app. done.
Qed.

(** X22: mounting and unmounting one instance, once or any number of times,
    never changes how many times a closure of another instance is registered
    on the document or subscribed to the channel. *)
Theorem X22_instances_do_not_interfere
    (w : World) (n : nat) (r : Registrations) (inst' : nat)
    (ty : string) (l' : Listener) :
  inst' <> instance (this w) ->
  l' ∈ closures_of inst' ->
  Forall (fun log =>
            times_registered (ty, l') (listeners (registrations_after r log)) =
              times_registered (ty, l') (listeners r)
            /\ times_registered l' (callbacks (registrations_after r log)) =
                 times_registered l' (callbacks r))
    [log_of (componentDidMount w); log_of (componentWillUnmount w);
     log_of (mount_cycles n w)].
Proof.
  intros Hne Hl'.
  destruct (mount_logs_of_instance w n) as (Hm & Hu & Fm & Fu & Fc).
  rewrite Hm, Hu. unfold log_of at 1 2. cbn [snd].
  repeat constructor;
    by apply (registrations_other_instance (instance (this w)) inst').
Qed.

(** X23: mounting an instance twice without unmounting it registers each of
    its two keyboard listeners on the document once, not twice, and the one
    unmount that follows removes both: no keyboard listener of the instance
    stays on the document. *)
Theorem X23_second_mount_does_not_register_listeners_twice
    (w : World) (r : Registrations) :
  let inst := instance (this w) in
  unregistered inst r ->
  let twice :=
    registrations_after r
      (log_of (componentDidMount w) ++ log_of (componentDidMount w)) in
  let after := registrations_after twice (log_of (componentWillUnmount w)) in
  times_registered ("keydown", KeyDownListener inst) (listeners twice) = 1%nat
  /\ times_registered ("keyup", KeyUpListener inst) (listeners twice) = 1%nat
  /\ listeners after = listeners r.
Proof.
  intros inst (Hd & Hu & Hc) twice after.
  destruct (mount_logs_of_instance w 0) as (Hm & Hum & _).
  subst twice after. rewrite Hm, Hum. unfold log_of. cbn [snd]. fold inst.
  rewrite registrations_after_app.
  assert (H1 : listeners (registrations_after r (mount_log inst)) =
               listeners r ++ [("keydown", KeyDownListener inst);
                               ("keyup", KeyUpListener inst)]).
  { simpl. rewrite (bool_decide_eq_false_2 _ Hd). simpl.
    rewrite bool_decide_eq_false_2; simpl.
    - by rewrite <- app_assoc.
    - rewrite elem_of_app, list_elem_of_singleton.
      intros [? | ?]; [done | congruence]. }
  set (r1 := registrations_after r (mount_log inst)) in *.
  assert (Hkd : ("keydown", KeyDownListener inst) ∈ listeners r1).
  { rewrite H1. apply elem_of_app. right. apply list_elem_of_here. }
  assert (Hku : ("keyup", KeyUpListener inst) ∈ listeners r1).
  { rewrite H1. apply elem_of_app. right.
    apply list_elem_of_further, list_elem_of_here. }
  assert (H2 : listeners (registrations_after r1 (mount_log inst)) =
               listeners r1).
  { simpl. rewrite (bool_decide_eq_true_2 _ Hkd). simpl.
    by rewrite (bool_decide_eq_true_2 _ Hku). }
  rewrite H2, H1.
  rewrite !times_registered_app, (times_registered_absent _ _ Hd),
    (times_registered_absent _ _ Hu).
  split; [| split].
  - unfold times_registered. rewrite filter_cons_True by done.
    by rewrite filter_cons_False.
  - unfold times_registered. rewrite filter_cons_False by done.
    by rewrite filter_cons_True.
  - change (listeners
              (registrations_after
                 (registrations_after r1 (mount_log inst)) (unmount_log inst)))
      with (remove_first ("keyup", KeyUpListener inst)
              (remove_first ("keydown", KeyDownListener inst)
                 (listeners (registrations_after r1 (mount_log inst))))).
    rewrite H2, H1.
    rewrite remove_first_app by done.
    rewrite remove_first_app by done.
    by rewrite app_nil_r.
Qed.

End SeveralInstances.

(** ** The layers of several viewers *)

(** X24: configured viewers get integer layers that are not negative, and
    two configured viewers get the same layer only if they have the same
    id; with no configured viewer at all the subtraction gives minus
    infinity. *)
Theorem X24_configured_viewers_get_distinct_layers
    (configs : gmap Z ViewerConfigType) (id1 id2 : Z) :
  id1 ∈ dom configs -> id2 ∈ dom configs ->
  (exists c, layer_channel id1 configs = Num c /\ 0 <= c)
  /\ (layer_channel id1 configs = layer_channel id2 configs -> id1 = id2)
  /\ layer_channel id1 (∅ : gmap Z ViewerConfigType) = NegInfinity.
Proof.
  intros H1 H2.
  pose proof (Math_min_spec (keys_as_numbers configs)) as Hs.
  unfold layer_channel.
  destruct (Math_min (keys_as_numbers configs)) as [m | |] eqn:Hm.
  - destruct Hs as [_ Hle]. split; [| split].
    + exists (id1 - m). split; [done |].
      specialize (Hle id1). rewrite elem_of_keys_as_numbers in Hle.
      specialize (Hle H1). lia.
    + simpl. intros [= Heq]. lia.
    + reflexivity.
  - apply elem_of_keys_as_numbers in H1. rewrite Hs in H1.
    by apply elem_of_nil in H1.
  - done.
Qed.

(** ** Attaching the canvas *)

Import Attachment.

Lemma collect_calls_made {B : Type} (f : RefCall -> option B) (l : list Effect) :
  (forall ev, f (Made ev) = None) -> collect_calls f (Made <$> l) = [].
Proof.
  intros Hf. induction l as [| ev l IH]; [done |]. simpl. by rewrite Hf.
Qed.

Section AttachingRules.
Context `{C : Collaborators} `{L : Layout}.

Lemma post2_bind {A B : Type} (m : M2 A) (k : A -> M2 B) Q w :
  post2 m (fun r w1 l1 =>
    match r with
    | Normal a => post2 (k a) (fun r' w2 l2 => Q r' w2 (l1 ++ l2)) w1
    | Throw e => Q (Throw e) w1 l1
    end) w ->
  post2 (bind2 m k) Q w.
Proof.
  unfold post2, bind2.
  destruct (m w) as [[[a | e] w1] l1]; simpl; [| done].
  destruct (k a w1) as [[r w2] l2]; simpl. done.
Qed.

Lemma post2_ret {A : Type} (a : A) (Q : _ -> _ -> _ -> Prop) w :
  Q (Normal a) w [] -> post2 (ret2 a) Q w.
Proof. done. Qed.

Lemma post2_call c (Q : _ -> _ -> _ -> Prop) w :
  Q (Normal tt) w [c] -> post2 (call c) Q w.
Proof. done. Qed.

Lemma post2_lift {A : Type} (m : M A) (Q : _ -> _ -> _ -> Prop) w :
  post m (fun r w' l => Q r w' (Made <$> l)) w -> post2 (lift m) Q w.
Proof.
  unfold post, post2, lift, completion, world_after, log_of.
  by destruct (m w) as [[r w'] l].
Qed.

End AttachingRules.

Ltac post2_step :=
  lazymatch goal with
  | |- post2 (bind2 _ _) _ _ => apply post2_bind
  | |- post2 (ret2 _) _ _ => apply post2_ret
  | |- post2 (call _) _ _ => apply post2_call
  | |- post2 (lift _) _ _ => apply post2_lift
  | |- post2 (if ?b then _ else _) _ _ => destruct b eqn:?
  | |- post2 (match ?x with _ => _ end) _ _ => destruct x eqn:?
  | |- post2 (let _ := _ in _) _ _ => cbv zeta
  | |- post _ _ _ => post_step
  end; cbv beta iota.

Ltac post2_run := repeat post2_step.

Section Attaching.
Context `{C : Collaborators} `{L : Layout}.

Ltac unfold_refs :=
  unfold initializeRefs, bind2, lift, call, ret2; unfold_monad; simpl.

(** X25: [initializeRefs] faults, before doing anything, for a viewer that
    is not configured, even when it is given no node; for a configured
    viewer it does nothing when it is given no node, or the frame is not
    loaded, or the node is not a canvas. *)
Theorem X25_attachment_skipped_or_faults
    (w : World) (component : option ComponentRef) :
  (viewerConfigs (user (state (this w))) !! props_id (props (this w)) = None ->
   initializeRefs component w = (Throw (TypeError "sensor"), w, []))
  /\ (forall vc,
        viewerConfigs (user (state (this w))) !! props_id (props (this w)) =
          Some vc ->
        (component = None
         \/ isCurrentFrameLoaded (state (this w)) (sensor vc) = false
         \/ exists c, component = Some c /\ nodeName c <> "CANVAS") ->
        initializeRefs component w = (Normal tt, w, [])).
Proof.
  split.
  - intros Hn. unfold_refs. by rewrite Hn.
  - intros vc Hvc Hcase. unfold_refs. rewrite Hvc. simpl.
    destruct component as [c |]; [| reflexivity].
    destruct (isCurrentFrameLoaded (state (this w)) (sensor vc)) eqn:Hfl;
      [| reflexivity]. simpl.
    destruct Hcase as [? | [? | (c' & [= <-] & Hname)]]; try discriminate.
    by rewrite bool_decide_eq_false_2.
Qed.

Lemma initializeRefs_attached
    (w : World) (vc : ViewerConfigType) (c : ComponentRef) :
  viewerConfigs (user (state (this w))) !! props_id (props (this w)) = Some vc ->
  isCurrentFrameLoaded (state (this w)) (sensor vc) = true ->
  nodeName c = "CANVAS" ->
  let r := initializeRefs (Some c) w in
  let w' := r.1.2 in
  r.1.1 = Normal tt
  /\ state (this w') = state (this w) /\ props (this w') = props (this w)
  /\ display (this w') = display (this w)
  /\ canvas_node <$> canvas (this w') = Some (canvas_node (node c))
  /\ renderer (this w') =
       (if other_element (canvas (this w)) c
        then Some (canvas_node (node c)) else renderer (this w))
  /\ collect_calls renderer_created r.2 =
       (if other_element (canvas (this w)) c
        then [canvas_node (node c)] else []).
Proof.
  intros Hvc Hfl Hname r w'. subst w' r.
  change (post2 (initializeRefs (Some c)) (fun r w' l =>
    r = Normal tt
    /\ state (this w') = state (this w) /\ props (this w') = props (this w)
    /\ display (this w') = display (this w)
    /\ canvas_node <$> canvas (this w') = Some (canvas_node (node c))
    /\ renderer (this w') =
         (if other_element (canvas (this w)) c
          then Some (canvas_node (node c)) else renderer (this w))
    /\ collect_calls renderer_created l =
         (if other_element (canvas (this w)) c
          then [canvas_node (node c)] else [])) w).
  unfold initializeRefs, getCurrentViewerConfig.
  post2_run.
  all: unfold getCurrentViewerConfig in *; tidy; try congruence.
  all: try done.
  all: repeat match goal with
       | H : canvas _ = _ |- _ => rewrite H
       end; simpl; repeat split; congruence.
Qed.

(** X26: for a configured viewer whose frame is loaded, attaching a canvas
    node completes and leaves the viewer holding that node; a renderer is
    created for it exactly when the viewer held another element or none, so
    that attaching the same node again creates no second renderer. *)
Theorem X26_renderer_created_once_per_canvas
    (w : World) (vc : ViewerConfigType) (c : ComponentRef) :
  viewerConfigs (user (state (this w))) !! props_id (props (this w)) = Some vc ->
  isCurrentFrameLoaded (state (this w)) (sensor vc) = true ->
  nodeName c = "CANVAS" ->
  let r := initializeRefs (Some c) w in
  let w' := r.1.2 in
  let r' := initializeRefs (Some c) w' in
  r.1.1 = Normal tt
  /\ canvas_node <$> canvas (this w') = Some (canvas_node (node c))
  /\ (other_element (canvas (this w)) c = true ->
      renderer (this w') = Some (canvas_node (node c))
      /\ collect_calls renderer_created r.2 = [canvas_node (node c)])
  /\ (other_element (canvas (this w)) c = false ->
      renderer (this w') = renderer (this w)
      /\ collect_calls renderer_created r.2 = [])
  /\ r'.1.1 = Normal tt
  /\ collect_calls renderer_created r'.2 = []
  /\ renderer (this r'.1.2) = renderer (this w').
Proof.
  intros Hvc Hfl Hname r w' r'.
  destruct (initializeRefs_attached w vc c Hvc Hfl Hname)
    as (Hc & Hst & Hpr & Hd & Hcv & Hrd & Hnew).
  fold r in Hc, Hnew. fold r w' in Hst, Hpr, Hd, Hcv, Hrd.
  assert (Hother' : other_element (canvas (this w')) c = false).
  { destruct (canvas (this w')) as [cv |]; [| discriminate Hcv].
    simpl in *. injection Hcv as Hcv.
    by rewrite bool_decide_eq_true_2. }
  assert (Hvc' : viewerConfigs (user (state (this w'))) !! props_id (props (this w'))
                 = Some vc) by (by rewrite Hst, Hpr).
  assert (Hfl' : isCurrentFrameLoaded (state (this w')) (sensor vc) = true)
    by (by rewrite Hst).
  destruct (initializeRefs_attached w' vc c Hvc' Hfl' Hname)
    as (Hc' & _ & _ & _ & _ & Hrd' & Hnew').
  fold r' in Hc', Hrd', Hnew'. rewrite Hother' in Hrd', Hnew'.
  split; [exact Hc |]. split; [exact Hcv |]. split; [| split].
  - intros Ho. rewrite Ho in Hrd, Hnew. done.
  - intros Ho. rewrite Ho in Hrd, Hnew. done.
  - done.
Qed.





Lemma perform_canvas_renderer (op : Operation) (w : World) :
  canvas (this (world_after (perform op w))) = canvas (this w)
  /\ renderer (this (world_after (perform op w))) = renderer (this w).
Proof.
  change (post (perform op) (fun _ w' _ =>
    canvas (this w') = canvas (this w)
    /\ renderer (this w') = renderer (this w)) w).
  destruct op; unfold perform; post_run; tidy; done.
Qed.

Lemma initializeRefs_renderer_of_canvas
    (w : World) (component : option ComponentRef) :
  renderer (this w) = canvas_node <$> canvas (this w) ->
  renderer (this (initializeRefs component w).1.2) =
    canvas_node <$> canvas (this (initializeRefs component w).1.2).
Proof.
  intros Hinv.
  change (post2 (initializeRefs component) (fun _ w' _ =>
    renderer (this w') = canvas_node <$> canvas (this w')) w).
  unfold initializeRefs, getCurrentViewerConfig.
  post2_run.
  all: unfold getCurrentViewerConfig in *; tidy; try congruence.
  all: repeat match goal with
       | H : canvas _ = _ |- _ => rewrite H in *
       | H : renderer _ = _ |- _ => rewrite H in *
       end; simpl in *; try done; try congruence.
Qed.

(** X28: for a viewer whose canvas is attached by [initializeRefs], whatever
    operations ran and whatever the environment did, the viewer holds a
    renderer exactly when it holds a canvas, and the renderer is the one
    made for that canvas.  So a redraw of a configured viewer whose frame is
    not loaded clears the framebuffer exactly when a canvas is attached. *)
Theorem X28_renderer_iff_canvas (w : World) (vc : ViewerConfigType) :
  attachable w ->
  renderer (this w) = canvas_node <$> canvas (this w)
  /\ defined (renderer (this w)) = defined (canvas (this w))
  /\ (viewerConfigs (user (state (this w))) !! props_id (props (this w)) =
        Some vc ->
      isCurrentFrameLoaded (state (this w)) (sensor vc) = false ->
      redraw w =
        (Normal true, w,
         if defined (canvas (this w)) then [RendererClear] else [])).
Proof.
  intros Hat.
  assert (Hinv : renderer (this w) = canvas_node <$> canvas (this w)).
  { induction Hat as [| w op _ IH | w comp _ IH | w s fz _ IH | w st _ IH];
      try exact IH.
    - reflexivity.
    - destruct (perform_canvas_renderer op w) as [-> ->]. exact IH.
    - by apply initializeRefs_renderer_of_canvas. }
  assert (Hdef : defined (renderer (this w)) = defined (canvas (this w))).
  { rewrite Hinv. by destruct (canvas (this w)). }
  split; [exact Hinv |]. split; [exact Hdef |].
  intros Hvc Hfl.
  destruct (redraw_configured w vc Hvc) as (_ & _ & Hr).
  rewrite (Hr Hfl), Hdef. by destruct (defined (canvas (this w))).
Qed.

End Attaching.

(** ** The further properties on concrete viewers *)

Lemma X4_mouse_buttons_stop_propagation_iff_consumed_witness :
  let w := Fixtures.attached (Fixtures.fresh 0 Fixtures.state_loaded false) in
  let e := mkMouseEvent 15 25 in
  (canvas (this w) = Some Fixtures.canvas0 /\ freeze w = false)
  /\ log_of (onMouseDown e w) =
       [HandlerOnMouseDown (15 - 10) (25 - 20); StopPropagation]
  /\ log_of (onMouseUp e w) = [HandlerOnMouseUp; StopPropagation].
Proof.
  intros w e.
  assert (H1 : canvas (this w) = Some Fixtures.canvas0) by reflexivity.
  assert (H2 : freeze w = false) by reflexivity.
  split; [auto |].
  destruct (X4_mouse_buttons_stop_propagation_iff_consumed
              w e Fixtures.canvas0 H1 H2) as [Hd Hu].
  split; [exact (f_equal snd Hd) | exact (f_equal snd Hu)].
Defined.

Lemma X5_mouse_move_always_announces_update_witness :
  let w := Fixtures.attached (Fixtures.fresh 0 Fixtures.state_loaded false) in
  let e := mkMouseEvent 15 25 in
  (canvas (this w) = Some Fixtures.canvas0 /\ freeze w = false)
  /\ last (log_of (onMouseMove e w)) = Some OnDrawableUpdate
  /\ collect propagation_stopped (log_of (onMouseMove e w)) = [tt].
Proof.
  intros w e.
  assert (H1 : canvas (this w) = Some Fixtures.canvas0) by reflexivity.
  assert (H2 : freeze w = false) by reflexivity.
  split; [auto |].
  destruct (X5_mouse_move_always_announces_update w e Fixtures.canvas0 H1 H2)
    as (Hlast & _ & Hstop & _).
  split; [exact Hlast | exact Hstop].
Defined.

Lemma X6_key_events_announce_iff_changed_witness :
  let w := Fixtures.fresh 0 Fixtures.state_loaded false in
  let e := mkKeyboardEvent "a" in
  (freeze w = false
   /\ Session.activeViewerId (session w) = props_id (props (this w)))
  /\ log_of (onKeyDown e w) = [HandlerOnKeyDown e; OnDrawableUpdate]
  /\ log_of (onKeyUp e w) = [HandlerOnKeyUp e; OnDrawableUpdate].
Proof.
  intros w e.
  assert (H1 : freeze w = false) by reflexivity.
  assert (H2 : Session.activeViewerId (session w) = props_id (props (this w)))
    by reflexivity.
  split; [auto |].
  exact (X6_key_events_announce_iff_changed w e H1 H2).
Defined.

Lemma X7_canvas_key_down_map_only_grows_witness :
  let w := Fixtures.fresh 0 Fixtures.state_loaded false in
  let op := OnKeyUp (mkKeyboardEvent "a") in
  reachable w
  /\ _keyDownMap (this w) ⊆ _keyDownMap (this (world_after (perform op w))).
Proof.
  intros w op.
  assert (H1 : reachable w) by apply reachable_constructor.
  split; [exact H1 |].
  destruct (X7_canvas_key_down_map_only_grows w op "a" H1) as (_ & Hsub & _).
  exact Hsub.
Defined.

Lemma X8_input_handlers_never_set_or_replace_camera_witness :
  let w := Fixtures.attached (Fixtures.fresh 0 Fixtures.state_loaded false) in
  let op := OnMouseMove (mkMouseEvent 15 25) in
  is_input_handler op = true
  /\ collect camera_set (log_of (perform op w)) = []
  /\ camera (this (world_after (perform op w))) = camera (this w).
Proof.
  intros w op.
  assert (H1 : is_input_handler op = true) by reflexivity.
  split; [exact H1 |].
  destruct (X8_input_handlers_never_set_or_replace_camera w op H1)
    as (Hs & _ & _ & _ & Hc & _).
  split; [exact Hs | exact Hc].
Defined.

Lemma X9_label_handler_holds_current_camera_witness :
  let w := Fixtures.fresh 0 Fixtures.state_loaded false in
  let w' := world_after (perform (UpdateState Fixtures.state_loaded) w) in
  reachable w
  /\ handler_camera (_labelHandler (this w')) = camera (this w').
Proof.
  intros w w'.
  assert (H1 : reachable w) by apply reachable_constructor.
  split; [exact H1 |].
  exact (proj2 (X9_label_handler_holds_current_camera w H1)
           (UpdateState Fixtures.state_loaded)).
Defined.

Lemma X10_display_reconciled_once_witness :
  let w := Scenes.with_display 0 Fixtures.state_loaded in
  let r := updateState Fixtures.state_loaded w in
  display (this w) <> props_display (props (this w))
  /\ collect forced_update (log_of r) = [tt]
  /\ collect forced_update
       (log_of (updateState Fixtures.state_unloaded (world_after r))) = [].
Proof.
  intros w r.
  assert (H1 : display (this w) <> props_display (props (this w)))
    by discriminate.
  split; [exact H1 |].
  destruct (X10_display_reconciled_once
              w Fixtures.state_loaded Fixtures.state_unloaded)
    as (_ & _ & Hne & Hagain).
  split; [exact (Hne H1) | exact Hagain].
Defined.

Lemma X11_layers_enabled_on_shapes_seen_by_sensor_witness :
  let w := Fixtures.fresh 0 Fixtures.state_loaded false in
  let st := Fixtures.state_loaded in
  let vc := mkViewerConfig IMAGE_3D 0 1 in
  let it := mkItem [(0, mkLabel [0])] in
  (viewerConfigs (user (state (this w))) !! props_id (props (this w)) = Some vc
   /\ js_index (items (task st)) (item (select (user st))) = Some it)
  /\ (2%nat, 0) ∈ collect shape_enabled (log_of (updateState st w)).
Proof.
  intros w st vc it.
  assert (H1 : viewerConfigs (user (state (this w))) !! props_id (props (this w))
               = Some vc) by reflexivity.
  assert (H2 : js_index (items (task st)) (item (select (user st))) = Some it)
    by reflexivity.
  split; [auto |].
  apply (X11_layers_enabled_on_shapes_seen_by_sensor w st vc it 2%nat 0 H1 H2).
  split; [reflexivity |].
  exists 0, (mkLabel [0]), [5; 2; 8]%nat.
  split; [apply list_elem_of_here |].
  split; [apply list_elem_of_here |].
  split; [reflexivity |].
  apply list_elem_of_further, list_elem_of_here.
Defined.

Lemma X12_camera_layer_and_shape_layer_witness :
  let w := Fixtures.fresh 1 Fixtures.state_loaded false in
  let st := Fixtures.state_loaded in
  let vc := mkViewerConfig POINT_CLOUD 1 1 in
  let it := mkItem [(0, mkLabel [0])] in
  let configs := viewerConfigs (user (state (this w))) in
  (configs !! props_id (props (this w)) = Some vc
   /\ js_index (items (task st)) (item (select (user st))) = Some it
   /\ 0 ∈ dom configs /\ forall k, k ∈ dom configs -> 0 <= k)
  /\ collect layer_assignment (log_of (updateState st w)) =
       [(camera (this w), Num (1 - 0))].
Proof.
  intros w st vc it configs.
  assert (H1 : configs !! props_id (props (this w)) = Some vc) by reflexivity.
  assert (H2 : js_index (items (task st)) (item (select (user st))) = Some it)
    by reflexivity.
  assert (Hdom : dom configs = {[0; 1]}).
  { unfold configs. simpl. rewrite dom_insert_L, dom_singleton_L. done. }
  assert (H3 : 0 ∈ dom configs) by (rewrite Hdom; set_solver).
  assert (H4 : forall k, k ∈ dom configs -> 0 <= k).
  { intros k. rewrite Hdom.
    intros [->%elem_of_singleton | ->%elem_of_singleton]%elem_of_union; lia. }
  split; [auto |].
  exact (proj1 (X12_camera_layer_and_shape_layer w st vc it 0 H1 H2 H3 H4)).
Defined.

Lemma X13_reconciliation_replaces_generic_camera_witness :
  let w := Fixtures.fresh 1 Fixtures.state_loaded false in
  let st := Fixtures.state_loaded in
  let vc := mkViewerConfig POINT_CLOUD 1 1 in
  let it := mkItem [(0, mkLabel [0])] in
  let w' := world_after (updateState st w) in
  (viewerConfigs (user (state (this w))) !! props_id (props (this w)) = Some vc
   /\ js_index (items (task st)) (item (select (user st))) = Some it
   /\ type vc <> IMAGE_3D)
  /\ camera (this w') = next w
  /\ heap w' (camera (this w')) = THREE.Camera_new generic_projection.
Proof.
  intros w st vc it w'.
  assert (H1 : viewerConfigs (user (state (this w))) !! props_id (props (this w))
               = Some vc) by reflexivity.
  assert (H2 : js_index (items (task st)) (item (select (user st))) = Some it)
    by reflexivity.
  assert (H3 : type vc <> IMAGE_3D) by discriminate.
  split; [auto |].
  destruct (X13_reconciliation_replaces_generic_camera w st vc it H1 H2 H3)
    as (_ & Hc & _ & Hh & _).
  split; [exact Hc | exact Hh].
Defined.

Lemma X14_reconciliation_builds_intrinsic_camera_witness :
  let w := Fixtures.fresh 0 Fixtures.state_loaded false in
  let st := Fixtures.state_loaded in
  let vc := mkViewerConfig IMAGE_3D 0 1 in
  let it := mkItem [(0, mkLabel [0])] in
  let s := mkSensor (Some Fixtures.intrinsics0) (Some Fixtures.extrinsics0) in
  let w' := world_after (updateState st w) in
  (viewerConfigs (user (state (this w))) !! props_id (props (this w)) = Some vc
   /\ js_index (items (task st)) (item (select (user st))) = Some it
   /\ sensors_of (task (state (this w))) !! sensor vc = Some s
   /\ isCurrentFrameLoaded st (sensor vc) = true
   /\ image_of (session w) st (sensor vc) = Some (mkImage 640 480))
  /\ THREE.projection (heap w' (camera (this w'))) =
       THREE.IntrinsicCamera Fixtures.intrinsics0 640 480.
Proof.
  intros w st vc it s w'.
  assert (H1 : viewerConfigs (user (state (this w))) !! props_id (props (this w))
               = Some vc) by reflexivity.
  assert (H2 : js_index (items (task st)) (item (select (user st))) = Some it)
    by reflexivity.
  assert (H3 : type vc = IMAGE_3D) by reflexivity.
  assert (H4 : sensors_of (task (state (this w))) !! sensor vc = Some s)
    by reflexivity.
  assert (H5 : intrinsics s = Some Fixtures.intrinsics0) by reflexivity.
  assert (H6 : isCurrentFrameLoaded st (sensor vc) = true) by reflexivity.
  assert (H7 : image_of (session w) st (sensor vc) = Some (mkImage 640 480))
    by reflexivity.
  split; [auto 6 |].
  destruct (X14_reconciliation_builds_intrinsic_camera
              w st vc it s Fixtures.intrinsics0 (mkImage 640 480)
              H1 H2 H3 H4 H5 H6 H7) as (_ & _ & Hp & _).
  exact Hp.
Defined.

Lemma X15_reconciliation_without_intrinsics_keeps_camera_witness :
  let w := Fixtures.fresh 2 Scenes.state_more false in
  let st := Scenes.state_more in
  let vc := mkViewerConfig IMAGE_3D 1 1 in
  let it := mkItem [(0, mkLabel [0])] in
  (viewerConfigs (user (state (this w))) !! props_id (props (this w)) = Some vc
   /\ js_index (items (task st)) (item (select (user st))) = Some it
   /\ sensors_of (task (state (this w))) !! sensor vc = Some (mkSensor None None))
  /\ completion (updateState st w) = Normal tt
  /\ camera (this (world_after (updateState st w))) = camera (this w).
Proof.
  intros w st vc it.
  assert (H1 : viewerConfigs (user (state (this w))) !! props_id (props (this w))
               = Some vc) by reflexivity.
  assert (H2 : js_index (items (task st)) (item (select (user st))) = Some it)
    by reflexivity.
  assert (H3 : type vc = IMAGE_3D) by reflexivity.
  assert (H4 : sensors_of (task (state (this w))) !! sensor vc =
               Some (mkSensor None None)) by reflexivity.
  split; [auto |].
  destruct (X15_reconciliation_without_intrinsics_keeps_camera w st vc it
              H1 H2 H3
              (or_intror (ex_intro _ (mkSensor None None) (conj H4 eq_refl))))
    as (Hn & Hc & _).
  split; [exact Hn | exact Hc].
Defined.

Lemma X16_reconciliation_completes_iff_reconcilable_witness :
  let w := Fixtures.fresh 0 Fixtures.state_loaded false in
  let st := Fixtures.state_loaded in
  let r := updateState st w in
  reconcilable w st
  /\ completion r = Normal tt
  /\ last (log_of r) = Some (HandlerUpdateState st 0 0).
Proof.
  intros w st r.
  assert (H1 : reconcilable w st).
  { exists (mkViewerConfig IMAGE_3D 0 1), (mkItem [(0, mkLabel [0])]).
    split; [reflexivity |]. split; [reflexivity |].
    intros _ s intr _ _ _. exists (mkImage 640 480). reflexivity. }
  split; [exact H1 |].
  destruct (X16_reconciliation_completes_iff_reconcilable w st)
    as (Hiff & Hcalls & _).
  split; [exact (proj2 Hiff H1) | exact (proj2 (Hcalls H1))].
Defined.

Lemma X17_pose_update_is_idempotent_witness :
  let w := Fixtures.attached (Fixtures.fresh 0 Fixtures.state_loaded false) in
  let vc := mkViewerConfig IMAGE_3D 0 1 in
  let s := mkSensor (Some Fixtures.intrinsics0) (Some Fixtures.extrinsics0) in
  let w1 := world_after (updateRenderer w) in
  (canvas (this w) = Some Fixtures.canvas0
   /\ renderer (this w) = Some O
   /\ getCurrentViewerConfig (state (this w)) (props_id (props (this w))) =
        Some vc
   /\ sensors_of (task (state (this w))) !! sensor vc = Some s)
  /\ log_of (updateRenderer w1) = log_of (updateRenderer w)
  /\ heap (world_after (updateRenderer w1)) (camera (this w)) =
       heap w1 (camera (this w)).
Proof.
  intros w vc s w1.
  assert (H1 : canvas (this w) = Some Fixtures.canvas0) by reflexivity.
  assert (H2 : renderer (this w) = Some O) by reflexivity.
  assert (H3 : getCurrentViewerConfig (state (this w)) (props_id (props (this w)))
               = Some vc) by reflexivity.
  assert (H4 : type vc = IMAGE_3D) by reflexivity.
  assert (H5 : sensors_of (task (state (this w))) !! sensor vc = Some s)
    by reflexivity.
  assert (H6 : extrinsics s = Some Fixtures.extrinsics0) by reflexivity.
  split; [auto |].
  destruct (X17_pose_update_is_idempotent
              w Fixtures.canvas0 O vc s Fixtures.extrinsics0
              H1 H2 H3 H4 H5 H6) as (Hh & Hl & _).
  split; [exact Hl | exact Hh].
Defined.

Lemma X18_renderer_update_skipped_witness :
  let w := Fixtures.fresh 0 Fixtures.state_loaded false in
  canvas (this w) = None
  /\ updateRenderer w = (Normal tt, w, []).
Proof.
  intros w.
  assert (H1 : canvas (this w) = None) by reflexivity.
  split; [exact H1 |].
  exact (X18_renderer_update_skipped w (or_introl H1)).
Defined.

Lemma X19_pose_update_without_extrinsics_witness :
  let w := Fixtures.attached (Fixtures.fresh 2 Scenes.state_more false) in
  let vc := mkViewerConfig IMAGE_3D 1 1 in
  let s := mkSensor None None in
  (canvas (this w) = Some Fixtures.canvas0
   /\ renderer (this w) = Some O
   /\ getCurrentViewerConfig (state (this w)) (props_id (props (this w))) =
        Some vc
   /\ sensors_of (task (state (this w))) !! sensor vc = Some s)
  /\ log_of (updateRenderer w) =
       [CameraPositionSet (camera (this w)) (THREE.mkVector3 0 0 0);
        RendererSetSize 640 480].
Proof.
  intros w vc s.
  assert (H1 : canvas (this w) = Some Fixtures.canvas0) by reflexivity.
  assert (H2 : renderer (this w) = Some O) by reflexivity.
  assert (H3 : getCurrentViewerConfig (state (this w)) (props_id (props (this w)))
               = Some vc) by reflexivity.
  assert (H4 : type vc = IMAGE_3D) by reflexivity.
  assert (H5 : sensors_of (task (state (this w))) !! sensor vc = Some s)
    by reflexivity.
  assert (H6 : extrinsics s = None) by reflexivity.
  split; [auto |].
  exact (proj1 (X19_pose_update_without_extrinsics
                  w Fixtures.canvas0 O vc s H1 H2 H3 H4 H5 H6)).
Defined.

Lemma X20_redraw_updates_then_renders_witness :
  let w := Fixtures.attached (Fixtures.fresh 0 Fixtures.state_loaded false) in
  let vc := mkViewerConfig IMAGE_3D 0 1 in
  (viewerConfigs (user (state (this w))) !! props_id (props (this w)) = Some vc
   /\ canvas (this w) = Some Fixtures.canvas0
   /\ isCurrentFrameLoaded (state (this w)) (sensor vc) = true)
  /\ redraw w =
       (Normal true, world_after (updateRenderer w),
        log_of (updateRenderer w) ++ [RendererRender (camera (this w))]).
Proof.
  intros w vc.
  assert (H1 : viewerConfigs (user (state (this w))) !! props_id (props (this w))
               = Some vc) by reflexivity.
  assert (H2 : canvas (this w) = Some Fixtures.canvas0) by reflexivity.
  assert (H3 : isCurrentFrameLoaded (state (this w)) (sensor vc) = true)
    by reflexivity.
  split; [auto |].
  exact (proj1 (X20_redraw_updates_then_renders w vc Fixtures.canvas0 H1 H2 H3)).
Defined.

Lemma X21_renderThree_reads_only_witness :
  let w := Fixtures.attached (Fixtures.fresh 0 Fixtures.state_unloaded false) in
  let vc := mkViewerConfig IMAGE_3D 0 1 in
  (viewerConfigs (user (state (this w))) !! props_id (props (this w)) = Some vc
   /\ defined (renderer (this w)) = true
   /\ isCurrentFrameLoaded (state (this w)) (sensor vc) = false)
  /\ RendererClear ∈ log_of (renderThree w).
Proof.
  intros w vc.
  assert (H1 : viewerConfigs (user (state (this w))) !! props_id (props (this w))
               = Some vc) by reflexivity.
  assert (H2 : defined (renderer (this w)) = true) by reflexivity.
  assert (H3 : isCurrentFrameLoaded (state (this w)) (sensor vc) = false)
    by reflexivity.
  split; [auto |].
  destruct (X21_renderThree_reads_only w) as (_ & Hcfg & _).
  exact (proj2 (proj2 (Hcfg vc H1)) (conj H2 H3)).
Defined.

Lemma X22_instances_do_not_interfere_witness :
  let w := Fixtures.fresh 0 Fixtures.state_loaded false in
  let r := mkRegistrations [("keydown", KeyDownListener 8)] [] in
  (8%nat <> instance (this w) /\ KeyDownListener 8 ∈ closures_of 8)
  /\ times_registered ("keydown", KeyDownListener 8)
       (listeners (registrations_after r (log_of (componentDidMount w)))) =
     times_registered ("keydown", KeyDownListener 8) (listeners r).
Proof.
  intros w r.
  assert (H1 : 8%nat <> instance (this w)) by discriminate.
  assert (H2 : KeyDownListener 8 ∈ closures_of 8) by apply list_elem_of_here.
  split; [auto |].
  exact (proj1 (List.Forall_inv
                  (X22_instances_do_not_interfere
                     w 3 r 8%nat "keydown" (KeyDownListener 8) H1 H2))).
Defined.

Lemma X23_second_mount_does_not_register_listeners_twice_witness :
  let w := Fixtures.fresh 0 Fixtures.state_loaded false in
  let r := mkRegistrations [] [] in
  let twice :=
    registrations_after r
      (log_of (componentDidMount w) ++ log_of (componentDidMount w)) in
  unregistered (instance (this w)) r
  /\ times_registered ("keydown", KeyDownListener (instance (this w)))
       (listeners twice) = 1%nat.
Proof.
  intros w r twice.
  assert (H1 : unregistered (instance (this w)) r).
  { repeat split; apply not_elem_of_nil. }
  split; [exact H1 |].
  exact (proj1 (X23_second_mount_does_not_register_listeners_twice w r H1)).
Defined.

Lemma X24_configured_viewers_get_distinct_layers_witness :
  let configs := viewerConfigs (user Fixtures.state_loaded) in
  (0 ∈ dom configs /\ 1 ∈ dom configs)
  /\ (exists c, layer_channel 1 configs = Num c /\ 0 <= c)
  /\ layer_channel 1 configs <> layer_channel 0 configs.
Proof.
  intros configs.
  assert (Hdom : dom configs = {[0; 1]}).
  { unfold configs. simpl. rewrite dom_insert_L, dom_singleton_L. done. }
  assert (H0 : 0 ∈ dom configs) by (rewrite Hdom; set_solver).
  assert (H1 : 1 ∈ dom configs) by (rewrite Hdom; set_solver).
  split; [auto |].
  destruct (X24_configured_viewers_get_distinct_layers configs 1 0 H1 H0)
    as (Hnum & Hinj & _).
  split; [exact Hnum |].
  intros Heq. specialize (Hinj Heq). discriminate Hinj.
Defined.

Lemma X25_attachment_skipped_or_faults_witness :
  let w := Fixtures.fresh 0 Fixtures.state_unloaded false in
  let unconfigured := Fixtures.fresh 5 Fixtures.state_loaded false in
  let vc := mkViewerConfig IMAGE_3D 0 1 in
  (viewerConfigs (user (state (this unconfigured)))
     !! props_id (props (this unconfigured)) = None
   /\ viewerConfigs (user (state (this w))) !! props_id (props (this w)) =
        Some vc
   /\ isCurrentFrameLoaded (state (this w)) (sensor vc) = false)
  /\ initializeRefs (L := Scenes.layout0) (Some Scenes.component0) unconfigured =
       (Throw (TypeError "sensor"), unconfigured, [])
  /\ initializeRefs (L := Scenes.layout0) (Some Scenes.component0) w =
       (Normal tt, w, []).
Proof.
  intros w unconfigured vc.
  assert (H1 : viewerConfigs (user (state (this unconfigured)))
                 !! props_id (props (this unconfigured)) = None)
    by reflexivity.
  assert (H2 : viewerConfigs (user (state (this w))) !! props_id (props (this w))
               = Some vc) by reflexivity.
  assert (H3 : isCurrentFrameLoaded (state (this w)) (sensor vc) = false)
    by reflexivity.
  split; [auto |].
  split.
  - exact (proj1 (X25_attachment_skipped_or_faults (L := Scenes.layout0)
                    unconfigured (Some Scenes.component0)) H1).
  - exact (proj2 (X25_attachment_skipped_or_faults (L := Scenes.layout0)
                    w (Some Scenes.component0)) vc H2 (or_intror (or_introl H3))).
Defined.

Lemma X26_renderer_created_once_per_canvas_witness :
  let w := Fixtures.fresh 1 Fixtures.state_loaded false in
  let vc := mkViewerConfig POINT_CLOUD 1 1 in
  let c := Scenes.component0 in
  let r := initializeRefs (L := Scenes.layout0) (Some c) w in
  let r' := initializeRefs (L := Scenes.layout0) (Some c) r.1.2 in
  (viewerConfigs (user (state (this w))) !! props_id (props (this w)) = Some vc
   /\ isCurrentFrameLoaded (state (this w)) (sensor vc) = true
   /\ nodeName c = "CANVAS"
   /\ other_element (canvas (this w)) c = true)
  /\ renderer (this r.1.2) = Some O
  /\ collect_calls renderer_created r.2 = [O]
  /\ collect_calls renderer_created r'.2 = [].
Proof.
  intros w vc c r r'.
  assert (H1 : viewerConfigs (user (state (this w))) !! props_id (props (this w))
               = Some vc) by reflexivity.
  assert (H2 : isCurrentFrameLoaded (state (this w)) (sensor vc) = true)
    by reflexivity.
  assert (H3 : nodeName c = "CANVAS") by reflexivity.
  assert (H4 : other_element (canvas (this w)) c = true) by reflexivity.
  split; [auto |].
  destruct (X26_renderer_created_once_per_canvas (L := Scenes.layout0)
              w vc c H1 H2 H3) as (_ & _ & Hnew & _ & _ & Hagain & _).
  destruct (Hnew H4) as [Hr Hcalls].
  split; [exact Hr |]. split; [exact Hcalls | exact Hagain].
Defined.


Lemma X28_renderer_iff_canvas_witness :
  let attached :=
    (initializeRefs (L := Scenes.layout0) (Some Scenes.component0)
       (Fixtures.fresh 0 Fixtures.state_loaded false)).1.2 in
  let w := Fixtures.with_state Fixtures.state_unloaded attached in
  let vc := mkViewerConfig IMAGE_3D 0 1 in
  (attachable (L := Scenes.layout0) w
   /\ viewerConfigs (user (state (this w))) !! props_id (props (this w)) = Some vc
   /\ isCurrentFrameLoaded (state (this w)) (sensor vc) = false)
  /\ renderer (this w) = Some O
  /\ redraw w = (Normal true, w, [RendererClear]).
Proof.
  intros attached w vc.
  assert (H1 : attachable (L := Scenes.layout0) w).
  { apply attachable_state, attachable_initializeRefs, attachable_constructor. }
  assert (H2 : viewerConfigs (user (state (this w))) !! props_id (props (this w))
               = Some vc) by reflexivity.
  assert (H3 : isCurrentFrameLoaded (state (this w)) (sensor vc) = false)
    by reflexivity.
  split; [auto |].
  destruct (X28_renderer_iff_canvas (L := Scenes.layout0) w vc H1)
    as (Hr & _ & Hclear).
  split; [exact Hr | exact (Hclear H2 H3)].
Defined.
